(** * TrapMasterPro: analysis, DSP, preset and export pipeline

    A shallow embedding of the engine sources
    ([src/engine/dspModules.js], [presets.js], [advancedPitchCorrector.js],
    [audioAnalysis.js], [audioEngine.js], [exportValidator.js] and the
    lossless processor) together with the properties the specification
    states about them.

    Numbers.  JavaScript numbers are modelled as real numbers: [Math.exp],
    [Math.log10], [Math.pow], [Math.tanh], [Math.sqrt] are the real
    functions, and the rounding of IEEE doubles and of [Float32Array]
    stores is not modelled, nor are [NaN] and the infinities: a division
    by zero follows the real library ([x / 0 = 0]) and a typed-array read
    past the end gives [0].  The properties about loudness are stated for
    buffers with at least one channel and one frame, where the divisors
    are positive; the one stated for every buffer (the range of the
    integrated loudness) has the same value in JavaScript, whose [NaN]
    fails the test [rms > 0] as [0] does.  Integers that reach the
    container header are [Z], bytes are [Z] in [0, 255].

    Margins.  Where the real-number computation meets a bound exactly, or
    makes two computed values equal, the property is stated with a margin
    that the rounding left out of the model cannot use up: a bound is
    given one part in a million of slack, an equality is stated as
    [agreeAt] (agreement to one part in a million of the magnitudes
    involved), and a floor is used only at positions [clearOfIntegers]. *)

From Stdlib Require Import Reals Lra Lia ZArith List String Ascii Bool.
Import ListNotations.
Open Scope R_scope.

(** ** JavaScript arithmetic *)

Module JS.

(** [Math.log10]. *)
Definition log10 (x : R) : R := ln x / ln 10.

(** [Math.pow(10, x)]. *)
Definition pow10 (x : R) : R := Rpower 10 x.

(** [Math.pow(2, x)] and [Math.log2]. *)
Definition pow2 (x : R) : R := Rpower 2 x.
Definition log2 (x : R) : R := ln x / ln 2.

(** [Math.floor], [Math.round] (halves go up) and the truncation of
    [ToInt32]-style conversions. *)
Definition floor (x : R) : Z := Int_part x.
Definition round (x : R) : Z := Int_part (x + / 2).
Definition trunc (x : R) : Z :=
  if Rle_dec 0 x then Int_part x else (- Int_part (- x))%Z.

(** [a > b] and [a < b] as tests. *)
Definition gt (a b : R) : bool := if Rgt_dec a b then true else false.
Definition lt (a b : R) : bool := if Rlt_dec a b then true else false.

(** [x || d] on a property that may be absent: [undefined] and [0] are
    falsy. *)
Definition or_default (x : option R) (d : R) : R :=
  match x with
  | Some v => if Req_dec_T v 0 then d else v
  | None => d
  end.

(** The smallest level added before every [log10] in the sources. *)
Definition tiny : R := 1e-10.

End JS.

(** ** DSP primitives ([dspModules.js]) *)

Module DynamicEQ.

Record t := mk {
  frequency : R; q : R; threshold : R; ratio : R;
  attack : R; release : R; gain : R;
  envelope : R; sampleRate : R
}.

Definition new (frequency q threshold ratio attack release gain : R) : t :=
  mk frequency q threshold ratio attack release gain 0 44100.

Definition setSampleRate (self : t) (sr : R) : t :=
  mk (frequency self) (q self) (threshold self) (ratio self)
     (attack self) (release self) (gain self) (envelope self) sr.

Definition set_gain (self : t) (g : R) : t :=
  mk (frequency self) (q self) (threshold self) (ratio self)
     (attack self) (release self) g (envelope self) (sampleRate self).

Definition set_envelope (self : t) (e : R) : t :=
  mk (frequency self) (q self) (threshold self) (ratio self)
     (attack self) (release self) (gain self) e (sampleRate self).

Definition process (self : t) (sample inputLevel : R) : t * R :=
  let target := Rabs inputLevel in
  let coeff :=
    if JS.gt target (envelope self)
    then exp (- 1 / (attack self * sampleRate self))
    else exp (- 1 / (release self * sampleRate self)) in
  let env := target + (envelope self - target) * coeff in
  let dbLevel := 20 * JS.log10 (env + JS.tiny) in
  let gainReduction :=
    if JS.gt dbLevel (threshold self)
    then Rmin ((dbLevel - threshold self) / ratio self) (gain self)
    else 0 in
  let gainLinear := JS.pow10 (- gainReduction / 20) in
  (set_envelope self env, sample * gainLinear).

End DynamicEQ.

(** The fields of the measurement record the chains read.  A field that
  the caller left out is [None] ([undefined]). *)
Record SpectralBalance := { sb_low : R; sb_mid : R; sb_high : R }.

Record AnalysisData := {
  dynamicRange : option R;
  harshness : option R;
  mud : option R;
  bassStability : option R;
  vocalDominance : option R;
  spectralBalance : option SpectralBalance
}.

Module AdaptiveCompressor.

Record t := mk {
  threshold : R; ratio : R; attack : R; release : R;
  knee : R; makeupGain : R;
  envelope : R; sampleRate : R
}.

Definition new (threshold ratio attack release knee makeupGain : R) : t :=
  mk threshold ratio attack release knee makeupGain 0 44100.

Definition setSampleRate (self : t) (sr : R) : t :=
  mk (threshold self) (ratio self) (attack self) (release self)
     (knee self) (makeupGain self) (envelope self) sr.

Definition set_threshold (self : t) (th : R) : t :=
  mk th (ratio self) (attack self) (release self)
     (knee self) (makeupGain self) (envelope self) (sampleRate self).

Definition set_envelope (self : t) (e : R) : t :=
  mk (threshold self) (ratio self) (attack self) (release self)
     (knee self) (makeupGain self) e (sampleRate self).

Definition adaptThreshold (self : t) (analysisData : AnalysisData) : t :=
  let dr := JS.or_default (dynamicRange analysisData) 12 in
  let targetRange := 8 in
  if JS.gt dr targetRange
  then set_threshold self (- 12 - (dr - targetRange) * 0.5)
  else self.

Definition process (self : t) (sample : R) : t * R :=
  let target := Rabs sample in
  let coeff :=
    if JS.gt target (envelope self)
    then exp (- 1 / (attack self * sampleRate self))
    else exp (- 1 / (release self * sampleRate self)) in
  let env := target + (envelope self - target) * coeff in
  let dbLevel := 20 * JS.log10 (env + JS.tiny) in
  let gainReduction :=
    if JS.gt dbLevel (threshold self - knee self / 2) then
      if JS.lt dbLevel (threshold self + knee self / 2) then
        let excess := dbLevel - (threshold self - knee self / 2) in
        (excess / knee self) * (excess / ratio self)
      else
        let excess := dbLevel - threshold self in
        excess - excess / ratio self
    else 0 in
  let gainLinear := JS.pow10 ((- gainReduction + makeupGain self) / 20) in
  (set_envelope self env, sample * gainLinear).

End AdaptiveCompressor.

Module SoftClipper.

Record t := mk { drive : R; threshold : R }.

Definition new (drive threshold : R) : t := mk drive threshold.

Definition process (self : t) (sample : R) : R :=
  let driven := sample * drive self in
  if JS.gt (Rabs driven) (threshold self) then
    let sign := if JS.gt driven 0 then 1 else - 1 in
    let excess := Rabs driven - threshold self in
    sign * (threshold self
            + (1 - threshold self) * tanh (excess / (1 - threshold self)))
  else driven.

End SoftClipper.

Module Limiter.

Record t := mk {
  ceiling : R; release : R; gainReduction : R; sampleRate : R
}.

Definition new (ceiling release : R) : t := mk ceiling release 1 44100.

Definition setSampleRate (self : t) (sr : R) : t :=
  mk (ceiling self) (release self) (gainReduction self) sr.

Definition set_gainReduction (self : t) (g : R) : t :=
  mk (ceiling self) (release self) g (sampleRate self).

Definition process (self : t) (sample : R) : t * R :=
  let absSample := Rabs sample in
  let gr :=
    if JS.gt absSample (ceiling self) then
      let targetGain := ceiling self / (absSample + JS.tiny) in
      Rmin (gainReduction self) targetGain
    else
      let releaseCoeff := exp (- 1 / (release self * sampleRate self)) in
      Rmin 1 (1 + (gainReduction self - 1) * releaseCoeff) in
  (set_gainReduction self gr, sample * gr).

End Limiter.

(** A stereo pair, the [{left, right}] object the stereo stages return. *)
Record Stereo := { left : R; right : R }.

Module MidSideProcessor.

Record t := mk { width : R }.

Definition new (width : R) : t := mk width.

Definition process (self : t) (l r : R) : Stereo :=
  let mid := (l + r) * 0.5 in
  let side := (l - r) * 0.5 in
  let processedSide := side * width self in
  {| left := mid + processedSide; right := mid - processedSide |}.

End MidSideProcessor.

Module MonoBassProcessor.

Record t := mk {
  cutoff : R; sampleRate : R; alpha : R; leftLP : R; rightLP : R
}.

Definition new (cutoff sampleRate : R) : t :=
  let rc := 1 / (cutoff * 2 * PI) in
  let dt := 1 / sampleRate in
  mk cutoff sampleRate (dt / (rc + dt)) 0 0.

(** The two low-pass updates of [process]. *)
Definition lowpass (self : t) (l r : R) : t :=
  mk (cutoff self) (sampleRate self) (alpha self)
     (leftLP self + alpha self * (l - leftLP self))
     (rightLP self + alpha self * (r - rightLP self)).

Definition process (self : t) (l r : R) : t * Stereo :=
  let self' := lowpass self l r in
  let mono := (leftLP self' + rightLP self') * 0.5 in
  (self', {| left := l - leftLP self' + mono;
             right := r - rightLP self' + mono |}).

End MonoBassProcessor.

(** ** Errors and the result of a call that may throw *)

Inductive error :=
| NotFound (message : string)        (* [new Error('Preset "..." not found')] *)
| TypeError (message : string)
| ReferenceError (identifier : string)
| NotSupportedError (message : string).

Inductive result (A : Type) :=
| Ok (value : A)
| Err (e : error).

Arguments Ok {A} value.
Arguments Err {A} e.

Definition bind {A B : Type} (m : result A) (k : A -> result B) : result B :=
  match m with
  | Ok a => k a
  | Err e => Err e
  end.

Notation "x <- m ;; k" := (bind m (fun x => k))
  (at level 61, m at next level, right associativity).

(** [for (let i = 0; i < n; i++) acc = body(i, acc)]. *)
Definition forRange {A : Type} (n : nat) (body : nat -> A -> A) (init : A) : A :=
  fold_left (fun acc i => body i acc) (seq 0 n) init.

(** ** Audio buffers

    An [AudioBuffer] of the Web Audio API: a channel count, a frame count, a
    sample rate and one [Float32Array] per channel. *)

Module AudioBuffer.

Record t := mk {
  numberOfChannels : nat;
  length : nat;
  sampleRate : Z;
  channels : list (list R)
}.

(** The buffers the Web Audio API hands out: at least one channel, at least
    one frame, and every channel array as long as the buffer. *)
Definition valid (b : t) : Prop :=
  (1 <= numberOfChannels b)%nat /\ (1 <= length b)%nat /\
  List.length (channels b) = numberOfChannels b /\
  Forall (fun data => List.length data = length b) (channels b).

(** [array[i] = v] on a typed array: a write past the end is dropped. *)
Fixpoint store (i : nat) (v : R) (data : list R) : list R :=
  match data, i with
  | [], _ => []
  | _ :: rest, O => v :: rest
  | x :: rest, S j => x :: store j v rest
  end.

Fixpoint storeChannel (ch : nat) (f : list R -> list R) (chans : list (list R))
  : list (list R) :=
  match chans, ch with
  | [], _ => []
  | data :: rest, O => f data :: rest
  | data :: rest, S k => data :: storeChannel k f rest
  end.

Definition getChannelData (b : t) (ch : nat) : list R := nth ch (channels b) [].

(** [b.getChannelData(ch)[i]]. *)
Definition get (b : t) (ch i : nat) : R := nth i (getChannelData b ch) 0.

(** [b.getChannelData(ch)[i] = v]: the array is the buffer's own storage. *)
Definition set (b : t) (ch i : nat) (v : R) : t :=
  mk (numberOfChannels b) (length b) (sampleRate b)
     (storeChannel ch (store i v) (channels b)).

(** [audioContext.createBuffer(channels, length, sampleRate)]: zero-filled;
    a zero channel or frame count is refused. *)
Definition createBuffer (nch len : nat) (sr : Z) : result t :=
  if ((nch =? 0) || (len =? 0))%nat
  then Err (NotSupportedError "createBuffer")
  else Ok (mk nch len sr (repeat (repeat 0 len) nch)).

(** The three numbers a caller can observe of a buffer's shape, with the
    sizes of its channel arrays. *)
Definition shape (b : t) : nat * nat * Z * list nat :=
  (numberOfChannels b, length b, sampleRate b, map (@List.length R) (channels b)).

End AudioBuffer.

(** ** Analysis engine ([audioAnalysis.js]) *)

Module AudioAnalysis.

(** [calculateLUFS(samples)]. *)
Definition calculateLUFS (samples : list R) : R :=
  let length := List.length samples in
  let sumSquared :=
    forRange length (fun i acc => let sample := nth i samples 0 in
                                  acc + sample * sample) 0 in
  let rms := sqrt (sumSquared / INR length) in
  let lufs := if JS.gt rms 0 then - 0.691 + 10 * JS.log10 rms else - 70 in
  Rmax (- 70) (Rmin 0 lufs).

(** The [integratedLUFS] field of the record [analyze] returns: the
    loudness of channel 0. *)
Definition integratedLUFS (audioBuffer : AudioBuffer.t) : R :=
  calculateLUFS (AudioBuffer.getChannelData audioBuffer 0).

(** [calculateDynamicRange(samples)]: the pair [{dynamicRange,
    crestFactor}]. *)
Definition calculateDynamicRange (samples : list R) : R * R :=
  let '(sumSquared, peak) :=
    forRange (List.length samples)
      (fun i '(sumSquared, peak) =>
         let abs := Rabs (nth i samples 0) in
         (sumSquared + nth i samples 0 * nth i samples 0, Rmax peak abs))
      (0, 0) in
  let rms := sqrt (sumSquared / INR (List.length samples)) in
  let crestFactor := if JS.gt peak 0 then peak / rms else 0 in
  let dynamicRange := if JS.gt peak 0 then 20 * JS.log10 (peak / rms) else 0 in
  (dynamicRange, crestFactor).

End AudioAnalysis.

(** ** Lossless processor *)

Module LosslessSampleRateConverter.

Record t := mk {
  inputRate : Z; outputRate : Z; ratio : R;
  sincFilterLength : nat; sincFilter : list R
}.

Definition createSincFilter (inputRate outputRate : Z) (sincFilterLength : nat)
  : list R :=
  let cutoff := Rmin (IZR inputRate) (IZR outputRate) / 2 in
  let nyquist := Rmin (IZR inputRate) (IZR outputRate) / 2 in
  map (fun i =>
         let x := (INR i - INR sincFilterLength / 2) / (INR sincFilterLength / 2) in
         if Req_dec_T x 0 then 1
         else
           let sinc := sin (PI * cutoff * x / nyquist) / (PI * cutoff * x / nyquist) in
           let window :=
             0.42 - 0.5 * cos (2 * PI * INR i / (INR sincFilterLength - 1))
             + 0.08 * cos (4 * PI * INR i / (INR sincFilterLength - 1)) in
           sinc * window)
      (seq 0 sincFilterLength).

Definition new (inputRate outputRate : Z) : t :=
  mk inputRate outputRate (IZR outputRate / IZR inputRate) 64
     (createSincFilter inputRate outputRate 64).

Definition convert (self : t) (audioBuffer : AudioBuffer.t) : result AudioBuffer.t :=
  if (inputRate self =? outputRate self)%Z then Ok audioBuffer
  else
    let inputLength := AudioBuffer.length audioBuffer in
    let outputLength := Z.to_nat (JS.floor (INR inputLength * ratio self)) in
    outputBuffer <- AudioBuffer.createBuffer
                      (AudioBuffer.numberOfChannels audioBuffer)
                      outputLength (outputRate self) ;;
    Ok (forRange (AudioBuffer.numberOfChannels audioBuffer)
          (fun ch out =>
             let inputData := AudioBuffer.getChannelData audioBuffer ch in
             forRange outputLength
               (fun i out =>
                  let inputPos := INR i / ratio self in
                  let inputIndex := JS.floor inputPos in
                  let sum :=
                    forRange (sincFilterLength self)
                      (fun j sum =>
                         let sampleIndex :=
                           (inputIndex + Z.of_nat j
                            - Z.of_nat (Nat.div (sincFilterLength self) 2))%Z in
                         if ((0 <=? sampleIndex) && (sampleIndex <? Z.of_nat inputLength))%Z
                         then sum + nth (Z.to_nat sampleIndex) inputData 0
                                    * nth j (sincFilter self) 0
                         else sum)
                      0 in
                  AudioBuffer.set out ch i sum)
               out)
          outputBuffer).

End LosslessSampleRateConverter.

Module ProfessionalDither.

(** [lastError] is only assigned by [applyDither], which first replaces a
    missing or zero value by [0]. *)
Record t := mk {
  bitDepth : Z; quantizationStep : R; noiseShaping : bool; lastError : R
}.

Definition new (bitDepth : Z) : t :=
  mk bitDepth (JS.pow2 (- (IZR bitDepth - 1))) true 0.

(** [Math.random()] is the next element of the stream [random]; the
    counter [n] is the number of calls made so far. *)
Definition generateDither (self : t) (random : nat -> R) (n : nat) : R * nat :=
  ((random n - random (S n)) * quantizationStep self, S (S n)).

Definition applyDither (self : t) (random : nat -> R) (n : nat) (sample : R)
  : t * nat * R :=
  let '(dither, n') := generateDither self random n in
  let ditheredSample := sample + dither in
  let ditheredSample :=
    if noiseShaping self then ditheredSample - lastError self * 0.5
    else ditheredSample in
  let quantized :=
    IZR (JS.round (ditheredSample / quantizationStep self)) * quantizationStep self in
  (mk (bitDepth self) (quantizationStep self) (noiseShaping self)
      (quantized - ditheredSample), n', quantized).

End ProfessionalDither.

Module LosslessTruePeakLimiter.

Record t := mk {
  ceiling : R; sampleRate : R; gainReduction : R; lastSample : R
}.

Definition new (ceiling sampleRate : R) : t := mk ceiling sampleRate 1 0.

Definition detectTruePeak (currentSample previousSample : R) : R :=
  let absCurrent := Rabs currentSample in
  let absPrevious := Rabs previousSample in
  let interpPeak := Rmax absCurrent absPrevious in
  interpPeak * 1.01.

Definition process (self : t) (sample : R) : t * R :=
  let truePeak := detectTruePeak sample (lastSample self) in
  let peakDB := 20 * JS.log10 (truePeak + JS.tiny) in
  let gr :=
    if JS.gt peakDB (ceiling self) then
      let targetGain := JS.pow10 ((ceiling self - peakDB) / 20) in
      Rmin (gainReduction self) targetGain
    else gainReduction self in
  (mk (ceiling self) (sampleRate self) gr sample, sample * gr).

(** One limiter fed a sequence of samples, as the export loop feeds it. *)
Fixpoint run (self : t) (samples : list R) : t * list R :=
  match samples with
  | [] => (self, [])
  | sample :: rest =>
      let '(self1, out) := process self sample in
      let '(self2, outs) := run self1 rest in
      (self2, out :: outs)
  end.

(** The limiter's estimate at every position of a sample sequence: each
    sample against its predecessor, the first against the initial
    [lastSample = 0]. *)
Fixpoint truePeakEstimates (previous : R) (samples : list R) : list R :=
  match samples with
  | [] => []
  | sample :: rest => detectTruePeak sample previous :: truePeakEstimates sample rest
  end.

End LosslessTruePeakLimiter.

Module LosslessNormalizer.

Record t := mk { targetLUFS : R; sampleRate : R }.

Definition new (targetLUFS sampleRate : R) : t := mk targetLUFS sampleRate.

Definition calculateGain (self : t) (audioBuffer : AudioBuffer.t) : R :=
  let length := AudioBuffer.length audioBuffer in
  let channels := AudioBuffer.numberOfChannels audioBuffer in
  let sumSquared :=
    forRange channels
      (fun ch acc =>
         let data := AudioBuffer.getChannelData audioBuffer ch in
         forRange length (fun i acc => acc + nth i data 0 * nth i data 0) acc)
      0 in
  let rms := sqrt (sumSquared / (INR length * INR channels)) in
  let currentLUFS := if JS.gt rms 0 then - 0.691 + 10 * JS.log10 rms else - 70 in
  let lufsDifference := targetLUFS self - currentLUFS in
  let gain := JS.pow10 (lufsDifference / 20) in
  Rmin gain 2.

Definition normalize (self : t) (audioBuffer : AudioBuffer.t) : AudioBuffer.t :=
  let gain := calculateGain self audioBuffer in
  forRange (AudioBuffer.numberOfChannels audioBuffer)
    (fun ch b =>
       forRange (AudioBuffer.length audioBuffer)
         (fun i b => AudioBuffer.set b ch i (AudioBuffer.get b ch i * gain)) b)
    audioBuffer.

End LosslessNormalizer.

(** ** Byte buffers ([ArrayBuffer] seen through a [DataView]) *)

Module DataView.

(** A view is the list of the buffer's bytes. *)
Definition t := list Z.

Definition create (size : nat) : t := repeat 0%Z size.

Fixpoint storeByte (offset : nat) (v : Z) (view : t) : t :=
  match view, offset with
  | [], _ => []
  | _ :: rest, O => v :: rest
  | x :: rest, S j => x :: storeByte j v rest
  end.

Definition setUint8 (view : t) (offset : nat) (v : Z) : t :=
  storeByte offset (v mod 256)%Z view.

(** Little-endian stores ([littleEndian = true] at every call site). *)
Definition setUint16 (view : t) (offset : nat) (v : Z) : t :=
  let w := (v mod 65536)%Z in
  storeByte (offset + 1) (w / 256)%Z (storeByte offset (w mod 256)%Z view).

Definition setUint32 (view : t) (offset : nat) (v : Z) : t :=
  let w := (v mod 4294967296)%Z in
  storeByte (offset + 3) (w / 16777216)%Z
    (storeByte (offset + 2) ((w / 65536) mod 256)%Z
       (storeByte (offset + 1) ((w / 256) mod 256)%Z
          (storeByte offset (w mod 256)%Z view))).

(** [setInt16(offset, x, true)] with a non-integral [x]: the number is
    truncated and wrapped to sixteen bits. *)
Definition setInt16 (view : t) (offset : nat) (x : R) : t :=
  setUint16 view offset (JS.trunc x).

(** [setFloat32(offset, x, true)]; [float32_bits] is the IEEE-754 binary32
    bit pattern of the platform's conversion. *)
Definition setFloat32 (float32_bits : R -> Z) (view : t) (offset : nat) (x : R) : t :=
  setUint32 view offset (float32_bits x).

(** [writeString(offset, string)] of [exportToWAV]. *)
Fixpoint writeString (view : t) (offset : nat) (s : string) : t :=
  match s with
  | EmptyString => view
  | String c rest =>
      writeString (setUint8 view offset (Z.of_nat (nat_of_ascii c))) (S offset) rest
  end.

(** Reads fail ([RangeError]) past the end of the buffer. *)
Definition getUint8 (view : t) (offset : nat) : option Z := nth_error view offset.

Definition getUint16 (view : t) (offset : nat) : option Z :=
  match getUint8 view offset, getUint8 view (offset + 1) with
  | Some b0, Some b1 => Some (b0 + 256 * b1)%Z
  | _, _ => None
  end.

Definition getUint32 (view : t) (offset : nat) : option Z :=
  match getUint16 view offset, getUint16 view (offset + 2) with
  | Some lo, Some hi => Some (lo + 65536 * hi)%Z
  | _, _ => None
  end.

Fixpoint bytesEqb (a b : list Z) : bool :=
  match a, b with
  | [], [] => true
  | x :: a', y :: b' => (x =? y)%Z && bytesEqb a' b'
  | _, _ => false
  end.

(** [String.fromCharCode(...new Uint8Array(buffer.slice(from, from + 4)))]
    compared with a four-character tag. *)
Definition tagAt (view : t) (from : nat) (tag : string) : bool :=
  bytesEqb (firstn (String.length tag) (skipn from view))
    (map (fun c => Z.of_nat (nat_of_ascii c)) (list_ascii_of_string tag)).

End DataView.

(** ** Export validator ([exportValidator.js]) *)

Module ExportValidator.

(** A level in dB; [MinusInfinity] is JavaScript's [-Infinity]. *)
Inductive level := MinusInfinity | Finite (x : R).

Definition level_max (a : level) (x : R) : level :=
  match a with
  | MinusInfinity => Finite x
  | Finite y => Finite (Rmax y x)
  end.

Definition toDB (a : level) : level :=
  match a with
  | MinusInfinity => MinusInfinity
  | Finite x => if JS.gt x 0 then Finite (20 * JS.log10 x) else MinusInfinity
  end.

Definition level_gt (a : level) (c : R) : bool :=
  match a with
  | MinusInfinity => false
  | Finite x => JS.gt x c
  end.

Definition measurePeaks (audioBuffer : AudioBuffer.t) : level * level :=
  let '(peak, truePeak) :=
    forRange (AudioBuffer.numberOfChannels audioBuffer)
      (fun ch acc =>
         let data := AudioBuffer.getChannelData audioBuffer ch in
         forRange (List.length data)
           (fun i '(peak, truePeak) =>
              let absSample := Rabs (nth i data 0) in
              let peak := level_max peak absSample in
              if ((0 <? i) && (i <? List.length data - 1))%nat then
                let prev := Rabs (nth (i - 1) data 0) in
                let next := Rabs (nth (i + 1) data 0) in
                let interpPeak := Rmax (Rmax prev absSample) next in
                (peak, level_max truePeak interpPeak)
              else (peak, level_max truePeak absSample))
           acc)
      (MinusInfinity, MinusInfinity) in
  (toDB peak, toDB truePeak).

Definition measureLUFS (audioBuffer : AudioBuffer.t) : R :=
  let length := AudioBuffer.length audioBuffer in
  let channels := AudioBuffer.numberOfChannels audioBuffer in
  let sumSquared :=
    forRange channels
      (fun ch acc =>
         let data := AudioBuffer.getChannelData audioBuffer ch in
         forRange length (fun i acc => acc + nth i data 0 * nth i data 0) acc)
      0 in
  let rms := sqrt (sumSquared / (INR length * INR channels)) in
  let lufs := if JS.gt rms 0 then - 0.691 + 10 * JS.log10 rms else - 70 in
  Rmax (- 70) (Rmin 0 lufs).

(** Messages pushed on the [errors] and [warnings] arrays, by kind and
    with the numbers the template strings print. *)
Inductive message :=
| SampleRateMismatch (actual expected : Z)
| TruePeakExceedsCeiling (ceiling : R)
| LUFSDiffersFromTarget (lufs target : R)
| MissingRIFF
| MissingWAVE
| MissingFmt
| BitDepthMismatch (actual expected : Z)
| ChannelCount (actual expected : Z)
| FormatNotFloat (actual : Z)
| FormatNotPCM (actual : Z)
| ValidationError.

Record TargetSpecs := {
  ts_sampleRate : option Z;
  ts_bitDepth : option Z;
  ts_targetLUFS : option R;
  ts_truePeakCeiling : option R
}.

Record Results := {
  r_sampleRate : Z;
  r_channels : nat;
  r_length : nat;
  r_peak : level;
  r_truePeak : level;
  r_lufs : R;
  r_valid : bool;
  r_warnings : list message;
  r_errors : list message
}.

(** [validate(audioBuffer, targetSpecs)], the check made before export. *)
Definition validate (audioBuffer : AudioBuffer.t) (targetSpecs : TargetSpecs) : Results :=
  let warnings :=
    match ts_sampleRate targetSpecs with
    | Some sr =>
        if (negb (sr =? 0) && negb (AudioBuffer.sampleRate audioBuffer =? sr))%Z
        then [SampleRateMismatch (AudioBuffer.sampleRate audioBuffer) sr] else []
    | None => []
    end in
  let '(peak, truePeak) := measurePeaks audioBuffer in
  let '(errors, valid) :=
    match ts_truePeakCeiling targetSpecs with
    | Some c => if level_gt truePeak c then ([TruePeakExceedsCeiling c], false)
                else ([], true)
    | None => ([], true)
    end in
  let lufs := measureLUFS audioBuffer in
  let warnings :=
    match ts_targetLUFS targetSpecs with
    | Some target =>
        if JS.gt (Rabs (lufs - target)) 1
        then warnings ++ [LUFSDiffersFromTarget lufs target] else warnings
    | None => warnings
    end in
  {| r_sampleRate := AudioBuffer.sampleRate audioBuffer;
     r_channels := AudioBuffer.numberOfChannels audioBuffer;
     r_length := AudioBuffer.length audioBuffer;
     r_peak := peak; r_truePeak := truePeak; r_lufs := lufs;
     r_valid := valid; r_warnings := warnings; r_errors := errors |}.

Record FileHeader := {
  audioFormat : Z; channels : Z; sampleRate : Z; byteRate : Z;
  blockAlign : Z; bitsPerSample : Z; fmtChunkSize : Z
}.

(** The Validation Report of an exported file. *)
Record FileValidation := {
  valid : bool;
  errors : list message;
  warnings : list message;
  fileHeader : option FileHeader
}.

Record ExpectedSpecs := {
  es_sampleRate : Z; es_bitDepth : Z; es_channels : Z
}.

Definition readHeader (view : DataView.t) (fmtOffset : nat) : option FileHeader :=
  match DataView.getUint32 view (fmtOffset + 4),
        DataView.getUint16 view (fmtOffset + 8),
        DataView.getUint16 view (fmtOffset + 10),
        DataView.getUint32 view (fmtOffset + 12),
        DataView.getUint32 view (fmtOffset + 16),
        DataView.getUint16 view (fmtOffset + 20),
        DataView.getUint16 view (fmtOffset + 22) with
  | Some fmtChunkSize, Some audioFormat, Some channels, Some sampleRate,
    Some byteRate, Some blockAlign, Some bitsPerSample =>
      Some {| audioFormat := audioFormat; channels := channels;
              sampleRate := sampleRate; byteRate := byteRate;
              blockAlign := blockAlign; bitsPerSample := bitsPerSample;
              fmtChunkSize := fmtChunkSize |}
  | _, _, _, _, _, _, _ => None
  end.

(** [validateExportedFile(blob, expectedSpecs)]: the first 100 bytes of the
    blob are read back and the header fields compared. *)
Definition validateExportedFile (blob : DataView.t) (expectedSpecs : ExpectedSpecs)
  : FileValidation :=
  let view := firstn 100 blob in
  if negb (DataView.tagAt view 0 "RIFF") then
    {| valid := false; errors := [MissingRIFF]; warnings := []; fileHeader := None |}
  else if negb (DataView.tagAt view 8 "WAVE") then
    {| valid := false; errors := [MissingWAVE]; warnings := []; fileHeader := None |}
  else
    let fmtOffset := 12%nat in
    if negb (DataView.tagAt view fmtOffset "fmt ") then
      {| valid := false; errors := [MissingFmt]; warnings := []; fileHeader := None |}
    else
      match readHeader view fmtOffset with
      | None =>
          {| valid := false; errors := [ValidationError]; warnings := [];
             fileHeader := None |}
      | Some h =>
          let e1 :=
            if (negb (es_sampleRate expectedSpecs =? 0)
                && negb (sampleRate h =? es_sampleRate expectedSpecs))%Z
            then [SampleRateMismatch (sampleRate h) (es_sampleRate expectedSpecs)]
            else [] in
          let e2 :=
            if negb (es_bitDepth expectedSpecs =? 0)%Z then
              let expectedBits :=
                if (es_bitDepth expectedSpecs =? 32)%Z then 32%Z
                else es_bitDepth expectedSpecs in
              if negb (bitsPerSample h =? expectedBits)%Z
              then [BitDepthMismatch (bitsPerSample h) expectedBits] else []
            else [] in
          let w :=
            if (negb (es_channels expectedSpecs =? 0)
                && negb (channels h =? es_channels expectedSpecs))%Z
            then [ChannelCount (channels h) (es_channels expectedSpecs)] else [] in
          let e3 :=
            if ((es_bitDepth expectedSpecs =? 32) && negb (audioFormat h =? 3))%Z
            then [FormatNotFloat (audioFormat h)]
            else if (negb (es_bitDepth expectedSpecs =? 32)
                     && negb (audioFormat h =? 1))%Z
            then [FormatNotPCM (audioFormat h)]
            else [] in
          let errors := e1 ++ e2 ++ e3 in
          {| valid := match errors with [] => true | _ => false end;
             errors := errors; warnings := w; fileHeader := Some h |}
      end.

End ExportValidator.

(** ** Identifier resolution

    The values an identifier of [audioEngine.js] can be bound to, and the
    lookup of a name in the bindings in scope.  Reading a name that no
    enclosing scope declares throws a [ReferenceError] (the file is an ES
    module, hence strict). *)

Inductive jsval :=
| JNull
| JNumber (x : R)
| JBool (b : bool)
| JString (s : string)
| JObject (className : string).

Definition scope := list (string * jsval).

Fixpoint resolve (env : scope) (identifier : string) : result jsval :=
  match env with
  | [] => Err (ReferenceError identifier)
  | (name, v) :: rest =>
      if String.eqb name identifier then Ok v else resolve rest identifier
  end.

(** ** The engine's export functions ([audioEngine.js]) *)

Module TrapMasterProEngine.

(** The [options] argument; [None] is a property that is absent (or, for
    the two properties whose default is [null], [null]). *)
Record ExportOptions := {
  o_bitDepth : option Z;
  o_sampleRate : option Z;
  o_targetLUFS : option R;
  o_truePeakCeiling : option R;
  o_dither : option bool;
  o_normalize : option bool
}.

Definition default {A : Type} (x : option A) (d : A) : A :=
  match x with Some v => v | None => d end.

Definition numberOrNull (x : option R) : jsval :=
  match x with Some v => JNumber v | None => JNull end.

(** The names [audioEngine.js] binds at module level: its imports and its
    class. *)
Definition moduleScope : scope :=
  map (fun name => (name, JObject name))
      ["AudioAnalysis"; "PresetEngine"; "RealtimeProcessor";
       "LosslessSampleRateConverter"; "ProfessionalDither";
       "LosslessTruePeakLimiter"; "LosslessNormalizer"; "ExportValidator";
       "TrapMasterProEngine"]%string.

(** The bindings the body of [exportToWAV] can read where it tests the
    ceiling: the three parameters, the five names the destructuring
    pattern declares and [workingBuffer], over the module's own.  The
    [const]s declared further down the body ([numChannels], [length],
    [finalSampleRate], [bytesPerSample], [blockAlign], [byteRate],
    [dataSize], [headerSize], [buffer], [view], [writeString], [blob],
    [validator], [fileValidation], [url], [a]) are not initialised yet
    there, and none of them bears the name read. *)
Definition exportToWAV_scope (filename : string) (bitDepth : Z) (sampleRate : option Z)
  (targetLUFS : option R) (dither normalize : bool) : scope :=
  [ ("audioBuffer", JObject "AudioBuffer");
    ("filename", JString filename);
    ("options", JObject "Object");
    ("bitDepth", JNumber (IZR bitDepth));
    ("sampleRate", numberOrNull (option_map IZR sampleRate));
    ("targetLUFS", numberOrNull targetLUFS);
    ("dither", JBool dither);
    ("normalize", JBool normalize);
    ("workingBuffer", JObject "AudioBuffer") ]%string ++ moduleScope.

Definition clamp (x : R) : R := Rmax (- 1) (Rmin 1 x).

(** The limiter loop of the export: one limiter, every channel in turn. *)
Definition limitTruePeak (ceiling : R) (workingBuffer : AudioBuffer.t) : AudioBuffer.t :=
  let limiter :=
    LosslessTruePeakLimiter.new ceiling (IZR (AudioBuffer.sampleRate workingBuffer)) in
  snd (forRange (AudioBuffer.numberOfChannels workingBuffer)
         (fun ch st =>
            forRange (List.length (AudioBuffer.getChannelData workingBuffer ch))
              (fun i '(limiter, b) =>
                 let '(limiter', out) :=
                   LosslessTruePeakLimiter.process limiter (AudioBuffer.get b ch i) in
                 (limiter', AudioBuffer.set b ch i out))
              st)
         (limiter, workingBuffer)).

(** What the sample loops carry: the bytes, the write offset, the dither
    processor if one was created, and the number of [Math.random()] calls
    made so far. *)
Record Writer := {
  view : DataView.t;
  offset : nat;
  ditherProcessor : option ProfessionalDither.t;
  randomCalls : nat
}.

(** [if (ditherProcessor) sample = ditherProcessor.applyDither(sample)]. *)
Definition ditherIfEnabled (random : nat -> R) (w : Writer) (sample : R) : Writer * R :=
  match ditherProcessor w with
  | Some d =>
      let '(d', n', quantized) :=
        ProfessionalDither.applyDither d random (randomCalls w) sample in
      ({| view := view w; offset := offset w;
          ditherProcessor := Some d'; randomCalls := n' |}, quantized)
  | None => (w, sample)
  end.

Definition advance (w : Writer) (v : DataView.t) (bytes : nat) : Writer :=
  {| view := v; offset := offset w + bytes;
     ditherProcessor := ditherProcessor w; randomCalls := randomCalls w |}.

(** The sample loop of the three paths: frames in order, the channels of a
    frame in order, each sample clamped to [-1, 1] and handed to the path's
    own [write]. *)
Definition writeSamples (workingBuffer : AudioBuffer.t) (w : Writer)
  (write : Writer -> R -> Writer) : Writer :=
  forRange (AudioBuffer.length workingBuffer)
    (fun i w =>
       forRange (AudioBuffer.numberOfChannels workingBuffer)
         (fun ch w => write w (clamp (AudioBuffer.get workingBuffer ch i))) w)
    w.

(** The encoder part of [exportToWAV]: header and interleaved samples of
    the working buffer at the requested bit depth. *)
Definition encodeWAV (float32_bits : R -> Z) (random : nat -> R)
  (workingBuffer : AudioBuffer.t) (bitDepth : Z) (dither : bool) : Writer :=
  let numChannels := AudioBuffer.numberOfChannels workingBuffer in
  let length := AudioBuffer.length workingBuffer in
  let finalSampleRate := AudioBuffer.sampleRate workingBuffer in
  let bytesPerSample :=
    if (bitDepth =? 32)%Z then 4%nat else if (bitDepth =? 24)%Z then 3%nat else 2%nat in
  let blockAlign := (numChannels * bytesPerSample)%nat in
  let byteRate := (finalSampleRate * Z.of_nat blockAlign)%Z in
  let dataSize := (length * blockAlign)%nat in
  let headerSize :=
    if (bitDepth =? 32)%Z then 58%nat else if (bitDepth =? 24)%Z then 50%nat else 44%nat in
  let view := DataView.create (headerSize + dataSize) in
  let view := DataView.writeString view 0 "RIFF" in
  let view := DataView.setUint32 view 4 (Z.of_nat (headerSize - 8 + dataSize)) in
  let view := DataView.writeString view 8 "WAVE" in
  let view := DataView.writeString view 12 "fmt " in
  if (bitDepth =? 32)%Z then
    let view := DataView.setUint32 view 16 18 in
    let view := DataView.setUint16 view 20 3 in
    let view := DataView.setUint16 view 22 (Z.of_nat numChannels) in
    let view := DataView.setUint32 view 24 finalSampleRate in
    let view := DataView.setUint32 view 28 byteRate in
    let view := DataView.setUint16 view 32 (Z.of_nat blockAlign) in
    let view := DataView.setUint16 view 34 bitDepth in
    let view := DataView.setUint16 view 36 0 in
    let view := DataView.writeString view 38 "data" in
    let view := DataView.setUint32 view 42 (Z.of_nat dataSize) in
    writeSamples workingBuffer {| view := view; offset := 46; ditherProcessor := None; randomCalls := 0 |}
      (fun w sample =>
         advance w (DataView.setFloat32 float32_bits (TrapMasterProEngine.view w)
                      (offset w) sample) 4)
  else if (bitDepth =? 24)%Z then
    let view := DataView.setUint32 view 16 18 in
    let view := DataView.setUint16 view 20 1 in
    let view := DataView.setUint16 view 22 (Z.of_nat numChannels) in
    let view := DataView.setUint32 view 24 finalSampleRate in
    let view := DataView.setUint32 view 28 byteRate in
    let view := DataView.setUint16 view 32 (Z.of_nat blockAlign) in
    let view := DataView.setUint16 view 34 bitDepth in
    let view := DataView.setUint16 view 36 0 in
    let view := DataView.writeString view 38 "data" in
    let view := DataView.setUint32 view 42 (Z.of_nat dataSize) in
    let ditherProcessor :=
      if dither then Some (ProfessionalDither.new bitDepth) else None in
    let maxValue := 2 ^ 23 - 1 in
    writeSamples workingBuffer {| view := view; offset := 46;
               ditherProcessor := ditherProcessor; randomCalls := 0 |}
      (fun w sample =>
         let '(w, sample) := ditherIfEnabled random w sample in
         let intSample := JS.round (sample * maxValue) in
         let v := DataView.setUint8 (TrapMasterProEngine.view w) (offset w)
                    (Z.land intSample 255) in
         let v := DataView.setUint8 v (offset w + 1)
                    (Z.land (Z.shiftr intSample 8) 255) in
         let v := DataView.setUint8 v (offset w + 2)
                    (Z.land (Z.shiftr intSample 16) 255) in
         advance w v 3)
  else
    let view := DataView.setUint32 view 16 16 in
    let view := DataView.setUint16 view 20 1 in
    let view := DataView.setUint16 view 22 (Z.of_nat numChannels) in
    let view := DataView.setUint32 view 24 finalSampleRate in
    let view := DataView.setUint32 view 28 byteRate in
    let view := DataView.setUint16 view 32 (Z.of_nat blockAlign) in
    let view := DataView.setUint16 view 34 bitDepth in
    let view := DataView.writeString view 36 "data" in
    let view := DataView.setUint32 view 40 (Z.of_nat dataSize) in
    let ditherProcessor :=
      if (dither && (bitDepth <? 32)%Z)%bool
      then Some (ProfessionalDither.new bitDepth) else None in
    writeSamples workingBuffer {| view := view; offset := 44;
               ditherProcessor := ditherProcessor; randomCalls := 0 |}
      (fun w sample =>
         let '(w, sample) := ditherIfEnabled random w sample in
         let v := DataView.setInt16 (TrapMasterProEngine.view w) (offset w)
                    (if JS.lt sample 0 then sample * 32768 else sample * 32767) in
         advance w v 2).

(** What [exportToWAV] resolves to: the bytes handed to the download and
    the report of the header read-back. *)
Record ExportResult := {
  success : bool;
  format : string;
  bitDepth : Z;
  sampleRate : Z;
  lossless : bool;
  blob : DataView.t;
  fileValidation : ExportValidator.FileValidation
}.

Definition exportToWAV (float32_bits : R -> Z) (random : nat -> R)
  (audioBuffer : AudioBuffer.t) (filename : string) (options : ExportOptions)
  : result ExportResult :=
  let bitDepth := default (o_bitDepth options) 24%Z in
  let sampleRate := o_sampleRate options in
  let targetLUFS := o_targetLUFS options in
  let dither := default (o_dither options) true in
  let normalize := default (o_normalize options) false in
  let env := exportToWAV_scope filename bitDepth sampleRate targetLUFS dither normalize in
  workingBuffer <-
    match sampleRate with
    | Some sr =>
        if (negb (sr =? 0) && negb (sr =? AudioBuffer.sampleRate audioBuffer))%Z
        then LosslessSampleRateConverter.convert
               (LosslessSampleRateConverter.new (AudioBuffer.sampleRate audioBuffer) sr)
               audioBuffer
        else Ok audioBuffer
    | None => Ok audioBuffer
    end ;;
  let workingBuffer :=
    match normalize, targetLUFS with
    | true, Some target =>
        LosslessNormalizer.normalize
          (LosslessNormalizer.new target (IZR (AudioBuffer.sampleRate workingBuffer)))
          workingBuffer
    | _, _ => workingBuffer
    end in
  truePeakCeiling <- resolve env "truePeakCeiling" ;;
  let workingBuffer :=
    match truePeakCeiling with
    | JNumber ceiling => limitTruePeak ceiling workingBuffer
    | _ => workingBuffer
    end in
  let w := encodeWAV float32_bits random workingBuffer bitDepth dither in
  let fileValidation :=
    ExportValidator.validateExportedFile (view w)
      {| ExportValidator.es_sampleRate := AudioBuffer.sampleRate workingBuffer;
         ExportValidator.es_bitDepth := bitDepth;
         ExportValidator.es_channels :=
           Z.of_nat (AudioBuffer.numberOfChannels workingBuffer) |} in
  Ok {| success := true; format := "WAV"; bitDepth := bitDepth;
        sampleRate := AudioBuffer.sampleRate workingBuffer; lossless := true;
        blob := view w; fileValidation := fileValidation |}.

(** [exportToAppleLossless]: the pre-export check, then [exportToWAV] at
    24 bit and 48 kHz with the ceiling and the loudness target passed in
    the options. *)
Definition exportToAppleLossless (float32_bits : R -> Z) (random : nat -> R)
  (audioBuffer : AudioBuffer.t) (filename : string) (options : ExportOptions)
  : result (ExportResult * ExportValidator.Results) :=
  let targetLUFS := default (o_targetLUFS options) (- 9) in
  let truePeakCeiling := default (o_truePeakCeiling options) (- 0.5) in
  let validation :=
    ExportValidator.validate audioBuffer
      {| ExportValidator.ts_sampleRate := Some 48000%Z;
         ExportValidator.ts_bitDepth := Some 24%Z;
         ExportValidator.ts_targetLUFS := Some targetLUFS;
         ExportValidator.ts_truePeakCeiling := Some truePeakCeiling |} in
  result <- exportToWAV float32_bits random audioBuffer filename
              {| o_bitDepth := Some 24%Z; o_sampleRate := Some 48000%Z;
                 o_targetLUFS := Some targetLUFS;
                 o_truePeakCeiling := Some truePeakCeiling;
                 o_dither := Some true; o_normalize := Some true |} ;;
  Ok ({| success := success result; format := "WAV (ALAC-compatible)";
         bitDepth := bitDepth result; sampleRate := sampleRate result;
         lossless := lossless result; blob := blob result;
         fileValidation := fileValidation result |}, validation).

End TrapMasterProEngine.

(** ** Pitch corrector ([advancedPitchCorrector.js]) *)

Module AdvancedPitchCorrector.

(** The delay line and its cursors, created by the first call of
    [applyPitchShift]. *)
Record DelayLine := mkDelay {
  delayLine : list R; delayIndex : nat; readIndex : R; lastSample : R
}.

Record t := mk {
  threshold : R; retuneSpeed : R; sampleRate : R;
  pitchBufferSize : nat; pitchBuffer : list R; bufferIndex : nat;
  currentPitch : R; targetPitch : R; smoothedPitch : R;
  pitchHistory : list R; historySize : nat;
  correctionAmount : R; smoothCorrection : R;
  windowSize : nat; hopSize : nat;
  delay : option DelayLine
}.

Definition new (threshold retuneSpeed sampleRate : R) : t :=
  mk threshold retuneSpeed sampleRate 2048 (repeat 0 2048) 0
     0 0 0 [] 10 0 0 1024 256 None.

Record PitchInfo := {
  frequency : R; deviation : R; nearestSemitone : Z; confidence : R
}.

(** A typed-array read at an integer index. *)
Definition readAt (data : list R) (i : Z) : R :=
  if (0 <=? i)%Z then nth (Z.to_nat i) data 0 else 0.

Definition detectPitch (self : t) (samples : list R) : option PitchInfo :=
  let n := windowSize self in
  let buffer := skipn (List.length samples - n) samples in
  if (List.length buffer <? n)%nat then None
  else
    let windowed :=
      map (fun i => nth i buffer 0
                    * (0.5 - 0.5 * cos (2 * PI * INR i / (INR n - 1))))
          (seq 0 n) in
    let minLag := Z.to_nat (JS.floor (sampleRate self / 1000)) in
    let maxLagRange := Z.to_nat (JS.floor (sampleRate self / 80)) in
    let lagEnd := Nat.min maxLagRange n in
    let corr (lag : nat) : R :=
      forRange (n - lag)
        (fun i sum => sum + nth i windowed 0 * nth (i + lag) windowed 0) 0 in
    let autocorr (lag : nat) : R :=
      if ((minLag <=? lag) && (lag <? lagEnd))%nat then corr lag else 0 in
    let '(maxCorr, maxLag) :=
      fold_left
        (fun '(maxCorr, maxLag) lag =>
           if JS.gt (corr lag) maxCorr then (corr lag, lag) else (maxCorr, maxLag))
        (seq minLag (lagEnd - minLag)) (0, 0%nat) in
    let refined :=
      if ((minLag <? maxLag) && (maxLag <? maxLagRange - 1))%nat then
        let y1 := autocorr (maxLag - 1)%nat in
        let y2 := autocorr maxLag in
        let y3 := autocorr (maxLag + 1)%nat in
        INR maxLag + (y3 - y1) / (2 * (2 * y2 - y1 - y3))
      else INR maxLag in
    if (JS.lt refined (INR minLag) || JS.gt refined (INR maxLagRange))%bool then None
    else
      let frequency := sampleRate self / refined in
      let semitones := 12 * JS.log2 (frequency / 440) + 9 in
      let nearestSemitone := JS.round semitones in
      Some {| frequency := frequency;
              deviation := (semitones - IZR nearestSemitone) * 100;
              nearestSemitone := nearestSemitone;
              confidence := maxCorr / (INR n * 0.1) |}.

Definition applyPitchShift (self : t) (sample ratio : R) : t * R :=
  let d :=
    match delay self with
    | Some d => d
    | None => mkDelay (repeat 0 2048) 0 512 0
    end in
  let size := List.length (delayLine d) in
  let line := AudioBuffer.store (delayIndex d) sample (delayLine d) in
  let delayIndex' := Nat.modulo (delayIndex d + 1) size in
  let correctedRatio := 1 / ratio in
  let readPos := readIndex d in
  let readPos := if JS.lt readPos 0 then readPos + INR size else readPos in
  let readPos := if JS.lt readPos (INR size) then readPos else readPos - INR size in
  let readPosInt := JS.floor readPos in
  let readPosFrac := readPos - IZR readPosInt in
  let zsize := Z.of_nat size in
  let idx1 := Z.rem readPosInt zsize in
  let idx2 := Z.rem (readPosInt + 1) zsize in
  let idx0 := Z.rem (readPosInt - 1 + zsize) zsize in
  let idx3 := Z.rem (readPosInt + 2) zsize in
  let y0 := readAt line idx0 in
  let y1 := readAt line idx1 in
  let y2 := readAt line idx2 in
  let y3 := readAt line idx3 in
  let a0 := y3 - y2 - y0 + y1 in
  let a1 := y0 - y1 - a0 in
  let a2 := y2 - y0 in
  let a3 := y1 in
  let shiftedSample :=
    a0 * readPosFrac * readPosFrac * readPosFrac
    + a1 * readPosFrac * readPosFrac + a2 * readPosFrac + a3 in
  let readIndex' := readIndex d + correctedRatio in
  let readIndex' :=
    if JS.lt readIndex' (INR size) then readIndex' else readIndex' - INR size in
  let readIndex' := if JS.lt readIndex' 0 then readIndex' + INR size else readIndex' in
  let correction := Rabs (smoothCorrection self) / 100 in
  let formantMix := Rmax 0.2 (0.5 - correction * 0.3) in
  let output := sample * formantMix + shiftedSample * (1 - formantMix) in
  (mk (threshold self) (retuneSpeed self) (sampleRate self)
      (pitchBufferSize self) (pitchBuffer self) (bufferIndex self)
      (currentPitch self) (targetPitch self) (smoothedPitch self)
      (pitchHistory self) (historySize self)
      (correctionAmount self) (smoothCorrection self)
      (windowSize self) (hopSize self)
      (Some (mkDelay line delayIndex' readIndex' output)),
   output).

Definition processSample (self : t) (sample : R) : t * R :=
  let buffer := AudioBuffer.store (bufferIndex self) sample (pitchBuffer self) in
  let index := Nat.modulo (bufferIndex self + 1) (pitchBufferSize self) in
  let '(target, smoothed, history) :=
    if (Nat.modulo index (hopSize self) =? 0)%nat then
      match detectPitch self buffer with
      | Some pitchInfo =>
          if JS.gt (confidence pitchInfo) 0.3 then
            let pushed := pitchHistory self ++ [deviation pitchInfo] in
            let history :=
              if (historySize self <? List.length pushed)%nat then tl pushed
              else pushed in
            let avgDeviation :=
              fold_left Rplus history 0 / INR (List.length history) in
            (deviation pitchInfo, avgDeviation, history)
          else (targetPitch self, smoothedPitch self, pitchHistory self)
      | None => (targetPitch self, smoothedPitch self, pitchHistory self)
      end
    else (targetPitch self, smoothedPitch self, pitchHistory self) in
  let absDeviation := Rabs smoothed in
  let smoothCorrection' :=
    if JS.gt absDeviation (threshold self) then
      let correctionStrength := Rmin 1 ((absDeviation - threshold self) / 50) in
      let correctionDirection := if JS.gt smoothed 0 then - 1 else 1 in
      let correctionNeeded := absDeviation * correctionStrength * correctionDirection in
      let smoothFactor := retuneSpeed self in
      smoothCorrection self * (1 - smoothFactor) + correctionNeeded * smoothFactor
    else smoothCorrection self * 0.95 in
  let self' :=
    mk (threshold self) (retuneSpeed self) (sampleRate self)
       (pitchBufferSize self) buffer index
       (currentPitch self) target smoothed history (historySize self)
       (correctionAmount self) smoothCorrection'
       (windowSize self) (hopSize self) (delay self) in
  if JS.gt (Rabs smoothCorrection') 1 then
    let ratio := JS.pow2 (- smoothCorrection' / 1200) in
    applyPitchShift self' sample ratio
  else (self', sample).

Definition processStereo (self : t) (l r : R) : t * Stereo :=
  let '(self1, correctedLeft) := processSample self l in
  let '(self2, correctedRight) := processSample self1 r in
  (self2, {| left := correctedLeft; right := correctedRight |}).

Definition reset (self : t) : t :=
  mk (threshold self) (retuneSpeed self) (sampleRate self)
     (pitchBufferSize self) (map (fun _ => 0) (pitchBuffer self)) 0
     0 0 0 [] (historySize self) 0 0
     (windowSize self) (hopSize self)
     (match delay self with
      | Some d => Some (mkDelay (map (fun _ => 0) (delayLine d)) 0 512 0)
      | None => None
      end).

End AdvancedPitchCorrector.

(** ** Processing chains ([presets.js])

    The sample loops of the chains come in three forms, written out in every
    [process] of the source: every channel of every frame through one
    per-sample chain, the first two channels of every frame through a stereo
    chain, and channel 0 alone.  A chain reads [data[i]], runs its stages in
    order on the value and writes [data[i]] back; where the source stores
    the value in [data[i]] between two stages the stored value is the one
    the next stage reads. *)

Definition forEachSample {S : Type} (step : S -> R -> S * R)
  (audioBuffer : AudioBuffer.t) (s : S) : S * AudioBuffer.t :=
  forRange (AudioBuffer.length audioBuffer)
    (fun i st =>
       forRange (AudioBuffer.numberOfChannels audioBuffer)
         (fun ch '(s, b) =>
            let '(s', out) := step s (AudioBuffer.get b ch i) in
            (s', AudioBuffer.set b ch i out))
         st)
    (s, audioBuffer).

Definition forEachFrame {S : Type} (step : S -> R -> R -> S * Stereo)
  (audioBuffer : AudioBuffer.t) (s : S) : S * AudioBuffer.t :=
  forRange (AudioBuffer.length audioBuffer)
    (fun i '(s, b) =>
       let '(s', out) := step s (AudioBuffer.get b 0 i) (AudioBuffer.get b 1 i) in
       (s', AudioBuffer.set (AudioBuffer.set b 0 i (left out)) 1 i (right out)))
    (s, audioBuffer).

Definition forEachMono {S : Type} (step : S -> R -> S * R)
  (audioBuffer : AudioBuffer.t) (s : S) : S * AudioBuffer.t :=
  forRange (AudioBuffer.length audioBuffer)
    (fun i '(s, b) =>
       let '(s', out) := step s (AudioBuffer.get b 0 i) in
       (s', AudioBuffer.set b 0 i out))
    (s, audioBuffer).

(** [channels >= 2 ? stereo loop : mono loop]. *)
Definition stereoOrMono {S : Type} (frame : S -> R -> R -> S * Stereo)
  (mono : S -> R -> S * R) (audioBuffer : AudioBuffer.t) (s : S) : AudioBuffer.t :=
  if (2 <=? AudioBuffer.numberOfChannels audioBuffer)%nat
  then snd (forEachFrame frame audioBuffer s)
  else snd (forEachMono mono audioBuffer s).

Record BasePreset := {
  sampleRate : R; intent : string; loudnessTarget : R
}.

Definition defaultSpectralBalance : SpectralBalance :=
  {| sb_low := 0; sb_mid := 0; sb_high := 0.33 |}.

(** Stage calls on a pair of channels, left before right, through one
    stage object. *)
Definition bothEQ (eq : DynamicEQ.t) (l r : R) : DynamicEQ.t * R * R :=
  let '(eq, l) := DynamicEQ.process eq l l in
  let '(eq, r) := DynamicEQ.process eq r r in
  (eq, l, r).

Definition bothCompressor (c : AdaptiveCompressor.t) (l r : R)
  : AdaptiveCompressor.t * R * R :=
  let '(c, l) := AdaptiveCompressor.process c l in
  let '(c, r) := AdaptiveCompressor.process c r in
  (c, l, r).

Definition bothLimiter (lim : Limiter.t) (l r : R) : Limiter.t * R * R :=
  let '(lim, l) := Limiter.process lim l in
  let '(lim, r) := Limiter.process lim r in
  (lim, l, r).

Module DeHarshPreset.

Record t := mk {
  base : BasePreset;
  dynamicEQ : DynamicEQ.t; compressor : AdaptiveCompressor.t;
  softClipper : SoftClipper.t; limiter : Limiter.t
}.

Definition new (sampleRate : R) : t :=
  mk {| sampleRate := sampleRate;
        intent := "Removes harsh frequencies while preserving clarity";
        loudnessTarget := - 9 |}
     (DynamicEQ.setSampleRate (DynamicEQ.new 3500 2.0 (- 12) 3.0 0.003 0.1 (- 6)) sampleRate)
     (AdaptiveCompressor.setSampleRate
        (AdaptiveCompressor.new (- 10) 3.0 0.003 0.1 2.0 1.0) sampleRate)
     (SoftClipper.new 1.2 0.8)
     (Limiter.setSampleRate (Limiter.new 0.95 0.05) sampleRate).

Definition step (self : t) (sample : R) : t * R :=
  let '(eq, sample) := DynamicEQ.process (dynamicEQ self) sample sample in
  let '(comp, sample) := AdaptiveCompressor.process (compressor self) sample in
  let sample := SoftClipper.process (softClipper self) sample in
  let '(lim, sample) := Limiter.process (limiter self) sample in
  (mk (base self) eq comp (softClipper self) lim, sample).

Definition process (self : t) (audioBuffer : AudioBuffer.t)
  (analysisData : AnalysisData) : AudioBuffer.t :=
  let harsh := JS.or_default (harshness analysisData) 0 in
  let adaptiveGain := Rmin (- 3) (- harsh * 8) in
  let self :=
    mk (base self) (DynamicEQ.set_gain (dynamicEQ self) adaptiveGain)
       (AdaptiveCompressor.adaptThreshold (compressor self) analysisData)
       (softClipper self) (limiter self) in
  snd (forEachSample step audioBuffer self).

End DeHarshPreset.

(** Mud Remover and Bass Tamer run the same stages and differ in their
    parameters and in the rule that sets the equaliser's gain. *)
Module BassEQChain.

Record t := mk {
  base : BasePreset;
  dynamicEQ : DynamicEQ.t; compressor : AdaptiveCompressor.t;
  monoBass : MonoBassProcessor.t; limiter : Limiter.t
}.

Definition frame (self : t) (l r : R) : t * Stereo :=
  let '(mb, bassProcessed) := MonoBassProcessor.process (monoBass self) l r in
  let '(eq, l, r) := bothEQ (dynamicEQ self) (left bassProcessed) (right bassProcessed) in
  let '(comp, l, r) := bothCompressor (compressor self) l r in
  let '(lim, l, r) := bothLimiter (limiter self) l r in
  (mk (base self) eq comp mb lim, {| left := l; right := r |}).

Definition mono (self : t) (sample : R) : t * R :=
  let '(eq, sample) := DynamicEQ.process (dynamicEQ self) sample sample in
  let '(comp, sample) := AdaptiveCompressor.process (compressor self) sample in
  let '(lim, sample) := Limiter.process (limiter self) sample in
  (mk (base self) eq comp (monoBass self) lim, sample).

Definition run (self : t) (adaptiveGain : R) (audioBuffer : AudioBuffer.t)
  (analysisData : AnalysisData) : AudioBuffer.t :=
  let self :=
    mk (base self) (DynamicEQ.set_gain (dynamicEQ self) adaptiveGain)
       (AdaptiveCompressor.adaptThreshold (compressor self) analysisData)
       (monoBass self) (limiter self) in
  stereoOrMono frame mono audioBuffer self.

End BassEQChain.

Module MudRemoverPreset.

Definition t := BassEQChain.t.

Definition new (sampleRate : R) : t :=
  BassEQChain.mk
    {| sampleRate := sampleRate;
       intent := "Cleans mud and boxiness from low-mids";
       loudnessTarget := - 9 |}
    (DynamicEQ.setSampleRate (DynamicEQ.new 250 1.5 (- 15) 4.0 0.005 0.15 (- 8)) sampleRate)
    (AdaptiveCompressor.setSampleRate
       (AdaptiveCompressor.new (- 12) 2.5 0.003 0.08 1.5 0.5) sampleRate)
    (MonoBassProcessor.new 120 sampleRate)
    (Limiter.setSampleRate (Limiter.new 0.95 0.05) sampleRate).

Definition process (self : t) (audioBuffer : AudioBuffer.t)
  (analysisData : AnalysisData) : AudioBuffer.t :=
  let m := JS.or_default (mud analysisData) 0 in
  let adaptiveGain := Rmin (- 4) (- m * 10) in
  BassEQChain.run self adaptiveGain audioBuffer analysisData.

End MudRemoverPreset.

Module BassTamerPreset.

Definition t := BassEQChain.t.

Definition new (sampleRate : R) : t :=
  BassEQChain.mk
    {| sampleRate := sampleRate;
       intent := "Controls and stabilizes bass frequencies";
       loudnessTarget := - 9 |}
    (DynamicEQ.setSampleRate (DynamicEQ.new 60 1.0 (- 10) 5.0 0.01 0.2 (- 10)) sampleRate)
    (AdaptiveCompressor.setSampleRate
       (AdaptiveCompressor.new (- 8) 4.0 0.01 0.15 2.0 1.5) sampleRate)
    (MonoBassProcessor.new 120 sampleRate)
    (Limiter.setSampleRate (Limiter.new 0.95 0.05) sampleRate).

Definition process (self : t) (audioBuffer : AudioBuffer.t)
  (analysisData : AnalysisData) : AudioBuffer.t :=
  let stability := JS.or_default (bassStability analysisData) 0 in
  let adaptiveGain := if JS.gt stability 0.3 then - 6 else - 3 in
  BassEQChain.run self adaptiveGain audioBuffer analysisData.

End BassTamerPreset.

(** Compressor, soft clipper, limiter on every sample: Vintage Warmth,
    Lo-Fi Character (with its treble cut) and Neo Soul. *)
Module SaturationChain.

Record t := mk {
  base : BasePreset;
  compressor : AdaptiveCompressor.t; softClipper : SoftClipper.t;
  limiter : Limiter.t
}.

(** [scale] is the factor the chain applies to the sample before the
    compressor ([1] when the source has no such line). *)
Definition step (scale : R) (self : t) (sample : R) : t * R :=
  let sample := sample * scale in
  let '(comp, sample) := AdaptiveCompressor.process (compressor self) sample in
  let sample := SoftClipper.process (softClipper self) sample in
  let '(lim, sample) := Limiter.process (limiter self) sample in
  (mk (base self) comp (softClipper self) lim, sample).

Definition adapt (self : t) (analysisData : AnalysisData) : t :=
  mk (base self) (AdaptiveCompressor.adaptThreshold (compressor self) analysisData)
     (softClipper self) (limiter self).

End SaturationChain.

Module VintageWarmthPreset.

Definition t := SaturationChain.t.

Definition new (sampleRate : R) : t :=
  SaturationChain.mk
    {| sampleRate := sampleRate;
       intent := "Adds analog warmth and vintage character";
       loudnessTarget := - 9 |}
    (AdaptiveCompressor.setSampleRate
       (AdaptiveCompressor.new (- 14) 2.0 0.01 0.2 3.0 2.0) sampleRate)
    (SoftClipper.new 1.5 0.7)
    (Limiter.setSampleRate (Limiter.new 0.95 0.08) sampleRate).

Definition process (self : t) (audioBuffer : AudioBuffer.t)
  (analysisData : AnalysisData) : AudioBuffer.t :=
  snd (forEachSample (SaturationChain.step 1) audioBuffer
         (SaturationChain.adapt self analysisData)).

End VintageWarmthPreset.

Module ModernBrightPreset.

Record t := mk {
  base : BasePreset; compressor : AdaptiveCompressor.t; limiter : Limiter.t
}.

Definition new (sampleRate : R) : t :=
  mk {| sampleRate := sampleRate;
        intent := "Enhances high frequencies for modern clarity";
        loudnessTarget := - 9 |}
     (AdaptiveCompressor.setSampleRate
        (AdaptiveCompressor.new (- 12) 3.0 0.002 0.05 1.5 1.0) sampleRate)
     (Limiter.setSampleRate (Limiter.new 0.95 0.05) sampleRate).

Definition step (analysisData : AnalysisData) (self : t) (sample : R) : t * R :=
  let balance :=
    match spectralBalance analysisData with
    | Some b => b
    | None => defaultSpectralBalance
    end in
  let sample := if JS.lt (sb_high balance) 0.3 then sample * 1.15 else sample in
  let '(comp, sample) := AdaptiveCompressor.process (compressor self) sample in
  let '(lim, sample) := Limiter.process (limiter self) sample in
  (mk (base self) comp lim, sample).

Definition process (self : t) (audioBuffer : AudioBuffer.t)
  (analysisData : AnalysisData) : AudioBuffer.t :=
  let self :=
    mk (base self) (AdaptiveCompressor.adaptThreshold (compressor self) analysisData)
       (limiter self) in
  snd (forEachSample (step analysisData) audioBuffer self).

End ModernBrightPreset.

Module LoFiCharacterPreset.

Definition t := SaturationChain.t.

Definition new (sampleRate : R) : t :=
  SaturationChain.mk
    {| sampleRate := sampleRate;
       intent := "Adds lo-fi character and vintage vibe";
       loudnessTarget := - 9 |}
    (AdaptiveCompressor.setSampleRate
       (AdaptiveCompressor.new (- 16) 1.8 0.02 0.3 4.0 1.5) sampleRate)
    (SoftClipper.new 2.0 0.6)
    (Limiter.setSampleRate (Limiter.new 0.92 0.1) sampleRate).

Definition process (self : t) (audioBuffer : AudioBuffer.t)
  (analysisData : AnalysisData) : AudioBuffer.t :=
  let balance :=
    match spectralBalance analysisData with
    | Some b => b
    | None => defaultSpectralBalance
    end in
  let scale := if JS.gt (sb_high balance) 0.35 then 0.92 else 1 in
  snd (forEachSample (SaturationChain.step scale) audioBuffer
         (SaturationChain.adapt self analysisData)).

End LoFiCharacterPreset.

Module NeoSoulPreset.

Definition t := SaturationChain.t.

Definition new (sampleRate : R) : t :=
  SaturationChain.mk
    {| sampleRate := sampleRate;
       intent := "Smooth, soulful character for neo-soul tracks";
       loudnessTarget := - 9 |}
    (AdaptiveCompressor.setSampleRate
       (AdaptiveCompressor.new (- 13) 2.2 0.005 0.12 2.5 1.2) sampleRate)
    (SoftClipper.new 1.3 0.75)
    (Limiter.setSampleRate (Limiter.new 0.95 0.06) sampleRate).

Definition process (self : t) (audioBuffer : AudioBuffer.t)
  (analysisData : AnalysisData) : AudioBuffer.t :=
  snd (forEachSample (SaturationChain.step 1) audioBuffer
         (SaturationChain.adapt self analysisData)).

End NeoSoulPreset.

(** Mono bass, compressor, soft clipper, limiter: Festival Banger and
    Maximum Impact. *)
Module LoudChain.

Record t := mk {
  base : BasePreset;
  compressor : AdaptiveCompressor.t; softClipper : SoftClipper.t;
  limiter : Limiter.t; monoBass : MonoBassProcessor.t
}.

Definition frame (self : t) (l r : R) : t * Stereo :=
  let '(mb, bassProcessed) := MonoBassProcessor.process (monoBass self) l r in
  let '(comp, l, r) :=
    bothCompressor (compressor self) (left bassProcessed) (right bassProcessed) in
  let l := SoftClipper.process (softClipper self) l in
  let r := SoftClipper.process (softClipper self) r in
  let '(lim, l, r) := bothLimiter (limiter self) l r in
  (mk (base self) comp (softClipper self) lim mb, {| left := l; right := r |}).

Definition mono (self : t) (sample : R) : t * R :=
  let '(comp, sample) := AdaptiveCompressor.process (compressor self) sample in
  let sample := SoftClipper.process (softClipper self) sample in
  let '(lim, sample) := Limiter.process (limiter self) sample in
  (mk (base self) comp (softClipper self) lim (monoBass self), sample).

Definition process (self : t) (audioBuffer : AudioBuffer.t)
  (analysisData : AnalysisData) : AudioBuffer.t :=
  let self :=
    mk (base self) (AdaptiveCompressor.adaptThreshold (compressor self) analysisData)
       (softClipper self) (limiter self) (monoBass self) in
  stereoOrMono frame mono audioBuffer self.

End LoudChain.

Module FestivalBangerPreset.

Definition t := LoudChain.t.

Definition new (sampleRate : R) : t :=
  LoudChain.mk
    {| sampleRate := sampleRate;
       intent := "Maximum loudness and impact for festivals";
       loudnessTarget := - 8.5 |}
    (AdaptiveCompressor.setSampleRate
       (AdaptiveCompressor.new (- 6) 4.0 0.001 0.03 1.0 3.0) sampleRate)
    (SoftClipper.new 1.8 0.85)
    (Limiter.setSampleRate (Limiter.new 0.98 0.01) sampleRate)
    (MonoBassProcessor.new 120 sampleRate).

Definition process := LoudChain.process.

End FestivalBangerPreset.

(** Mid/side width, compressor, limiter: Focus Center and Immersive. *)
Module WidthChain.

Record t := mk {
  base : BasePreset;
  compressor : AdaptiveCompressor.t; midSide : MidSideProcessor.t;
  limiter : Limiter.t
}.

Definition frame (self : t) (l r : R) : t * Stereo :=
  let msProcessed := MidSideProcessor.process (midSide self) l r in
  let '(comp, l, r) :=
    bothCompressor (compressor self) (left msProcessed) (right msProcessed) in
  let '(lim, l, r) := bothLimiter (limiter self) l r in
  (mk (base self) comp (midSide self) lim, {| left := l; right := r |}).

Definition mono (self : t) (sample : R) : t * R :=
  let '(comp, sample) := AdaptiveCompressor.process (compressor self) sample in
  let '(lim, sample) := Limiter.process (limiter self) sample in
  (mk (base self) comp (midSide self) lim, sample).

Definition process (self : t) (audioBuffer : AudioBuffer.t)
  (analysisData : AnalysisData) : AudioBuffer.t :=
  let self :=
    mk (base self) (AdaptiveCompressor.adaptThreshold (compressor self) analysisData)
       (midSide self) (limiter self) in
  stereoOrMono frame mono audioBuffer self.

End WidthChain.

Module FocusCenterPreset.

Definition t := WidthChain.t.

Definition new (sampleRate : R) : t :=
  WidthChain.mk
    {| sampleRate := sampleRate;
       intent := "Focuses energy in center, reduces width";
       loudnessTarget := - 9 |}
    (AdaptiveCompressor.setSampleRate
       (AdaptiveCompressor.new (- 11) 2.8 0.003 0.08 2.0 1.0) sampleRate)
    (MidSideProcessor.new 0.7)
    (Limiter.setSampleRate (Limiter.new 0.95 0.05) sampleRate).

Definition process := WidthChain.process.

End FocusCenterPreset.

Module ImmersivePreset.

Definition t := WidthChain.t.

Definition new (sampleRate : R) : t :=
  WidthChain.mk
    {| sampleRate := sampleRate;
       intent := "Creates immersive, wide soundstage";
       loudnessTarget := - 9 |}
    (AdaptiveCompressor.setSampleRate
       (AdaptiveCompressor.new (- 12) 2.5 0.004 0.1 2.0 1.2) sampleRate)
    (MidSideProcessor.new 1.3)
    (Limiter.setSampleRate (Limiter.new 0.95 0.05) sampleRate).

Definition process := WidthChain.process.

End ImmersivePreset.

Module WideSpaciousPreset.

Record t := mk {
  base : BasePreset;
  compressor : AdaptiveCompressor.t; midSide : MidSideProcessor.t;
  monoBass : MonoBassProcessor.t; limiter : Limiter.t
}.

Definition new (sampleRate : R) : t :=
  mk {| sampleRate := sampleRate;
        intent := "Maximum stereo width and spaciousness";
        loudnessTarget := - 9 |}
     (AdaptiveCompressor.setSampleRate
        (AdaptiveCompressor.new (- 11) 2.6 0.003 0.09 2.0 1.0) sampleRate)
     (MidSideProcessor.new 1.5)
     (MonoBassProcessor.new 120 sampleRate)
     (Limiter.setSampleRate (Limiter.new 0.95 0.05) sampleRate).

Definition frame (self : t) (l r : R) : t * Stereo :=
  let '(mb, bassProcessed) := MonoBassProcessor.process (monoBass self) l r in
  let msProcessed :=
    MidSideProcessor.process (midSide self) (left bassProcessed) (right bassProcessed) in
  let '(comp, l, r) :=
    bothCompressor (compressor self) (left msProcessed) (right msProcessed) in
  let '(lim, l, r) := bothLimiter (limiter self) l r in
  (mk (base self) comp (midSide self) mb lim, {| left := l; right := r |}).

Definition mono (self : t) (sample : R) : t * R :=
  let '(comp, sample) := AdaptiveCompressor.process (compressor self) sample in
  let '(lim, sample) := Limiter.process (limiter self) sample in
  (mk (base self) comp (midSide self) (monoBass self) lim, sample).

Definition process (self : t) (audioBuffer : AudioBuffer.t)
  (analysisData : AnalysisData) : AudioBuffer.t :=
  let self :=
    mk (base self) (AdaptiveCompressor.adaptThreshold (compressor self) analysisData)
       (midSide self) (monoBass self) (limiter self) in
  stereoOrMono frame mono audioBuffer self.

End WideSpaciousPreset.

(** Dynamic equaliser, compressor, limiter on every sample: Vocal Forward
    and Smooth Mids. *)
Module EQChain.

Record t := mk {
  base : BasePreset;
  dynamicEQ : DynamicEQ.t; compressor : AdaptiveCompressor.t; limiter : Limiter.t
}.

Definition step (self : t) (sample : R) : t * R :=
  let '(eq, sample) := DynamicEQ.process (dynamicEQ self) sample sample in
  let '(comp, sample) := AdaptiveCompressor.process (compressor self) sample in
  let '(lim, sample) := Limiter.process (limiter self) sample in
  (mk (base self) eq comp lim, sample).

Definition run (self : t) (adaptiveGain : R) (audioBuffer : AudioBuffer.t)
  (analysisData : AnalysisData) : AudioBuffer.t :=
  let self :=
    mk (base self) (DynamicEQ.set_gain (dynamicEQ self) adaptiveGain)
       (AdaptiveCompressor.adaptThreshold (compressor self) analysisData)
       (limiter self) in
  snd (forEachSample step audioBuffer self).

End EQChain.

Module VocalForwardPreset.

Definition t := EQChain.t.

Definition new (sampleRate : R) : t :=
  EQChain.mk
    {| sampleRate := sampleRate;
       intent := "Brings vocals forward in the mix";
       loudnessTarget := - 9 |}
    (DynamicEQ.setSampleRate (DynamicEQ.new 2500 1.8 (- 14) 2.5 0.002 0.06 4) sampleRate)
    (AdaptiveCompressor.setSampleRate
       (AdaptiveCompressor.new (- 10) 3.0 0.002 0.05 1.5 1.5) sampleRate)
    (Limiter.setSampleRate (Limiter.new 0.95 0.05) sampleRate).

Definition process (self : t) (audioBuffer : AudioBuffer.t)
  (analysisData : AnalysisData) : AudioBuffer.t :=
  let dominance := JS.or_default (vocalDominance analysisData) 0 in
  let adaptiveGain := if JS.lt dominance 0.25 then 4 else 2 in
  EQChain.run self adaptiveGain audioBuffer analysisData.

End VocalForwardPreset.

Module SmoothMidsPreset.

Definition t := EQChain.t.

Definition new (sampleRate : R) : t :=
  EQChain.mk
    {| sampleRate := sampleRate;
       intent := "Smooths out midrange frequencies";
       loudnessTarget := - 9 |}
    (DynamicEQ.setSampleRate (DynamicEQ.new 2000 2.0 (- 12) 3.5 0.004 0.12 (- 5)) sampleRate)
    (AdaptiveCompressor.setSampleRate
       (AdaptiveCompressor.new (- 13) 2.3 0.005 0.1 2.5 1.0) sampleRate)
    (Limiter.setSampleRate (Limiter.new 0.95 0.06) sampleRate).

Definition process (self : t) (audioBuffer : AudioBuffer.t)
  (analysisData : AnalysisData) : AudioBuffer.t :=
  EQChain.run self (- 5) audioBuffer analysisData.

End SmoothMidsPreset.

Module DynamicClearPreset.

Record t := mk {
  base : BasePreset; compressor : AdaptiveCompressor.t; limiter : Limiter.t
}.

Definition new (sampleRate : R) : t :=
  mk {| sampleRate := sampleRate;
        intent := "Preserves dynamics while adding clarity";
        loudnessTarget := - 9 |}
     (AdaptiveCompressor.setSampleRate
        (AdaptiveCompressor.new (- 16) 1.5 0.01 0.15 4.0 0.5) sampleRate)
     (Limiter.setSampleRate (Limiter.new 0.95 0.08) sampleRate).

Definition step (self : t) (sample : R) : t * R :=
  let '(comp, sample) := AdaptiveCompressor.process (compressor self) sample in
  let '(lim, sample) := Limiter.process (limiter self) sample in
  (mk (base self) comp lim, sample).

Definition process (self : t) (audioBuffer : AudioBuffer.t)
  (analysisData : AnalysisData) : AudioBuffer.t :=
  let self :=
    mk (base self) (AdaptiveCompressor.adaptThreshold (compressor self) analysisData)
       (limiter self) in
  snd (forEachSample step audioBuffer self).

End DynamicClearPreset.

Module MaximumImpactPreset.

Definition t := LoudChain.t.

Definition new (sampleRate : R) : t :=
  LoudChain.mk
    {| sampleRate := sampleRate;
       intent := "Maximum loudness and punch";
       loudnessTarget := - 8.5 |}
    (AdaptiveCompressor.setSampleRate
       (AdaptiveCompressor.new (- 5) 4.5 0.001 0.02 0.8 4.0) sampleRate)
    (SoftClipper.new 2.0 0.88)
    (Limiter.setSampleRate (Limiter.new 0.99 0.005) sampleRate)
    (MonoBassProcessor.new 120 sampleRate).

Definition process := LoudChain.process.

End MaximumImpactPreset.

Module BigCappoPreset.

Record t := mk {
  base : BasePreset;
  pitchCorrector : AdvancedPitchCorrector.t;
  dynamicEQ : DynamicEQ.t; compressor : AdaptiveCompressor.t;
  softClipper : SoftClipper.t; limiter : Limiter.t
}.

Definition new (sampleRate : R) : t :=
  mk {| sampleRate := sampleRate;
        intent := "Emotional trap-soul vocals, human and imperfect";
        loudnessTarget := - 9 |}
     (AdvancedPitchCorrector.new 25 0.2 sampleRate)
     (DynamicEQ.setSampleRate (DynamicEQ.new 3000 2.2 (- 13) 2.8 0.004 0.1 2) sampleRate)
     (AdaptiveCompressor.setSampleRate
        (AdaptiveCompressor.new (- 12) 2.4 0.005 0.12 2.5 1.8) sampleRate)
     (SoftClipper.new 1.4 0.75)
     (Limiter.setSampleRate (Limiter.new 0.95 0.06) sampleRate).

(** [l *= 1.08] and, for a harsh mix, [l *= 0.97]. *)
Definition character (analysisData : AnalysisData) (x : R) : R :=
  let x := x * 1.08 in
  let harsh := JS.or_default (harshness analysisData) 0 in
  if JS.gt harsh 0.25 then x * 0.97 else x.

Definition frame (analysisData : AnalysisData) (self : t) (l r : R) : t * Stereo :=
  let '(pc, corrected) :=
    AdvancedPitchCorrector.processStereo (pitchCorrector self) l r in
  let '(eq, l, r) := bothEQ (dynamicEQ self) (left corrected) (right corrected) in
  let l := character analysisData l in
  let r := character analysisData r in
  let '(comp, l, r) := bothCompressor (compressor self) l r in
  let l := SoftClipper.process (softClipper self) l in
  let r := SoftClipper.process (softClipper self) r in
  let '(lim, l, r) := bothLimiter (limiter self) l r in
  (mk (base self) pc eq comp (softClipper self) lim, {| left := l; right := r |}).

Definition mono (analysisData : AnalysisData) (self : t) (sample : R) : t * R :=
  let '(pc, sample) :=
    AdvancedPitchCorrector.processSample (pitchCorrector self) sample in
  let '(eq, sample) := DynamicEQ.process (dynamicEQ self) sample sample in
  let sample := character analysisData sample in
  let '(comp, sample) := AdaptiveCompressor.process (compressor self) sample in
  let sample := SoftClipper.process (softClipper self) sample in
  let '(lim, sample) := Limiter.process (limiter self) sample in
  (mk (base self) pc eq comp (softClipper self) lim, sample).

Definition process (self : t) (audioBuffer : AudioBuffer.t)
  (analysisData : AnalysisData) : AudioBuffer.t :=
  let self :=
    mk (base self) (AdvancedPitchCorrector.reset (pitchCorrector self))
       (dynamicEQ self)
       (AdaptiveCompressor.adaptThreshold (compressor self) analysisData)
       (softClipper self) (limiter self) in
  stereoOrMono (frame analysisData) (mono analysisData) audioBuffer self.

End BigCappoPreset.

(** ** The heap of audio buffers

    Buffers are objects: the engine holds references to them and the
    stages write through the references.  A reference is an index in the
    heap; [createBuffer] allocates at the end. *)

Module Heap.

Definition t := list AudioBuffer.t.
Definition ref := nat.

Definition deref (h : t) (r : ref) : AudioBuffer.t :=
  nth r h (AudioBuffer.mk 0 0 0 []).

Fixpoint assign (h : t) (r : ref) (b : AudioBuffer.t) : t :=
  match h, r with
  | [], _ => []
  | _ :: rest, O => b :: rest
  | x :: rest, S k => x :: assign rest k b
  end.

Definition alloc (h : t) (b : AudioBuffer.t) : t * ref :=
  (h ++ [b], List.length h).

End Heap.

(** ** Preset engine ([presets.js]) *)

Module PresetEngine.

(** The preset objects, one constructor per class. *)
Inductive preset :=
| DeHarsh (p : DeHarshPreset.t)
| MudRemover (p : MudRemoverPreset.t)
| BassTamer (p : BassTamerPreset.t)
| VintageWarmth (p : VintageWarmthPreset.t)
| ModernBright (p : ModernBrightPreset.t)
| LoFiCharacter (p : LoFiCharacterPreset.t)
| NeoSoul (p : NeoSoulPreset.t)
| FestivalBanger (p : FestivalBangerPreset.t)
| FocusCenter (p : FocusCenterPreset.t)
| Immersive (p : ImmersivePreset.t)
| WideSpacious (p : WideSpaciousPreset.t)
| VocalForward (p : VocalForwardPreset.t)
| SmoothMids (p : SmoothMidsPreset.t)
| DynamicClear (p : DynamicClearPreset.t)
| MaximumImpact (p : MaximumImpactPreset.t)
| BigCappo (p : BigCappoPreset.t).

(** [preset.process(audioBuffer, analysisData)] on a preset object, with
    the analysis record present. *)
Definition run (p : preset) (audioBuffer : AudioBuffer.t) (analysisData : AnalysisData)
  : AudioBuffer.t :=
  match p with
  | DeHarsh p => DeHarshPreset.process p audioBuffer analysisData
  | MudRemover p => MudRemoverPreset.process p audioBuffer analysisData
  | BassTamer p => BassTamerPreset.process p audioBuffer analysisData
  | VintageWarmth p => VintageWarmthPreset.process p audioBuffer analysisData
  | ModernBright p => ModernBrightPreset.process p audioBuffer analysisData
  | LoFiCharacter p => LoFiCharacterPreset.process p audioBuffer analysisData
  | NeoSoul p => NeoSoulPreset.process p audioBuffer analysisData
  | FestivalBanger p => FestivalBangerPreset.process p audioBuffer analysisData
  | FocusCenter p => FocusCenterPreset.process p audioBuffer analysisData
  | Immersive p => ImmersivePreset.process p audioBuffer analysisData
  | WideSpacious p => WideSpaciousPreset.process p audioBuffer analysisData
  | VocalForward p => VocalForwardPreset.process p audioBuffer analysisData
  | SmoothMids p => SmoothMidsPreset.process p audioBuffer analysisData
  | DynamicClear p => DynamicClearPreset.process p audioBuffer analysisData
  | MaximumImpact p => MaximumImpactPreset.process p audioBuffer analysisData
  | BigCappo p => BigCappoPreset.process p audioBuffer analysisData
  end.

(** Every [process] of the catalog reads a property of [analysisData]
    before it touches the buffer; with [analysisData === null] that read
    throws. *)
Definition presetProcess (p : preset) (audioBuffer : AudioBuffer.t)
  (analysisData : option AnalysisData) : result AudioBuffer.t :=
  match analysisData with
  | Some a => Ok (run p audioBuffer a)
  | None => Err (TypeError "Cannot read properties of null")
  end.

Record t := mk {
  sampleRate : R;
  analysisData : option AnalysisData
}.

Definition new (sampleRate : R) : t := mk sampleRate None.

Definition setAnalysis (self : t) (a : AnalysisData) : t :=
  mk (sampleRate self) (Some a).

(** The object literal of [getPreset]: its own properties, in order. *)
Definition presets (sampleRate : R) : list (string * preset) :=
  [ ("De-Harsh", DeHarsh (DeHarshPreset.new sampleRate));
    ("Mud Remover", MudRemover (MudRemoverPreset.new sampleRate));
    ("Bass Tamer", BassTamer (BassTamerPreset.new sampleRate));
    ("Vintage Warmth", VintageWarmth (VintageWarmthPreset.new sampleRate));
    ("Modern Bright", ModernBright (ModernBrightPreset.new sampleRate));
    ("Lo-Fi Character", LoFiCharacter (LoFiCharacterPreset.new sampleRate));
    ("Neo Soul", NeoSoul (NeoSoulPreset.new sampleRate));
    ("Festival Banger", FestivalBanger (FestivalBangerPreset.new sampleRate));
    ("Focus Center", FocusCenter (FocusCenterPreset.new sampleRate));
    ("Immersive", Immersive (ImmersivePreset.new sampleRate));
    ("Wide & Spacious", WideSpacious (WideSpaciousPreset.new sampleRate));
    ("Vocal Forward", VocalForward (VocalForwardPreset.new sampleRate));
    ("Smooth Mids", SmoothMids (SmoothMidsPreset.new sampleRate));
    ("Dynamic & Clear", DynamicClear (DynamicClearPreset.new sampleRate));
    ("Maximum Impact", MaximumImpact (MaximumImpactPreset.new sampleRate));
    ("BigCappo", BigCappo (BigCappoPreset.new sampleRate)) ]%string.

(** The property names every object literal inherits from
    [Object.prototype]. *)
Definition objectPrototype : list string :=
  [ "constructor"; "__defineGetter__"; "__defineSetter__"; "hasOwnProperty";
    "__lookupGetter__"; "__lookupSetter__"; "isPrototypeOf";
    "propertyIsEnumerable"; "toString"; "valueOf"; "__proto__";
    "toLocaleString" ]%string.

(** What [presets[presetName]] evaluates to: an own property, a member
    inherited from [Object.prototype] (a function or, for [__proto__], the
    prototype object: truthy, and without a [process] method), or
    [undefined]. *)
Inductive property :=
| Undefined
| Own (p : preset)
| Inherited (name : string).

Fixpoint ownProperty (object : list (string * preset)) (key : string) : option preset :=
  match object with
  | [] => None
  | (name, p) :: rest =>
      if String.eqb name key then Some p else ownProperty rest key
  end.

Definition getProperty (object : list (string * preset)) (key : string) : property :=
  match ownProperty object key with
  | Some p => Own p
  | None =>
      if existsb (String.eqb key) objectPrototype then Inherited key else Undefined
  end.

Definition getPreset (self : t) (presetName : string) : property :=
  getProperty (presets (sampleRate self)) presetName.

Definition getPresetNames : list string :=
  [ "De-Harsh"; "Mud Remover"; "Bass Tamer"; "Vintage Warmth"; "Modern Bright";
    "Lo-Fi Character"; "Neo Soul"; "Festival Banger"; "Focus Center";
    "Immersive"; "Wide & Spacious"; "Vocal Forward"; "Smooth Mids";
    "Dynamic & Clear"; "Maximum Impact"; "BigCappo" ]%string.

Definition quote : string := String (ascii_of_nat 34) EmptyString.

(** The message of the error thrown for a name [getPreset] does not
    know. *)
Definition notFound (presetName : string) : error :=
  NotFound ("Preset " ++ quote ++ presetName ++ quote ++ " not found")%string.

(** The copy loop: [originalData.forEach((sample, i) => processedData[i] =
    sample)] for every channel, reading through one reference and writing
    through the other. *)
Definition copyChannels (h : Heap.t) (audioBuffer processedBuffer : Heap.ref) : Heap.t :=
  forRange (AudioBuffer.numberOfChannels (Heap.deref h audioBuffer))
    (fun channel h =>
       forRange (List.length (AudioBuffer.getChannelData (Heap.deref h audioBuffer) channel))
         (fun i h =>
            let sample := AudioBuffer.get (Heap.deref h audioBuffer) channel i in
            Heap.assign h processedBuffer
              (AudioBuffer.set (Heap.deref h processedBuffer) channel i sample))
         h)
    h.

(** [process(audioBuffer, presetName)]: the heap after the call and the
    reference returned, or the error thrown. *)
Definition process (self : t) (h : Heap.t) (audioBuffer : Heap.ref) (presetName : string)
  : Heap.t * result Heap.ref :=
  match getPreset self presetName with
  | Undefined => (h, Err (notFound presetName))
  | preset =>
      let original := Heap.deref h audioBuffer in
      match AudioBuffer.createBuffer (AudioBuffer.numberOfChannels original)
              (AudioBuffer.length original) (AudioBuffer.sampleRate original) with
      | Err e => (h, Err e)
      | Ok fresh =>
          let '(h, processedBuffer) := Heap.alloc h fresh in
          let h := copyChannels h audioBuffer processedBuffer in
          match preset with
          | Own p =>
              match presetProcess p (Heap.deref h processedBuffer) (analysisData self) with
              | Ok b => (Heap.assign h processedBuffer b, Ok processedBuffer)
              | Err e => (h, Err e)
              end
          | _ => (h, Err (TypeError "preset.process is not a function"))
          end
      end
  end.

End PresetEngine.

(** ** Stages run over a stream

    A stage object fed a sequence of samples, its fields carried from one
    call to the next. *)

Fixpoint limiterRun (self : Limiter.t) (samples : list R) : Limiter.t * list R :=
  match samples with
  | [] => (self, [])
  | sample :: rest =>
      let '(self1, out) := Limiter.process self sample in
      let '(self2, outs) := limiterRun self1 rest in
      (self2, out :: outs)
  end.

(** ** Professional DSP modules (second part of [dspModules.js]) *)

Module TruePeakLimiter.

Record t := mk {
  ceiling : R; release : R; sampleRate : R;
  gainReduction : R; peakDetector : R; oversampleFactor : nat
}.

Definition new (ceiling release sampleRate : R) : t :=
  mk ceiling release sampleRate 1 0 4.

(** The "oversampled" peak: the sample against three scaled copies of
    itself. *)
Definition maxPeak (self : t) (sample : R) : R :=
  fold_left
    (fun maxPeak i =>
       let interp :=
         sample * (1 + sin (INR i * PI / INR (oversampleFactor self)) * 0.1) in
       Rmax maxPeak (Rabs interp))
    (seq 1 (oversampleFactor self - 1)) (Rabs sample).

Definition process (self : t) (sample : R) : t * R :=
  let peakDB := 20 * JS.log10 (maxPeak self sample + JS.tiny) in
  let gr :=
    if JS.gt peakDB (ceiling self) then
      let targetGain := JS.pow10 ((ceiling self - peakDB) / 20) in
      Rmin (gainReduction self) targetGain
    else
      let releaseCoeff := exp (- 1 / (release self * sampleRate self)) in
      Rmin 1 (1 + (gainReduction self - 1) * releaseCoeff) in
  (mk (ceiling self) (release self) (sampleRate self) gr (peakDetector self)
      (oversampleFactor self),
   sample * gr).

End TruePeakLimiter.

(** A biquad section with its two input and two output delays, the
    object the filter factories of the professional modules return. *)
Record Biquad := mkBiquad {
  b0 : R; b1 : R; b2 : R; a1 : R; a2 : R;
  x1 : R; x2 : R; y1 : R; y2 : R
}.

(** [processFilter(filter, sample)], the same in every class that has
    it. *)
Definition processFilter (filter : Biquad) (sample : R) : Biquad * R :=
  let output :=
    b0 filter * sample + b1 filter * x1 filter + b2 filter * x2 filter
    - a1 filter * y1 filter - a2 filter * y2 filter in
  (mkBiquad (b0 filter) (b1 filter) (b2 filter) (a1 filter) (a2 filter)
     sample (x1 filter) output (y1 filter),
   output).

Module AdvancedStereoEnhancer.

Record t := mk {
  width : R; bassMonoFreq : R; sampleRate : R; highpass : Biquad
}.

Definition createHighpassFilter (sampleRate freq : R) : Biquad :=
  let nyquist := sampleRate / 2 in
  let normalizedFreq := freq / nyquist in
  let k := tan (PI * normalizedFreq) in
  let k2 := k * k in
  let sqrt2k := sqrt 2 * k in
  let a0 := 1 + sqrt2k + k2 in
  mkBiquad (1 / a0) (- 2 / a0) (1 / a0) (2 * (k2 - 1) / a0)
    ((1 - sqrt2k + k2) / a0) 0 0 0 0.

Definition new (width bassMonoFreq sampleRate : R) : t :=
  mk width bassMonoFreq sampleRate (createHighpassFilter sampleRate bassMonoFreq).

Definition process (self : t) (l r : R) : t * Stereo :=
  let mid := (l + r) * 0.5 in
  let side := (l - r) * 0.5 in
  let '(hp, sideHigh) := processFilter (highpass self) side in
  let sideLow := side - sideHigh in
  let processedSide := sideHigh * width self + sideLow in
  (mk (width self) (bassMonoFreq self) (sampleRate self) hp,
   {| left := mid + processedSide; right := mid - processedSide |}).

End AdvancedStereoEnhancer.

Module IntelligentBassProcessor.

Record t := mk {
  cutoff : R; sampleRate : R; lowpass : Biquad; harmonicAmount : R
}.

Definition createLowpassFilter (sampleRate freq : R) : Biquad :=
  let nyquist := sampleRate / 2 in
  let normalizedFreq := freq / nyquist in
  let k := tan (PI * normalizedFreq) in
  let k2 := k * k in
  let sqrt2k := sqrt 2 * k in
  let a0 := 1 + sqrt2k + k2 in
  mkBiquad (k2 / a0) (2 * k2 / a0) (k2 / a0) (2 * (k2 - 1) / a0)
    ((1 - sqrt2k + k2) / a0) 0 0 0 0.

Definition new (cutoff sampleRate : R) : t :=
  mk cutoff sampleRate (createLowpassFilter sampleRate cutoff) 0.15.

(** Both channels go through the one [lowpass] object, left first. *)
Definition process (self : t) (l r : R) : t * Stereo :=
  let '(lp1, bassL) := processFilter (lowpass self) l in
  let '(lp2, bassR) := processFilter lp1 r in
  let bassMono := (bassL + bassR) * 0.5 in
  let harmonics := tanh (bassMono * 1.5) * harmonicAmount self in
  (mk (cutoff self) (sampleRate self) lp2 (harmonicAmount self),
   {| left := l - bassL + bassMono + harmonics;
      right := r - bassR + bassMono + harmonics |}).

End IntelligentBassProcessor.

(** A per-sample stage and a per-frame stage fed a sequence, the state
    carried from one call to the next. *)
Fixpoint runStage {S : Type} (step : S -> R -> S * R) (s : S) (samples : list R)
  : S * list R :=
  match samples with
  | [] => (s, [])
  | sample :: rest =>
      let '(s1, out) := step s sample in
      let '(s2, outs) := runStage step s1 rest in
      (s2, out :: outs)
  end.

Fixpoint runFrames {S : Type} (step : S -> R -> R -> S * Stereo) (s : S)
  (frames : list (R * R)) : S * list Stereo :=
  match frames with
  | [] => (s, [])
  | (l, r) :: rest =>
      let '(s1, out) := step s l r in
      let '(s2, outs) := runFrames step s1 rest in
      (s2, out :: outs)
  end.

(** The dither processor as a per-sample stage: the processor and the
    count of [Math.random()] calls are the state. *)
Definition ditherStep (random : nat -> R) (st : ProfessionalDither.t * nat) (sample : R)
  : (ProfessionalDither.t * nat) * R :=
  let '(d', n', quantized) :=
    ProfessionalDither.applyDither (fst st) random (snd st) sample in
  ((d', n'), quantized).

(** ** The engine's A/B and catalog functions ([audioEngine.js])

    The methods of [TrapMasterProEngine] that work on the heap of buffers
    and on the preset engine. *)

(** [matchLoudness(buffer, targetLUFS, sourceLUFS)]: a fresh buffer holding
    the samples of [buffer] times the gain. *)
Definition matchLoudness (h : Heap.t) (buffer : Heap.ref) (targetLUFS sourceLUFS : R)
  : Heap.t * result Heap.ref :=
  let lufsDifference := targetLUFS - sourceLUFS in
  let gain := JS.pow10 (lufsDifference / 20) in
  let original := Heap.deref h buffer in
  match AudioBuffer.createBuffer (AudioBuffer.numberOfChannels original)
          (AudioBuffer.length original) (AudioBuffer.sampleRate original) with
  | Err e => (h, Err e)
  | Ok fresh =>
      let '(h, matchedBuffer) := Heap.alloc h fresh in
      let h :=
        forRange (AudioBuffer.numberOfChannels (Heap.deref h buffer))
          (fun ch h =>
             forRange (List.length (AudioBuffer.getChannelData (Heap.deref h buffer) ch))
               (fun i h =>
                  Heap.assign h matchedBuffer
                    (AudioBuffer.set (Heap.deref h matchedBuffer) ch i
                       (AudioBuffer.get (Heap.deref h buffer) ch i * gain)))
               h)
          h in
      (h, Ok matchedBuffer)
  end.

(** The [BasePreset] part of a preset object and its [getIntent()]. *)
Definition presetBase (p : PresetEngine.preset) : BasePreset :=
  match p with
  | PresetEngine.DeHarsh p => DeHarshPreset.base p
  | PresetEngine.MudRemover p => BassEQChain.base p
  | PresetEngine.BassTamer p => BassEQChain.base p
  | PresetEngine.VintageWarmth p => SaturationChain.base p
  | PresetEngine.ModernBright p => ModernBrightPreset.base p
  | PresetEngine.LoFiCharacter p => SaturationChain.base p
  | PresetEngine.NeoSoul p => SaturationChain.base p
  | PresetEngine.FestivalBanger p => LoudChain.base p
  | PresetEngine.FocusCenter p => WidthChain.base p
  | PresetEngine.Immersive p => WidthChain.base p
  | PresetEngine.WideSpacious p => WideSpaciousPreset.base p
  | PresetEngine.VocalForward p => EQChain.base p
  | PresetEngine.SmoothMids p => EQChain.base p
  | PresetEngine.DynamicClear p => DynamicClearPreset.base p
  | PresetEngine.MaximumImpact p => LoudChain.base p
  | PresetEngine.BigCappo p => BigCappoPreset.base p
  end.

Definition getIntent (p : PresetEngine.preset) : string := intent (presetBase p).

(** [getPresetIntent(presetName)]: [preset ? preset.getIntent() : ''].  A
    member inherited from [Object.prototype] is truthy and has no
    [getIntent]. *)
Definition getPresetIntent (presetEngine : PresetEngine.t) (presetName : string)
  : result string :=
  match PresetEngine.getPreset presetEngine presetName with
  | PresetEngine.Undefined => Ok EmptyString
  | PresetEngine.Own p => Ok (getIntent p)
  | PresetEngine.Inherited _ => Err (TypeError "preset.getIntent is not a function")
  end.

(** ** Notions the stated properties use *)

(** A linear level [x] is at most [d] decibels: [20 * log10 x <= d] for a
    positive [x], and true of [x = 0], whose level is [-Infinity]. *)
Definition atMostDB (x d : R) : Prop := x <= JS.pow10 (d / 20).

(** Dithering was applied during an encoding: the dither generator drew
    random numbers. *)
Definition ditherApplied (w : TrapMasterProEngine.Writer) : Prop :=
  TrapMasterProEngine.randomCalls w <> 0%nat.

(** The export narrows the floating-point buffer to an integer format. *)
Definition narrowsToInteger (bitDepth : Z) : Prop :=
  bitDepth = 16%Z \/ bitDepth = 24%Z.

(** The low-frequency components of the two channels of a stream: each
    channel passed, frame by frame, through the one-pole low-pass of the
    mono-bass processor [self], starting from the state [self] holds. *)
Fixpoint lowComponents (self : MonoBassProcessor.t) (frames : list (R * R))
  : list (R * R) :=
  match frames with
  | [] => []
  | (l, r) :: rest =>
      let self' := MonoBassProcessor.lowpass self l r in
      (MonoBassProcessor.leftLP self', MonoBassProcessor.rightLP self')
      :: lowComponents self' rest
  end.

(** The frames a stage returned, as pairs of samples. *)
Definition framesOf (outs : list Stereo) : list (R * R) :=
  map (fun out => (left out, right out)) outs.

(** How far apart the two channels of a stream are: the squared
    difference of the two samples of a frame, summed over the frames. *)
Definition channelDistance (frames : list (R * R)) : R :=
  fold_right (fun frame acc => (fst frame - snd frame) * (fst frame - snd frame) + acc)
    0 frames.


(** The sum of the squares of the samples of a channel, and of all
    channels: what the loudness loops accumulate. *)
Definition sumsq (data : list R) : R := fold_right (fun x acc => x * x + acc) 0 data.

Definition sumsqAll (chans : list (list R)) : R :=
  fold_right (fun data acc => sumsq data + acc) 0 chans.

(** The loudness formula shared by the normalizer and the validator,
    before the validator clamps it. *)
Definition loudnessOf (rms : R) : R :=
  if JS.gt rms 0 then - 0.691 + 10 * JS.log10 rms else - 70.

(** The root mean square over all samples of a buffer. *)
Definition rmsOf (b : AudioBuffer.t) : R :=
  sqrt (sumsqAll (AudioBuffer.channels b)
        / (INR (AudioBuffer.length b) * INR (AudioBuffer.numberOfChannels b))).

(** Two values agree to one part in a million of [scale], the magnitude
    of what they were computed from. *)
Definition agreeAt (scale x y : R) : Prop := Rabs (x - y) <= 0.000001 * scale.

(** A position that is clear of the integers: at least a thousandth above
    the integer below it and a thousandth below the next one. *)
Definition clearOfIntegers (x : R) : Prop :=
  0.001 <= x - IZR (JS.floor x) <= 0.999.




(** * Properties *)

(** ** Arithmetic *)

Lemma gt_true (a b : R) : a > b -> JS.gt a b = true.
Proof. intros H. unfold JS.gt. destruct (Rgt_dec a b); [reflexivity | contradiction]. Qed.

Lemma gt_false (a b : R) : a <= b -> JS.gt a b = false.
Proof. intros H. unfold JS.gt. destruct (Rgt_dec a b); [lra | reflexivity]. Qed.

Lemma ln10_pos : 0 < ln 10.
Proof. rewrite <- ln_1. apply ln_increasing; lra. Qed.

Lemma pow10_pos (x : R) : 0 < JS.pow10 x.
Proof. unfold JS.pow10, Rpower. apply exp_pos. Qed.

Lemma log10_pow10 (x : R) : JS.log10 (JS.pow10 x) = x.
Proof.
  unfold JS.log10, JS.pow10, Rpower. rewrite ln_exp. field.
  apply Rgt_not_eq, ln10_pos.
Qed.

Lemma pow10_log10 (x : R) : 0 < x -> JS.pow10 (JS.log10 x) = x.
Proof.
  intros Hx. unfold JS.log10, JS.pow10, Rpower.
  replace (ln x / ln 10 * ln 10) with (ln x).
  - apply exp_ln, Hx.
  - field. apply Rgt_not_eq, ln10_pos.
Qed.

Lemma pow10_0 : JS.pow10 0 = 1.
Proof. unfold JS.pow10, Rpower. rewrite Rmult_0_l. apply exp_0. Qed.

Lemma pow10_lt (x y : R) : x < y -> JS.pow10 x < JS.pow10 y.
Proof. intros H. unfold JS.pow10. apply Rpower_lt; lra. Qed.

Lemma pow10_le (x y : R) : x <= y -> JS.pow10 x <= JS.pow10 y.
Proof.
  intros [H | ->]; [left; apply pow10_lt, H | right; reflexivity].
Qed.

Lemma pow10_minus (x y : R) : JS.pow10 (x - y) = JS.pow10 x / JS.pow10 y.
Proof.
  unfold JS.pow10, Rminus, Rdiv. rewrite Rpower_plus, Rpower_Ropp. reflexivity.
Qed.

Lemma log10_lt (x y : R) : 0 < x -> x < y -> JS.log10 x < JS.log10 y.
Proof.
  intros Hx Hxy. unfold JS.log10.
  apply Rmult_lt_compat_r.
  - apply Rinv_0_lt_compat, ln10_pos.
  - apply ln_increasing; assumption.
Qed.

Lemma log10_le (x y : R) : 0 < x -> x <= y -> JS.log10 x <= JS.log10 y.
Proof.
  intros Hx [H | ->]; [left; apply log10_lt; assumption | right; reflexivity].
Qed.

Lemma log10_mult (x y : R) :
  0 < x -> 0 < y -> JS.log10 (x * y) = JS.log10 x + JS.log10 y.
Proof.
  intros Hx Hy. unfold JS.log10. rewrite ln_mult by assumption. field.
  apply Rgt_not_eq, ln10_pos.
Qed.

Lemma log10_1 : JS.log10 1 = 0.
Proof. unfold JS.log10. rewrite ln_1. lra. Qed.

Lemma tiny_pos : 0 < JS.tiny.
Proof. unfold JS.tiny. lra. Qed.

(** [atMostDB] is the comparison of levels in decibels. *)
Lemma atMostDB_spec (x d : R) : 0 < x -> atMostDB x d <-> 20 * JS.log10 x <= d.
Proof.
  intros Hx. unfold atMostDB. split; intros H.
  - apply (log10_le _ _ Hx) in H. rewrite log10_pow10 in H. lra.
  - rewrite <- (pow10_log10 x Hx) at 1. apply pow10_le. lra.
Qed.

(** ** Loops *)

Lemma forRange_S {A : Type} (n : nat) (body : nat -> A -> A) (init : A) :
  forRange (S n) body init = body n (forRange n body init).
Proof.
  unfold forRange. rewrite seq_S, fold_left_app. reflexivity.
Qed.

(** An invariant indexed by the number of iterations done. *)
Lemma forRange_ind {A : Type} (P : nat -> A -> Prop) (n : nat)
  (body : nat -> A -> A) (init : A) :
  P 0%nat init ->
  (forall i acc, (i < n)%nat -> P i acc -> P (S i) (body i acc)) ->
  P n (forRange n body init).
Proof.
  intros H0 Hstep. induction n as [| n IH].
  - exact H0.
  - rewrite forRange_S. apply Hstep; [lia |]. apply IH.
    intros i acc Hi. apply Hstep. lia.
Qed.

(** An invariant that does not look at the index. *)
Lemma forRange_inv {A : Type} (P : A -> Prop) (n : nat)
  (body : nat -> A -> A) (init : A) :
  P init -> (forall i acc, P acc -> P (body i acc)) -> P (forRange n body init).
Proof.
  intros H0 Hstep. apply (forRange_ind (fun _ => P)); auto.
Qed.

(** ** Soft clipper *)

(** C7.  When the driven sample [sample * drive] is at or below the
    threshold in magnitude, [SoftClipper.process] returns the driven sample
    unchanged; beyond the threshold the excess over the threshold goes
    through [tanh]. *)
Theorem softClipper_preserves_below_threshold (self : SoftClipper.t) (sample : R) :
  let driven := sample * SoftClipper.drive self in
  let th := SoftClipper.threshold self in
  (Rabs driven <= th -> SoftClipper.process self sample = driven) /\
  (Rabs driven > th ->
   SoftClipper.process self sample =
   (if JS.gt driven 0 then 1 else - 1)
   * (th + (1 - th) * tanh ((Rabs driven - th) / (1 - th)))).
Proof.
  intros driven th. unfold SoftClipper.process. fold driven. fold th. split; intros H.
  - rewrite (gt_false _ _ H). reflexivity.
  - rewrite (gt_true _ _ H). reflexivity.
Qed.

Lemma softClipper_preserves_below_threshold_witness :
  let self := SoftClipper.new 1.2 0.8 in
  Rabs (0.5 * SoftClipper.drive self) <= SoftClipper.threshold self /\
  SoftClipper.process self 0.5 = 0.5 * SoftClipper.drive self.
Proof.
  intros self.
  assert (H : Rabs (0.5 * SoftClipper.drive self) <= SoftClipper.threshold self).
  { simpl. unfold Rabs. destruct (Rcase_abs (0.5 * 1.2)); lra. }
  split; [exact H |].
  exact (proj1 (softClipper_preserves_below_threshold self 0.5) H).
Defined.

(** ** Integrated loudness *)

Lemma clamp_range (x : R) : - 70 <= Rmax (- 70) (Rmin 0 x) <= 0.
Proof.
  unfold Rmax, Rmin.
  destruct (Rle_dec 0 x); destruct (Rle_dec (- 70) _); lra.
Qed.

Lemma sumSquared_zero (samples : list R) (n : nat) :
  Forall (fun x => x = 0) samples ->
  forRange n (fun i acc => let sample := nth i samples 0 in acc + sample * sample) 0 = 0.
Proof.
  intros Hz. apply (forRange_inv (fun acc => acc = 0)); [reflexivity |].
  intros i acc ->. cbv zeta.
  assert (Hn : nth i samples 0 = 0).
  { destruct (nth_in_or_default i samples 0) as [Hin | Hd]; [| exact Hd].
    rewrite Forall_forall in Hz. apply Hz, Hin. }
  rewrite Hn. ring.
Qed.

(** C9.  For a buffer whose samples are all zero the integrated loudness
    the analysis reports is exactly -70, and for every buffer it lies in
    [-70, 0]. *)
Theorem integratedLUFS_floor_and_range (audioBuffer : AudioBuffer.t) :
  (Forall (Forall (fun x => x = 0)) (AudioBuffer.channels audioBuffer) ->
   AudioAnalysis.integratedLUFS audioBuffer = - 70) /\
  - 70 <= AudioAnalysis.integratedLUFS audioBuffer <= 0.
Proof.
  split.
  - intros Hz.
    assert (H0 : Forall (fun x => x = 0) (AudioBuffer.getChannelData audioBuffer 0)).
    { unfold AudioBuffer.getChannelData.
      destruct (nth_in_or_default 0 (AudioBuffer.channels audioBuffer) []) as [Hin | Hd].
      - rewrite Forall_forall in Hz. apply Hz, Hin.
      - rewrite Hd. constructor. }
    unfold AudioAnalysis.integratedLUFS, AudioAnalysis.calculateLUFS.
    rewrite (sumSquared_zero _ _ H0).
    unfold Rdiv. rewrite Rmult_0_l, sqrt_0.
    rewrite (gt_false 0 0) by lra.
    unfold Rmax, Rmin.
    destruct (Rle_dec 0 (- 70)); destruct (Rle_dec (- 70) _); lra.
  - apply clamp_range.
Qed.

Lemma integratedLUFS_floor_and_range_witness :
  let silence := AudioBuffer.mk 1 2 48000 [[0; 0]] in
  Forall (Forall (fun x => x = 0)) (AudioBuffer.channels silence) /\
  AudioAnalysis.integratedLUFS silence = - 70.
Proof.
  intros silence.
  assert (H : Forall (Forall (fun x => x = 0)) (AudioBuffer.channels silence)).
  { repeat constructor. }
  split; [exact H |].
  exact (proj1 (integratedLUFS_floor_and_range silence) H).
Defined.

(** ** True-peak limiter of the export *)

(** One call of [process]: the gain stays in [0, 1], the ceiling is kept,
    and the output, with the estimator's 1 % margin, is below the ceiling
    taken as a linear level. *)
Lemma truePeakLimiter_process_bound (self : LosslessTruePeakLimiter.t) (sample : R) :
  0 <= LosslessTruePeakLimiter.gainReduction self <= 1 ->
  let '(self', out) := LosslessTruePeakLimiter.process self sample in
  0 <= LosslessTruePeakLimiter.gainReduction self' <= 1 /\
  LosslessTruePeakLimiter.ceiling self' = LosslessTruePeakLimiter.ceiling self /\
  Rabs out * 1.01 < JS.pow10 (LosslessTruePeakLimiter.ceiling self / 20).
Proof.
  intros Hg. unfold LosslessTruePeakLimiter.process.
  set (tp := LosslessTruePeakLimiter.detectTruePeak sample
               (LosslessTruePeakLimiter.lastSample self)).
  set (c := LosslessTruePeakLimiter.ceiling self).
  set (g := LosslessTruePeakLimiter.gainReduction self) in *.
  assert (Htp : Rabs sample * 1.01 <= tp).
  { unfold tp, LosslessTruePeakLimiter.detectTruePeak.
    apply Rmult_le_compat_r; [lra | apply Rmax_l]. }
  assert (Habs : 0 <= Rabs sample) by apply Rabs_pos.
  assert (Hd : 0 < tp + JS.tiny) by (pose proof tiny_pos; lra).
  assert (HC : 0 < JS.pow10 (c / 20)) by apply pow10_pos.
  cbn [LosslessTruePeakLimiter.gainReduction LosslessTruePeakLimiter.ceiling].
  destruct (JS.gt (20 * JS.log10 (tp + JS.tiny)) c) eqn:Hcmp.
  - replace ((c - 20 * JS.log10 (tp + JS.tiny)) / 20)
      with (c / 20 - JS.log10 (tp + JS.tiny)) by field.
    rewrite pow10_minus, (pow10_log10 _ Hd).
    set (C := JS.pow10 (c / 20)) in *.
    assert (Htg : 0 < C / (tp + JS.tiny)) by (apply Rdiv_lt_0_compat; assumption).
    assert (Hmin : 0 <= Rmin g (C / (tp + JS.tiny)) <= 1).
    { unfold Rmin. destruct (Rle_dec g _); lra. }
    assert (Hle : Rmin g (C / (tp + JS.tiny)) <= C / (tp + JS.tiny)) by apply Rmin_r.
    repeat split; try lra.
    rewrite Rabs_mult, (Rabs_pos_eq (Rmin g _)) by lra.
    set (m := Rmin g (C / (tp + JS.tiny))) in *.
    assert (H1 : Rabs sample * m * 1.01 <= tp * (C / (tp + JS.tiny))).
    { replace (Rabs sample * m * 1.01) with (Rabs sample * 1.01 * m) by ring.
      apply Rmult_le_compat; nra. }
    assert (H2 : tp * (C / (tp + JS.tiny)) < C).
    { replace C with ((tp + JS.tiny) * (C / (tp + JS.tiny))) at 2
        by (field; lra).
      apply Rmult_lt_compat_r; [exact Htg |]. pose proof tiny_pos. lra. }
    lra.
  - assert (Hcmp' : 20 * JS.log10 (tp + JS.tiny) <= c).
    { unfold JS.gt in Hcmp. destruct (Rgt_dec _ _); [discriminate | lra]. }
    assert (HtpC : tp + JS.tiny <= JS.pow10 (c / 20)).
    { apply atMostDB_spec; assumption. }
    repeat split; try lra.
    rewrite Rabs_mult, (Rabs_pos_eq g) by lra.
    pose proof tiny_pos. nra.
Qed.

Lemma truePeakLimiter_run_cons (self : LosslessTruePeakLimiter.t) (sample : R)
  (rest : list R) :
  snd (LosslessTruePeakLimiter.run self (sample :: rest)) =
  snd (LosslessTruePeakLimiter.process self sample)
  :: snd (LosslessTruePeakLimiter.run
            (fst (LosslessTruePeakLimiter.process self sample)) rest).
Proof.
  change (LosslessTruePeakLimiter.run self (sample :: rest))
    with (let '(self1, out) := LosslessTruePeakLimiter.process self sample in
          let '(self2, outs) := LosslessTruePeakLimiter.run self1 rest in
          (self2, out :: outs)).
  destruct (LosslessTruePeakLimiter.process self sample) as [self1 out].
  cbn [fst snd].
  destruct (LosslessTruePeakLimiter.run self1 rest) as [self2 outs].
  reflexivity.
Qed.

Lemma truePeakLimiter_run_bound (samples : list R) :
  forall self : LosslessTruePeakLimiter.t,
  0 <= LosslessTruePeakLimiter.gainReduction self <= 1 ->
  Forall (fun out =>
            Rabs out * 1.01 < JS.pow10 (LosslessTruePeakLimiter.ceiling self / 20))
         (snd (LosslessTruePeakLimiter.run self samples)).
Proof.
  induction samples as [| sample rest IH]; intros self Hg.
  - constructor.
  - rewrite truePeakLimiter_run_cons.
    pose proof (truePeakLimiter_process_bound self sample Hg) as Hp.
    destruct (LosslessTruePeakLimiter.process self sample) as [self1 out].
    destruct Hp as (Hg1 & Hc & Hout).
    specialize (IH self1 Hg1). rewrite Hc in IH.
    cbn [fst snd]. constructor; assumption.
Qed.

Lemma truePeakEstimates_bound (C : R) (outs : list R) :
  forall previous : R,
  Rabs previous * 1.01 < C ->
  Forall (fun out => Rabs out * 1.01 < C) outs ->
  Forall (fun estimate => estimate < C)
         (LosslessTruePeakLimiter.truePeakEstimates previous outs).
Proof.
  induction outs as [| out rest IH]; intros previous Hp Hall; cbn.
  - constructor.
  - inversion Hall as [| ? ? Hout Hrest]; subst. constructor.
    + unfold LosslessTruePeakLimiter.detectTruePeak, Rmax.
      destruct (Rle_dec (Rabs out) (Rabs previous)); lra.
    + apply IH; assumption.
Qed.

(** C4.  For every ceiling and every input sequence fed to a fresh
    limiter, the estimated true peak at every position of the output (the
    limiter's own neighbour-sample estimate with its 1 % margin) is at
    most the ceiling plus 0.05 dB, and so is the magnitude of every output
    sample, from which the validator takes its neighbour maximum; in
    particular for inputs whose peak is above the ceiling. *)
Theorem truePeakLimiter_output_within_ceiling (ceiling sampleRate : R)
  (samples : list R) :
  let outs :=
    snd (LosslessTruePeakLimiter.run
           (LosslessTruePeakLimiter.new ceiling sampleRate) samples) in
  Forall (fun estimate => atMostDB estimate (ceiling + 0.05))
    (LosslessTruePeakLimiter.truePeakEstimates 0 outs) /\
  Forall (fun out => atMostDB (Rabs out) (ceiling + 0.05)) outs.
Proof.
  intros outs.
  pose proof (truePeakLimiter_run_bound samples
                (LosslessTruePeakLimiter.new ceiling sampleRate)) as Hrun.
  cbn [LosslessTruePeakLimiter.new LosslessTruePeakLimiter.gainReduction
       LosslessTruePeakLimiter.ceiling] in Hrun.
  assert (Hg : 0 <= 1 <= 1) by lra. specialize (Hrun Hg). fold outs in Hrun.
  assert (Hmono : JS.pow10 (ceiling / 20) <= JS.pow10 ((ceiling + 0.05) / 20))
    by (apply pow10_le; lra).
  split.
  - apply (truePeakEstimates_bound _ _ 0) in Hrun.
    + eapply Forall_impl; [| exact Hrun].
      intros e He. unfold atMostDB. lra.
    + rewrite Rabs_R0. pose proof (pow10_pos (ceiling / 20)). lra.
  - eapply Forall_impl; [| exact Hrun].
    intros out Hout. unfold atMostDB. pose proof (Rabs_pos out). lra.
Qed.

(** ** Buffers and the heap *)

Lemma store_length (i : nat) (v : R) (data : list R) :
  List.length (AudioBuffer.store i v data) = List.length data.
Proof.
  revert i. induction data as [| x rest IH]; intros [| j]; cbn; auto.
Qed.

Lemma storeChannel_lengths (ch : nat) (f : list R -> list R) (chans : list (list R)) :
  (forall data, List.length (f data) = List.length data) ->
  map (@List.length R) (AudioBuffer.storeChannel ch f chans)
  = map (@List.length R) chans.
Proof.
  intros Hf. revert ch. induction chans as [| data rest IH]; intros [| k]; cbn; auto.
  - rewrite Hf. reflexivity.
  - rewrite IH. reflexivity.
Qed.

Lemma shape_set (b : AudioBuffer.t) (ch i : nat) (v : R) :
  AudioBuffer.shape (AudioBuffer.set b ch i v) = AudioBuffer.shape b.
Proof.
  unfold AudioBuffer.shape, AudioBuffer.set. cbn.
  rewrite storeChannel_lengths; [reflexivity |]. apply store_length.
Qed.

(** Validity is a property of the shape. *)
Lemma valid_shape (b b' : AudioBuffer.t) :
  AudioBuffer.shape b' = AudioBuffer.shape b -> AudioBuffer.valid b -> AudioBuffer.valid b'.
Proof.
  unfold AudioBuffer.shape, AudioBuffer.valid.
  intros Heq (Hc & Hl & Hn & Hall).
  injection Heq as Hnc Hlen _ Hmap.
  rewrite Hnc, Hlen. repeat split; try assumption.
  - rewrite <- (length_map (@List.length R)), Hmap, length_map. exact Hn.
  - assert (Hall' : Forall (fun n => n = AudioBuffer.length b)
                      (map (@List.length R) (AudioBuffer.channels b'))).
    { rewrite Hmap. rewrite Forall_map. exact Hall. }
    rewrite Forall_map in Hall'. exact Hall'.
Qed.

Lemma shape_createBuffer (b : AudioBuffer.t) :
  AudioBuffer.valid b ->
  exists fresh,
    AudioBuffer.createBuffer (AudioBuffer.numberOfChannels b) (AudioBuffer.length b)
      (AudioBuffer.sampleRate b) = Ok fresh /\
    AudioBuffer.shape fresh = AudioBuffer.shape b.
Proof.
  intros (Hc & Hl & Hn & Hall). unfold AudioBuffer.createBuffer.
  assert (Htest : ((AudioBuffer.numberOfChannels b =? 0)
                   || (AudioBuffer.length b =? 0))%nat = false).
  { apply orb_false_intro; apply Nat.eqb_neq; lia. }
  rewrite Htest. eexists. split; [reflexivity |].
  unfold AudioBuffer.shape. cbn [AudioBuffer.numberOfChannels AudioBuffer.length
    AudioBuffer.sampleRate AudioBuffer.channels].
  f_equal. rewrite <- Hn. clear Hn Htest Hc.
  induction Hall as [| data rest Hd _ IH]; [reflexivity |].
  cbn [List.length repeat map]. rewrite repeat_length, Hd. f_equal. exact IH.
Qed.

Lemma deref_assign_other (h : Heap.t) (r r' : Heap.ref) (b : AudioBuffer.t) :
  r <> r' -> Heap.deref (Heap.assign h r' b) r = Heap.deref h r.
Proof.
  unfold Heap.deref. revert r r'.
  induction h as [| x rest IH]; intros [| r] [| r'] Hne; cbn; auto; try lia.
Qed.

Lemma deref_assign_same (h : Heap.t) (r : Heap.ref) (b : AudioBuffer.t) :
  (r < List.length h)%nat -> Heap.deref (Heap.assign h r b) r = b.
Proof.
  unfold Heap.deref. revert r.
  induction h as [| x rest IH]; intros [| r] Hlt; cbn in *; auto; try lia.
  apply IH. lia.
Qed.

Lemma assign_length (h : Heap.t) (r : Heap.ref) (b : AudioBuffer.t) :
  List.length (Heap.assign h r b) = List.length h.
Proof.
  revert r. induction h as [| x rest IH]; intros [| r]; cbn; auto.
Qed.

Lemma deref_alloc_old (h : Heap.t) (b : AudioBuffer.t) (r : Heap.ref) :
  (r < List.length h)%nat -> Heap.deref (h ++ [b]) r = Heap.deref h r.
Proof. intros Hlt. unfold Heap.deref. apply app_nth1, Hlt. Qed.

Lemma deref_alloc_new (h : Heap.t) (b : AudioBuffer.t) :
  Heap.deref (h ++ [b]) (List.length h) = b.
Proof. unfold Heap.deref. rewrite app_nth2, Nat.sub_diag by lia. reflexivity. Qed.

(** The copy loop writes through the second reference only, and keeps the
    shape of what it writes to. *)
Lemma copyChannels_frame (h : Heap.t) (audioBuffer processedBuffer : Heap.ref) :
  (processedBuffer < List.length h)%nat ->
  let h' := PresetEngine.copyChannels h audioBuffer processedBuffer in
  List.length h' = List.length h /\
  (forall r, r <> processedBuffer -> Heap.deref h' r = Heap.deref h r) /\
  AudioBuffer.shape (Heap.deref h' processedBuffer)
  = AudioBuffer.shape (Heap.deref h processedBuffer).
Proof.
  intros Hp. unfold PresetEngine.copyChannels.
  set (P := fun h' : Heap.t =>
              List.length h' = List.length h /\
              (forall r, r <> processedBuffer -> Heap.deref h' r = Heap.deref h r) /\
              AudioBuffer.shape (Heap.deref h' processedBuffer)
              = AudioBuffer.shape (Heap.deref h processedBuffer)).
  change (P (forRange (AudioBuffer.numberOfChannels (Heap.deref h audioBuffer))
               (fun channel h0 =>
                  forRange
                    (List.length
                       (AudioBuffer.getChannelData (Heap.deref h0 audioBuffer) channel))
                    (fun i h1 =>
                       Heap.assign h1 processedBuffer
                         (AudioBuffer.set (Heap.deref h1 processedBuffer) channel i
                            (AudioBuffer.get (Heap.deref h1 audioBuffer) channel i)))
                    h0)
               h)).
  apply forRange_inv.
  - unfold P. auto.
  - intros channel h0 H0. apply forRange_inv; [exact H0 |].
    intros i h1 (Hlen & Hframe & Hshape). unfold P. repeat split.
    + rewrite assign_length. exact Hlen.
    + intros r Hr. rewrite deref_assign_other by exact Hr. apply Hframe, Hr.
    + rewrite deref_assign_same by lia. rewrite shape_set. exact Hshape.
Qed.

(** ** Preset engine: the caller's buffer *)

(** C10.  Whatever the chain name, [process] leaves the buffer the caller
    passed as it was: every write of the call goes to the working buffer
    allocated at its start. *)
Theorem process_leaves_input_unchanged (self : PresetEngine.t) (h : Heap.t)
  (audioBuffer : Heap.ref) (presetName : string) :
  (audioBuffer < List.length h)%nat ->
  Heap.deref (fst (PresetEngine.process self h audioBuffer presetName)) audioBuffer
  = Heap.deref h audioBuffer.
Proof.
  intros Hin. unfold PresetEngine.process.
  assert (Hgen :
    forall preset : PresetEngine.property,
      Heap.deref
        (fst
           (match AudioBuffer.createBuffer
                    (AudioBuffer.numberOfChannels (Heap.deref h audioBuffer))
                    (AudioBuffer.length (Heap.deref h audioBuffer))
                    (AudioBuffer.sampleRate (Heap.deref h audioBuffer)) with
            | Err e => (h, Err e)
            | Ok fresh =>
                let '(h0, processedBuffer) := Heap.alloc h fresh in
                let h1 := PresetEngine.copyChannels h0 audioBuffer processedBuffer in
                match preset with
                | PresetEngine.Own p =>
                    match PresetEngine.presetProcess p (Heap.deref h1 processedBuffer)
                            (PresetEngine.analysisData self) with
                    | Ok b => (Heap.assign h1 processedBuffer b, Ok processedBuffer)
                    | Err e => (h1, Err e)
                    end
                | _ => (h1, Err (TypeError "preset.process is not a function"))
                end
            end)) audioBuffer
      = Heap.deref h audioBuffer).
  { intros preset.
    destruct (AudioBuffer.createBuffer _ _ _) as [fresh | e]; [| reflexivity].
    unfold Heap.alloc.
    assert (Hp : (List.length h < List.length (h ++ [fresh]))%nat).
    { rewrite length_app. cbn. lia. }
    destruct (copyChannels_frame (h ++ [fresh]) audioBuffer (List.length h) Hp)
      as (_ & Hframe & _).
    assert (Hne : audioBuffer <> List.length h) by lia.
    assert (Hcopy :
      Heap.deref (PresetEngine.copyChannels (h ++ [fresh]) audioBuffer (List.length h))
        audioBuffer = Heap.deref h audioBuffer).
    { rewrite Hframe by exact Hne. apply deref_alloc_old, Hin. }
    destruct preset as [| p | name]; cbn [fst]; try exact Hcopy.
    destruct (PresetEngine.presetProcess p _ _) as [b | e]; cbn [fst].
    - rewrite deref_assign_other by exact Hne. exact Hcopy.
    - exact Hcopy. }
  destruct (PresetEngine.getPreset self presetName) as [| p | name] eqn:Eg.
  - reflexivity.
  - apply (Hgen (PresetEngine.Own p)).
  - apply (Hgen (PresetEngine.Inherited name)).
Qed.

Lemma process_leaves_input_unchanged_witness :
  let original := AudioBuffer.mk 1 2 48000 [[0.5; - 0.25]] in
  let engine := PresetEngine.new 48000 in
  (0 < List.length [original])%nat /\
  Heap.deref (fst (PresetEngine.process engine [original] 0%nat "De-Harsh")) 0%nat
  = original.
Proof.
  intros original engine.
  assert (H : (0 < List.length [original])%nat) by (cbn; lia).
  split; [exact H |].
  exact (process_leaves_input_unchanged engine [original] 0%nat "De-Harsh" H).
Defined.

(** ** Preset engine: lookup *)

Lemma getPreset_catalog (self : PresetEngine.t) (presetName : string) :
  In presetName PresetEngine.getPresetNames ->
  exists p, PresetEngine.getPreset self presetName = PresetEngine.Own p.
Proof.
  unfold PresetEngine.getPresetNames. intros H.
  repeat (destruct H as [<- | H]; [eexists; reflexivity |]).
  destruct H.
Qed.

Lemma ownProperty_names (sr : R) (presetName : string) :
  ~ In presetName PresetEngine.getPresetNames ->
  PresetEngine.ownProperty (PresetEngine.presets sr) presetName = None.
Proof.
  unfold PresetEngine.getPresetNames. intros Hn.
  unfold PresetEngine.presets, PresetEngine.ownProperty.
  repeat match goal with
         | |- context [String.eqb ?a presetName] =>
             destruct (String.eqb_spec a presetName) as [He | _];
             [exfalso; apply Hn; rewrite <- He; cbn; tauto |]
         end.
  reflexivity.
Qed.

(** For a name that is neither in the catalog nor a member of
    [Object.prototype], [process] throws the "not found" error before it
    allocates or writes anything. *)
Lemma process_unknown_name (self : PresetEngine.t) (h : Heap.t)
  (audioBuffer : Heap.ref) (presetName : string) :
  ~ In presetName PresetEngine.getPresetNames ->
  ~ In presetName PresetEngine.objectPrototype ->
  PresetEngine.process self h audioBuffer presetName
  = (h, Err (PresetEngine.notFound presetName)).
Proof.
  intros Hcat Hproto. unfold PresetEngine.process, PresetEngine.getPreset,
    PresetEngine.getProperty.
  rewrite (ownProperty_names _ _ Hcat).
  assert (He : existsb (String.eqb presetName) PresetEngine.objectPrototype = false).
  { apply Bool.not_true_is_false. intros He. apply existsb_exists in He.
    destruct He as (x & Hx & Heq). apply String.eqb_eq in Heq. subst x.
    exact (Hproto Hx). }
  rewrite He. reflexivity.
Qed.

(** For a catalog name the lookup yields the preset object, so the call
    does not fail at lookup. *)
Lemma process_catalog_name_found (self : PresetEngine.t) (h : Heap.t)
  (audioBuffer : Heap.ref) (presetName : string) :
  In presetName PresetEngine.getPresetNames ->
  snd (PresetEngine.process self h audioBuffer presetName)
  <> Err (PresetEngine.notFound presetName).
Proof.
  intros Hin. destruct (getPreset_catalog self presetName Hin) as (p & Hp).
  unfold PresetEngine.process. rewrite Hp.
  destruct (AudioBuffer.createBuffer _ _ _) as [fresh | e] eqn:Ec; cbn.
  - destruct (PresetEngine.presetProcess p _ _) eqn:Ep; cbn; [discriminate |].
    unfold PresetEngine.presetProcess in Ep.
    destruct (PresetEngine.analysisData self); inversion Ep; subst. discriminate.
  - unfold AudioBuffer.createBuffer in Ec.
    destruct (_ || _)%bool; inversion Ec; subst. discriminate.
Qed.

(** C6.  The lookup of [getPreset] goes through the prototype chain of the
    object literal: for [toString], a name outside the catalog, it finds
    the method every object inherits.  [process] then does not throw the
    "not found" error; it allocates the working buffer, copies the input
    and fails with a [TypeError] at [preset.process]. *)
Theorem process_inherited_name_is_not_reported_missing :
  let original := AudioBuffer.mk 1 1 48000 [[0.5]] in
  let engine := PresetEngine.new 48000 in
  ~ In "toString"%string PresetEngine.getPresetNames /\
  PresetEngine.getPreset engine "toString" = PresetEngine.Inherited "toString" /\
  snd (PresetEngine.process engine [original] 0%nat "toString")
  = Err (TypeError "preset.process is not a function") /\
  List.length (fst (PresetEngine.process engine [original] 0%nat "toString")) = 2%nat.
Proof.
  intros original engine. split; [| split; [| split]].
  - unfold PresetEngine.getPresetNames. cbn.
    intros H. repeat (destruct H as [H | H]; [discriminate H |]). exact H.
  - reflexivity.
  - reflexivity.
  - destruct (copyChannels_frame [original; AudioBuffer.mk 1 1 48000 [[0]]] 0%nat 1%nat)
      as (Hlen & _); [cbn; lia |].
    exact Hlen.
Qed.

(** ** Preset engine: shape *)

Lemma forEachSample_shape {S : Type} (step : S -> R -> S * R)
  (audioBuffer : AudioBuffer.t) (s : S) :
  AudioBuffer.shape (snd (forEachSample step audioBuffer s))
  = AudioBuffer.shape audioBuffer.
Proof.
  unfold forEachSample.
  apply (forRange_inv (fun st => AudioBuffer.shape (snd st) = AudioBuffer.shape audioBuffer));
    [reflexivity |].
  intros i st Hst.
  apply (forRange_inv (fun st => AudioBuffer.shape (snd st) = AudioBuffer.shape audioBuffer));
    [exact Hst |].
  intros ch [s0 b] Hb. destruct (step s0 (AudioBuffer.get b ch i)) as [s1 out].
  cbn [snd] in *. rewrite shape_set. exact Hb.
Qed.

Lemma forEachFrame_shape {S : Type} (step : S -> R -> R -> S * Stereo)
  (audioBuffer : AudioBuffer.t) (s : S) :
  AudioBuffer.shape (snd (forEachFrame step audioBuffer s))
  = AudioBuffer.shape audioBuffer.
Proof.
  unfold forEachFrame.
  apply (forRange_inv (fun st => AudioBuffer.shape (snd st) = AudioBuffer.shape audioBuffer));
    [reflexivity |].
  intros i [s0 b] Hb.
  destruct (step s0 (AudioBuffer.get b 0 i) (AudioBuffer.get b 1 i)) as [s1 out].
  cbn [snd] in *. rewrite !shape_set. exact Hb.
Qed.

Lemma forEachMono_shape {S : Type} (step : S -> R -> S * R)
  (audioBuffer : AudioBuffer.t) (s : S) :
  AudioBuffer.shape (snd (forEachMono step audioBuffer s))
  = AudioBuffer.shape audioBuffer.
Proof.
  unfold forEachMono.
  apply (forRange_inv (fun st => AudioBuffer.shape (snd st) = AudioBuffer.shape audioBuffer));
    [reflexivity |].
  intros i [s0 b] Hb. destruct (step s0 (AudioBuffer.get b 0 i)) as [s1 out].
  cbn [snd] in *. rewrite shape_set. exact Hb.
Qed.

Lemma stereoOrMono_shape {S : Type} (frame : S -> R -> R -> S * Stereo)
  (mono : S -> R -> S * R) (audioBuffer : AudioBuffer.t) (s : S) :
  AudioBuffer.shape (stereoOrMono frame mono audioBuffer s)
  = AudioBuffer.shape audioBuffer.
Proof.
  unfold stereoOrMono. destruct (2 <=? _)%nat.
  - apply forEachFrame_shape.
  - apply forEachMono_shape.
Qed.

Create HintDb shape.
#[local] Hint Resolve forEachSample_shape forEachFrame_shape forEachMono_shape
  stereoOrMono_shape : shape.

(** Every chain of the catalog returns a buffer of the shape it was
    given. *)
Lemma run_shape (p : PresetEngine.preset) (audioBuffer : AudioBuffer.t)
  (analysisData : AnalysisData) :
  AudioBuffer.shape (PresetEngine.run p audioBuffer analysisData)
  = AudioBuffer.shape audioBuffer.
Proof.
  destruct p; cbn [PresetEngine.run];
    unfold DeHarshPreset.process, MudRemoverPreset.process, BassTamerPreset.process,
      VintageWarmthPreset.process, ModernBrightPreset.process,
      LoFiCharacterPreset.process, NeoSoulPreset.process,
      FestivalBangerPreset.process, FocusCenterPreset.process,
      ImmersivePreset.process, WideSpaciousPreset.process,
      VocalForwardPreset.process, SmoothMidsPreset.process,
      DynamicClearPreset.process, MaximumImpactPreset.process,
      BigCappoPreset.process, BassEQChain.run, EQChain.run, LoudChain.process,
      WidthChain.process;
    auto with shape.
Qed.

(** C2.  For every chain name of the catalog, every measurement record and
    every valid input buffer, [process] returns a buffer with the channel
    count, the length and the sample rate of the input (and channel arrays
    of that length). *)
Theorem process_preserves_shape (self : PresetEngine.t) (analysis : AnalysisData)
  (h : Heap.t) (audioBuffer : Heap.ref) (presetName : string) :
  In presetName PresetEngine.getPresetNames ->
  (audioBuffer < List.length h)%nat ->
  AudioBuffer.valid (Heap.deref h audioBuffer) ->
  let call :=
    PresetEngine.process (PresetEngine.setAnalysis self analysis) h audioBuffer
      presetName in
  exists processedBuffer,
    snd call = Ok processedBuffer /\
    let input := Heap.deref h audioBuffer in
    let output := Heap.deref (fst call) processedBuffer in
    AudioBuffer.numberOfChannels output = AudioBuffer.numberOfChannels input /\
    AudioBuffer.length output = AudioBuffer.length input /\
    AudioBuffer.sampleRate output = AudioBuffer.sampleRate input /\
    AudioBuffer.valid output.
Proof.
  intros Hname Hin Hvalid call.
  destruct (getPreset_catalog (PresetEngine.setAnalysis self analysis) presetName Hname)
    as (p & Hp).
  destruct (shape_createBuffer _ Hvalid) as (fresh & Hfresh & Hshape).
  exists (List.length h).
  unfold call, PresetEngine.process. rewrite Hp, Hfresh.
  unfold Heap.alloc, PresetEngine.presetProcess.
  cbn [PresetEngine.setAnalysis PresetEngine.analysisData fst snd].
  assert (Hp' : (List.length h < List.length (h ++ [fresh]))%nat).
  { rewrite length_app. cbn. lia. }
  destruct (copyChannels_frame (h ++ [fresh]) audioBuffer (List.length h) Hp')
    as (Hlen & _ & Hcopy).
  rewrite deref_alloc_new in Hcopy.
  split; [reflexivity |].
  rewrite deref_assign_same by lia.
  set (working :=
         Heap.deref (PresetEngine.copyChannels (h ++ [fresh]) audioBuffer (List.length h))
           (List.length h)) in *.
  assert (Hout : AudioBuffer.shape (PresetEngine.run p working analysis)
                 = AudioBuffer.shape (Heap.deref h audioBuffer)).
  { rewrite run_shape, Hcopy. exact Hshape. }
  pose proof (valid_shape _ _ Hout Hvalid) as Hv.
  unfold AudioBuffer.shape in Hout. injection Hout as Hc Hl Hs _.
  cbv zeta. auto.
Qed.

Lemma process_preserves_shape_witness :
  let original := AudioBuffer.mk 1 2 48000 [[0.5; - 0.25]] in
  let analysis :=
    {| dynamicRange := Some 10; harshness := Some 0.2; mud := None;
       bassStability := None; vocalDominance := None; spectralBalance := None |} in
  let call :=
    PresetEngine.process (PresetEngine.setAnalysis (PresetEngine.new 48000) analysis)
      [original] 0%nat "De-Harsh" in
  exists processedBuffer,
    snd call = Ok processedBuffer /\
    AudioBuffer.numberOfChannels (Heap.deref (fst call) processedBuffer) = 1%nat /\
    AudioBuffer.length (Heap.deref (fst call) processedBuffer) = 2%nat /\
    AudioBuffer.sampleRate (Heap.deref (fst call) processedBuffer) = 48000%Z.
Proof.
  intros original analysis call.
  assert (Hname : In "De-Harsh"%string PresetEngine.getPresetNames) by (cbn; tauto).
  assert (Hin : (0 < List.length [original])%nat) by (cbn; lia).
  assert (Hvalid : AudioBuffer.valid (Heap.deref [original] 0%nat)).
  { cbn. unfold AudioBuffer.valid. cbn. repeat split; try lia. repeat constructor. }
  destruct (process_preserves_shape (PresetEngine.new 48000) analysis [original] 0%nat
              "De-Harsh" Hname Hin Hvalid) as (r & Hr & Hc & Hl & Hs & _).
  exists r. repeat split; assumption.
Defined.

(** ** Export: the read of [truePeakCeiling] *)

(** No binding in scope in [exportToWAV] is named [truePeakCeiling]: the
    destructuring pattern of the options leaves it out. *)
Lemma resolve_truePeakCeiling (filename : string) (bitDepth : Z) (sampleRate : option Z)
  (targetLUFS : option R) (dither normalize : bool) :
  resolve (TrapMasterProEngine.exportToWAV_scope filename bitDepth sampleRate
             targetLUFS dither normalize) "truePeakCeiling"
  = Err (ReferenceError "truePeakCeiling").
Proof. reflexivity. Qed.

Lemma exportToWAV_throws (float32_bits : R -> Z) (random : nat -> R)
  (audioBuffer : AudioBuffer.t) (filename : string)
  (options : TrapMasterProEngine.ExportOptions) :
  exists e,
    TrapMasterProEngine.exportToWAV float32_bits random audioBuffer filename options
    = Err e.
Proof.
  unfold TrapMasterProEngine.exportToWAV.
  match goal with
  | |- exists e, bind ?m _ = _ => destruct m as [workingBuffer | e]
  end.
  - cbn [bind]. rewrite resolve_truePeakCeiling. cbn [bind]. eexists. reflexivity.
  - cbn [bind]. eexists. reflexivity.
Qed.

(** C1.  The export never completes: [exportToWAV] reads the identifier
    [truePeakCeiling], which nothing in scope declares, so the call throws
    before any byte is encoded, and [exportToAppleLossless], which passes
    the ceiling in the options, fails with it.  For a buffer already at
    48 kHz the error is the [ReferenceError] itself. *)
Theorem exportToAppleLossless_throws (float32_bits : R -> Z) (random : nat -> R)
  (audioBuffer : AudioBuffer.t) (filename : string)
  (options : TrapMasterProEngine.ExportOptions) :
  (exists e,
     TrapMasterProEngine.exportToAppleLossless float32_bits random audioBuffer
       filename options = Err e) /\
  TrapMasterProEngine.exportToAppleLossless float32_bits random
    (AudioBuffer.mk 2 1 48000 [[0.9]; [0.9]]) filename
    {| TrapMasterProEngine.o_bitDepth := Some 24%Z;
       TrapMasterProEngine.o_sampleRate := Some 48000%Z;
       TrapMasterProEngine.o_targetLUFS := None;
       TrapMasterProEngine.o_truePeakCeiling := Some (- 0.5);
       TrapMasterProEngine.o_dither := None;
       TrapMasterProEngine.o_normalize := None |}
  = Err (ReferenceError "truePeakCeiling").
Proof.
  split.
  - unfold TrapMasterProEngine.exportToAppleLossless.
    match goal with
    | |- exists e, bind ?m _ = _ =>
        let H := fresh in
        assert (H : exists e, m = Err e) by apply exportToWAV_throws;
        destruct H as (e & ->)
    end.
    cbn [bind]. eexists. reflexivity.
  - unfold TrapMasterProEngine.exportToAppleLossless,
      TrapMasterProEngine.exportToWAV.
    cbn [TrapMasterProEngine.o_sampleRate TrapMasterProEngine.o_bitDepth
         TrapMasterProEngine.o_targetLUFS TrapMasterProEngine.o_dither
         TrapMasterProEngine.o_normalize TrapMasterProEngine.default
         AudioBuffer.sampleRate Z.eqb Pos.eqb negb andb bind].
    rewrite resolve_truePeakCeiling. reflexivity.
Qed.

(** ** Export: the encoder *)

Lemma storeByte_firstn (k offset : nat) (v : Z) (view : DataView.t) :
  (k <= offset)%nat ->
  firstn k (DataView.storeByte offset v view) = firstn k view.
Proof.
  revert k offset. induction view as [| x rest IH]; intros k offset Hk.
  - destruct offset; reflexivity.
  - destruct offset as [| j].
    + assert (k = 0%nat) by lia. subst k. reflexivity.
    + destruct k as [| k]; [reflexivity |]. cbn. f_equal. apply IH. lia.
Qed.

Lemma setUint8_firstn (k offset : nat) (v : Z) (view : DataView.t) :
  (k <= offset)%nat ->
  firstn k (DataView.setUint8 view offset v) = firstn k view.
Proof. intros H. apply storeByte_firstn, H. Qed.

Lemma setUint16_firstn (k offset : nat) (v : Z) (view : DataView.t) :
  (k <= offset)%nat ->
  firstn k (DataView.setUint16 view offset v) = firstn k view.
Proof.
  intros H. unfold DataView.setUint16. rewrite !storeByte_firstn by lia. reflexivity.
Qed.

Lemma setUint32_firstn (k offset : nat) (v : Z) (view : DataView.t) :
  (k <= offset)%nat ->
  firstn k (DataView.setUint32 view offset v) = firstn k view.
Proof.
  intros H. unfold DataView.setUint32. rewrite !storeByte_firstn by lia. reflexivity.
Qed.

(** The sample loop keeps every invariant its [write] keeps. *)
Lemma writeSamples_inv (P : TrapMasterProEngine.Writer -> Prop)
  (workingBuffer : AudioBuffer.t)
  (write : TrapMasterProEngine.Writer -> R -> TrapMasterProEngine.Writer)
  (w : TrapMasterProEngine.Writer) :
  P w -> (forall w sample, P w -> P (write w sample)) ->
  P (TrapMasterProEngine.writeSamples workingBuffer w write).
Proof.
  intros H0 Hstep. unfold TrapMasterProEngine.writeSamples.
  apply forRange_inv; [exact H0 |].
  intros i w0 Hw0. apply forRange_inv; [exact Hw0 |].
  intros ch w1 Hw1. apply Hstep, Hw1.
Qed.

Lemma ditherIfEnabled_view (random : nat -> R) (w : TrapMasterProEngine.Writer)
  (sample : R) :
  TrapMasterProEngine.view (fst (TrapMasterProEngine.ditherIfEnabled random w sample))
  = TrapMasterProEngine.view w /\
  TrapMasterProEngine.offset (fst (TrapMasterProEngine.ditherIfEnabled random w sample))
  = TrapMasterProEngine.offset w.
Proof.
  unfold TrapMasterProEngine.ditherIfEnabled.
  destruct (TrapMasterProEngine.ditherProcessor w) as [d |]; [| split; reflexivity].
  destruct (ProfessionalDither.applyDither d random _ sample) as [[d' n'] quantized].
  split; reflexivity.
Qed.

Lemma uint32_roundtrip (v : Z) :
  (0 <= v < 4294967296)%Z ->
  let w := (v mod 4294967296)%Z in
  (w mod 256 + 256 * ((w / 256) mod 256)
   + 65536 * ((w / 65536) mod 256 + 256 * (w / 16777216)))%Z = v.
Proof.
  intros H w. unfold w. rewrite (Z.mod_small v 4294967296) by lia.
  pose proof (Z.div_mod v 256 ltac:(lia)) as H1.
  pose proof (Z.div_mod (v / 256) 256 ltac:(lia)) as H2.
  pose proof (Z.div_mod (v / 65536) 256 ltac:(lia)) as H3.
  replace (v / 65536)%Z with (v / 256 / 256)%Z in *
    by (rewrite Z.div_div by lia; reflexivity).
  replace (v / 16777216)%Z with (v / 256 / 256 / 256)%Z
    by (rewrite !Z.div_div by lia; reflexivity).
  lia.
Qed.

(** The validator on a 24-bit PCM header whose sample-rate bytes spell
    [sr]: the report is valid and carries [sr] and 24 bits. *)
Lemma validate_pcm24_header (s0 s1 s2 s3 c0 c1 r0 r1 r2 r3 b0 b1 b2 b3 a0 a1 : Z)
  (rest : list Z) (sr ch : Z) :
  (r0 + 256 * r1 + 65536 * (r2 + 256 * r3))%Z = sr ->
  let report :=
    ExportValidator.validateExportedFile
      (82 :: 73 :: 70 :: 70 :: s0 :: s1 :: s2 :: s3 :: 87 :: 65 :: 86 :: 69
       :: 102 :: 109 :: 116 :: 32 :: 18 :: 0 :: 0 :: 0 :: 1 :: 0 :: c0 :: c1
       :: r0 :: r1 :: r2 :: r3 :: b0 :: b1 :: b2 :: b3 :: a0 :: a1 :: 24 :: 0
       :: rest)%Z
      {| ExportValidator.es_sampleRate := sr; ExportValidator.es_bitDepth := 24;
         ExportValidator.es_channels := ch |} in
  ExportValidator.valid report = true /\
  exists h, ExportValidator.fileHeader report = Some h /\
            ExportValidator.sampleRate h = sr /\
            ExportValidator.bitsPerSample h = 24%Z.
Proof.
  intros Hsr report. unfold report, ExportValidator.validateExportedFile.
  match goal with
  | |- context [DataView.tagAt ?v 0 "RIFF"] =>
      replace (DataView.tagAt v 0 "RIFF") with true by reflexivity;
      replace (DataView.tagAt v 8 "WAVE") with true by reflexivity;
      replace (DataView.tagAt v 12 "fmt ") with true by reflexivity
  end.
  cbn -[Z.add Z.mul Z.eqb].
  rewrite Hsr, Z.eqb_refl. cbn [negb]. rewrite Bool.andb_false_r.
  split; [reflexivity |].
  eexists. split; [reflexivity |]. split; reflexivity.
Qed.

(** The header the 24-bit path writes survives the sample loop. *)
Lemma encodeWAV_24_header (float32_bits : R -> Z) (random : nat -> R)
  (workingBuffer : AudioBuffer.t) (dither : bool) :
  let sr := (AudioBuffer.sampleRate workingBuffer mod 4294967296)%Z in
  exists s0 s1 s2 s3 c0 c1 b0 b1 b2 b3 a0 a1 rest,
    TrapMasterProEngine.view
      (TrapMasterProEngine.encodeWAV float32_bits random workingBuffer 24 dither)
    = (82 :: 73 :: 70 :: 70 :: s0 :: s1 :: s2 :: s3 :: 87 :: 65 :: 86 :: 69
       :: 102 :: 109 :: 116 :: 32 :: 18 :: 0 :: 0 :: 0 :: 1 :: 0 :: c0 :: c1
       :: sr mod 256 :: (sr / 256) mod 256 :: (sr / 65536) mod 256 :: sr / 16777216
       :: b0 :: b1 :: b2 :: b3 :: a0 :: a1 :: 24 :: 0 :: rest)%Z.
Proof.
  intros sr.
  set (w := TrapMasterProEngine.encodeWAV float32_bits random workingBuffer 24 dither).
  assert (Hpre : exists W,
             firstn 36 (TrapMasterProEngine.view w)
             = firstn 36 (TrapMasterProEngine.view W) /\
             firstn 36 (TrapMasterProEngine.view W)
             = firstn 36
                 (DataView.setUint16
                    (DataView.setUint16
                       (DataView.setUint32
                          (DataView.setUint32
                             (DataView.setUint16
                                (DataView.setUint16
                                   (DataView.setUint32
                                      (DataView.writeString
                                         (DataView.writeString
                                            (DataView.setUint32
                                               (DataView.writeString
                                                  (DataView.create
                                                     (50 + AudioBuffer.length workingBuffer
                                                           * (AudioBuffer.numberOfChannels
                                                                workingBuffer * 3)))
                                                  0 "RIFF")
                                               4
                                               (Z.of_nat
                                                  (50 - 8
                                                   + AudioBuffer.length workingBuffer
                                                     * (AudioBuffer.numberOfChannels
                                                          workingBuffer * 3))))
                                            8 "WAVE")
                                         12 "fmt ")
                                      16 18)
                                   20 1)
                                22 (Z.of_nat (AudioBuffer.numberOfChannels workingBuffer)))
                             24 (AudioBuffer.sampleRate workingBuffer))
                          28
                          (AudioBuffer.sampleRate workingBuffer
                           * Z.of_nat (AudioBuffer.numberOfChannels workingBuffer * 3)))
                       32 (Z.of_nat (AudioBuffer.numberOfChannels workingBuffer * 3)))
                    34 24)).
  { unfold w, TrapMasterProEngine.encodeWAV. cbn [Z.eqb Pos.eqb].
    match goal with
    | |- exists W, firstn 36 (TrapMasterProEngine.view
                                (TrapMasterProEngine.writeSamples _ ?w0 _)) = _ /\ _ =>
        exists w0; set (W0 := w0)
    end.
    split.
    - set (P := fun X : TrapMasterProEngine.Writer =>
                  firstn 36 (TrapMasterProEngine.view X)
                  = firstn 36 (TrapMasterProEngine.view W0)
                  /\ (46 <= TrapMasterProEngine.offset X)%nat).
      refine (proj1 (writeSamples_inv P _ _ _ _ _)); [split; [reflexivity | cbn; lia] |].
      intros w1 sample [Hv Ho].
      pose proof (ditherIfEnabled_view random w1 sample) as [Hdv Hdo].
      destruct (TrapMasterProEngine.ditherIfEnabled random w1 sample) as [w' s'].
      cbn [fst] in *. unfold P, TrapMasterProEngine.advance.
      cbn [TrapMasterProEngine.view TrapMasterProEngine.offset].
      rewrite !setUint8_firstn by lia. rewrite Hdv, Hdo. split; [exact Hv | lia].
    - unfold W0. cbn [TrapMasterProEngine.view].
      rewrite setUint32_firstn by lia.
      assert (Hws : forall v, firstn 36 (DataView.writeString v 38 "data") = firstn 36 v).
      { intros v. unfold DataView.writeString.
        rewrite !setUint8_firstn by lia. reflexivity. }
      rewrite Hws, setUint16_firstn by lia. reflexivity. }
  destruct Hpre as (W & Hw & HW).
  rewrite <- (firstn_skipn 36 (TrapMasterProEngine.view w)), Hw, HW.
  unfold DataView.create. cbn [Nat.add repeat].
  unfold DataView.writeString, DataView.setUint32, DataView.setUint16, DataView.setUint8.
  cbn [DataView.storeByte Nat.add firstn app].
  repeat eexists.
Qed.

(** Had the export reached its encoder, the report for a 24-bit export
    would be valid and carry the working buffer's sample rate and 24 bits
    per sample. *)
Lemma encodeWAV_24_validates (float32_bits : R -> Z) (random : nat -> R)
  (workingBuffer : AudioBuffer.t) (dither : bool) :
  (0 <= AudioBuffer.sampleRate workingBuffer < 4294967296)%Z ->
  let report :=
    ExportValidator.validateExportedFile
      (TrapMasterProEngine.view
         (TrapMasterProEngine.encodeWAV float32_bits random workingBuffer 24 dither))
      {| ExportValidator.es_sampleRate := AudioBuffer.sampleRate workingBuffer;
         ExportValidator.es_bitDepth := 24;
         ExportValidator.es_channels :=
           Z.of_nat (AudioBuffer.numberOfChannels workingBuffer) |} in
  ExportValidator.valid report = true /\
  exists h, ExportValidator.fileHeader report = Some h /\
            ExportValidator.sampleRate h = AudioBuffer.sampleRate workingBuffer /\
            ExportValidator.bitsPerSample h = 24%Z.
Proof.
  intros Hsr.
  destruct (encodeWAV_24_header float32_bits random workingBuffer dither)
    as (s0 & s1 & s2 & s3 & c0 & c1 & b0 & b1 & b2 & b3 & a0 & a1 & rest & Hview).
  rewrite Hview. apply validate_pcm24_header.
  apply (uint32_roundtrip _ Hsr).
Qed.

(** ** Export: dithering *)

Lemma ditherIfEnabled_randomCalls (random : nat -> R) (w : TrapMasterProEngine.Writer)
  (sample : R) :
  let w' := fst (TrapMasterProEngine.ditherIfEnabled random w sample) in
  (TrapMasterProEngine.ditherProcessor w' = None
   <-> TrapMasterProEngine.ditherProcessor w = None) /\
  TrapMasterProEngine.randomCalls w'
  = (TrapMasterProEngine.randomCalls w
     + match TrapMasterProEngine.ditherProcessor w with
       | Some _ => 2
       | None => 0
       end)%nat.
Proof.
  unfold TrapMasterProEngine.ditherIfEnabled.
  destruct (TrapMasterProEngine.ditherProcessor w) as [d |] eqn:Ed.
  - unfold ProfessionalDither.applyDither, ProfessionalDither.generateDither.
    cbn [fst TrapMasterProEngine.ditherProcessor TrapMasterProEngine.randomCalls].
    split; [split; discriminate | lia].
  - cbn [fst]. rewrite Ed. split; [tauto | lia].
Qed.

(** The number of [Math.random()] calls of the sample loops: two per
    sample written when a dither processor exists, none otherwise. *)
Lemma samples_randomCalls (workingBuffer : AudioBuffer.t)
  (write : TrapMasterProEngine.Writer -> R -> TrapMasterProEngine.Writer)
  (w0 : TrapMasterProEngine.Writer) :
  (forall w sample,
     (TrapMasterProEngine.ditherProcessor (write w sample) = None
      <-> TrapMasterProEngine.ditherProcessor w = None) /\
     TrapMasterProEngine.randomCalls (write w sample)
     = (TrapMasterProEngine.randomCalls w
        + match TrapMasterProEngine.ditherProcessor w with
          | Some _ => 2
          | None => 0
          end)%nat) ->
  TrapMasterProEngine.randomCalls
    (TrapMasterProEngine.writeSamples workingBuffer w0 write)
  = (TrapMasterProEngine.randomCalls w0
     + match TrapMasterProEngine.ditherProcessor w0 with
       | Some _ => 2 * (AudioBuffer.length workingBuffer
                        * AudioBuffer.numberOfChannels workingBuffer)
       | None => 0
       end)%nat.
Proof.
  intros Hwrite. unfold TrapMasterProEngine.writeSamples.
  set (length := AudioBuffer.length workingBuffer).
  set (numChannels := AudioBuffer.numberOfChannels workingBuffer).
  set (per := fun w : TrapMasterProEngine.Writer =>
                match TrapMasterProEngine.ditherProcessor w with
                | Some _ => 2%nat
                | None => 0%nat
                end).
  assert (Hper : forall w w',
             (TrapMasterProEngine.ditherProcessor w' = None
              <-> TrapMasterProEngine.ditherProcessor w = None) -> per w' = per w).
  { intros w w' H. unfold per.
    destruct (TrapMasterProEngine.ditherProcessor w);
      destruct (TrapMasterProEngine.ditherProcessor w'); try reflexivity;
      destruct H as [H1 H2];
      first [discriminate (H1 eq_refl) | discriminate (H2 eq_refl)]. }
  set (P := fun (count : nat) (w : TrapMasterProEngine.Writer) =>
              per w = per w0 /\
              TrapMasterProEngine.randomCalls w
              = (TrapMasterProEngine.randomCalls w0 + count * per w0)%nat).
  assert (Hall : P (length * numChannels)%nat
                   (forRange length
                      (fun i w =>
                         forRange numChannels
                           (fun ch w =>
                              write w (TrapMasterProEngine.clamp
                                         (AudioBuffer.get workingBuffer ch i)))
                           w)
                      w0)).
  { apply (forRange_ind (fun i w => P (i * numChannels)%nat w)).
    - unfold P. split; [reflexivity | lia].
    - intros i w Hi Hw.
      replace (S i * numChannels)%nat with (i * numChannels + numChannels)%nat by lia.
      apply (forRange_ind (fun ch w => P (i * numChannels + ch)%nat w)).
      + rewrite Nat.add_0_r. exact Hw.
      + intros ch w1 Hch [Hp Hc]. unfold P.
        destruct (Hwrite w1 (TrapMasterProEngine.clamp
                               (AudioBuffer.get workingBuffer ch i))) as [Hd Hn].
        split.
        * rewrite (Hper _ _ Hd). exact Hp.
        * rewrite Hn, Hc. fold (per w1). rewrite Hp. lia. }
  destruct Hall as [_ Hc]. rewrite Hc. unfold per.
  destruct (TrapMasterProEngine.ditherProcessor w0); lia.
Qed.

Lemma encodeWAV_randomCalls (float32_bits : R -> Z) (random : nat -> R)
  (workingBuffer : AudioBuffer.t) (bitDepth : Z) (dither : bool) :
  TrapMasterProEngine.randomCalls
    (TrapMasterProEngine.encodeWAV float32_bits random workingBuffer bitDepth dither)
  = if (dither && (bitDepth <? 32)%Z)%bool
    then (2 * (AudioBuffer.length workingBuffer
               * AudioBuffer.numberOfChannels workingBuffer))%nat
    else 0%nat.
Proof.
  unfold TrapMasterProEngine.encodeWAV.
  destruct (bitDepth =? 32)%Z eqn:E32; [| destruct (bitDepth =? 24)%Z eqn:E24].
  - apply Z.eqb_eq in E32. subst bitDepth. rewrite Bool.andb_false_r.
    apply (writeSamples_inv (fun w => TrapMasterProEngine.randomCalls w = 0%nat));
      [reflexivity |].
    intros w sample Hw. exact Hw.
  - apply Z.eqb_eq in E24. subst bitDepth.
    rewrite samples_randomCalls.
    + cbn [TrapMasterProEngine.randomCalls TrapMasterProEngine.ditherProcessor].
      destruct dither; reflexivity.
    + intros w sample.
      pose proof (ditherIfEnabled_randomCalls random w sample) as Hd.
      destruct (TrapMasterProEngine.ditherIfEnabled random w sample) as [w' s'].
      exact Hd.
  - rewrite samples_randomCalls.
    + cbn [TrapMasterProEngine.randomCalls TrapMasterProEngine.ditherProcessor].
      destruct (dither && (bitDepth <? 32)%Z)%bool; reflexivity.
    + intros w sample.
      pose proof (ditherIfEnabled_randomCalls random w sample) as Hd.
      destruct (TrapMasterProEngine.ditherIfEnabled random w sample) as [w' s'].
      exact Hd.
Qed.

(** With the [dither] option on, the encoder dithers a buffer that holds
    at least one sample exactly when the bit depth is one of the two
    integer formats. *)
Lemma encodeWAV_dithers_iff_narrowing (float32_bits : R -> Z) (random : nat -> R)
  (workingBuffer : AudioBuffer.t) (bitDepth : Z) :
  (0 < AudioBuffer.length workingBuffer * AudioBuffer.numberOfChannels workingBuffer)%nat ->
  bitDepth = 16%Z \/ bitDepth = 24%Z \/ bitDepth = 32%Z ->
  (ditherApplied
     (TrapMasterProEngine.encodeWAV float32_bits random workingBuffer bitDepth true)
   <-> narrowsToInteger bitDepth).
Proof.
  intros Hlen Hdepth. unfold ditherApplied, narrowsToInteger.
  rewrite encodeWAV_randomCalls.
  destruct Hdepth as [-> | [-> | ->]]; cbn [andb Z.ltb Z.compare Pos.compare
                                            Pos.compare_cont].
  - split; [intros _; left; reflexivity | intros _; lia].
  - split; [intros _; right; reflexivity | intros _; lia].
  - split; [intros H; exfalso; apply H; reflexivity | intros [H | H]; discriminate H].
Qed.

(** A 32-bit float encoding holds the same bytes with the [dither] option
    on or off, whatever the random source. *)
Lemma encodeWAV_float_ignores_dither (float32_bits : R -> Z) (random random' : nat -> R)
  (workingBuffer : AudioBuffer.t) :
  TrapMasterProEngine.view
    (TrapMasterProEngine.encodeWAV float32_bits random workingBuffer 32 true)
  = TrapMasterProEngine.view
      (TrapMasterProEngine.encodeWAV float32_bits random' workingBuffer 32 false).
Proof. reflexivity. Qed.

(** C5.  The export as shipped does not meet the claim.  A 24-bit export
    with the [dither] option on narrows the floating-point buffer to an
    integer format, and the encoder lines of [exportToWAV] would dither
    this very buffer; but the function throws on its read of
    [truePeakCeiling] before it reaches them, so the call ends in a
    [ReferenceError]: no byte is written and no dither is applied. *)
Theorem narrowing_export_throws_before_dithering (float32_bits : R -> Z)
  (random : nat -> R) (filename : string) :
  let audioBuffer := AudioBuffer.mk 2 1 48000 [[0.5]; [0.25]] in
  let options :=
    {| TrapMasterProEngine.o_bitDepth := Some 24%Z;
       TrapMasterProEngine.o_sampleRate := None;
       TrapMasterProEngine.o_targetLUFS := None;
       TrapMasterProEngine.o_truePeakCeiling := None;
       TrapMasterProEngine.o_dither := Some true;
       TrapMasterProEngine.o_normalize := None |} in
  narrowsToInteger 24 /\
  ditherApplied (TrapMasterProEngine.encodeWAV float32_bits random audioBuffer 24 true) /\
  TrapMasterProEngine.exportToWAV float32_bits random audioBuffer filename options
  = Err (ReferenceError "truePeakCeiling").
Proof.
  intros audioBuffer options.
  split; [right; reflexivity |]. split.
  - unfold ditherApplied. rewrite encodeWAV_randomCalls. cbn. lia.
  - unfold TrapMasterProEngine.exportToWAV, options.
    cbn [TrapMasterProEngine.o_sampleRate TrapMasterProEngine.o_bitDepth
         TrapMasterProEngine.o_targetLUFS TrapMasterProEngine.o_dither
         TrapMasterProEngine.o_normalize TrapMasterProEngine.default bind].
    rewrite resolve_truePeakCeiling. reflexivity.
Qed.

(** ** Loudness normalization *)

Lemma sumsq_loop (data : list R) :
  forall (pre : list R) (acc : R),
  fold_left (fun acc i => acc + nth i (pre ++ data) 0 * nth i (pre ++ data) 0)
    (seq (List.length pre) (List.length data)) acc
  = acc + sumsq data.
Proof.
  induction data as [| x rest IH]; intros pre acc; cbn [List.length seq fold_left sumsq fold_right].
  - ring.
  - rewrite nth_middle.
    replace (pre ++ x :: rest) with ((pre ++ [x]) ++ rest)
      by (rewrite <- app_assoc; reflexivity).
    replace (S (List.length pre)) with (List.length (pre ++ [x]))
      by (rewrite length_app; cbn; lia).
    rewrite IH. fold (sumsq rest). ring.
Qed.

Lemma sumsq_forRange (data : list R) (acc : R) :
  forRange (List.length data) (fun i acc => acc + nth i data 0 * nth i data 0) acc
  = acc + sumsq data.
Proof. exact (sumsq_loop data [] acc). Qed.

Lemma sumsqAll_loop (len : nat) (chans : list (list R)) :
  Forall (fun data => List.length data = len) chans ->
  forall (pre : list (list R)) (acc : R),
  fold_left
    (fun acc ch =>
       forRange len
         (fun i acc => acc + nth i (nth ch (pre ++ chans) []) 0
                             * nth i (nth ch (pre ++ chans) []) 0) acc)
    (seq (List.length pre) (List.length chans)) acc
  = acc + sumsqAll chans.
Proof.
  intros Hall. induction Hall as [| data rest Hd _ IH]; intros pre acc;
    cbn [List.length seq fold_left sumsqAll fold_right].
  - ring.
  - rewrite nth_middle, <- Hd, sumsq_forRange.
    replace (pre ++ data :: rest) with ((pre ++ [data]) ++ rest)
      by (rewrite <- app_assoc; reflexivity).
    replace (S (List.length pre)) with (List.length (pre ++ [data]))
      by (rewrite length_app; cbn; lia).
    rewrite Hd, IH. fold (sumsqAll rest). ring.
Qed.

Lemma sumsqAll_forRange (len : nat) (chans : list (list R)) (acc : R) :
  Forall (fun data => List.length data = len) chans ->
  forRange (List.length chans)
    (fun ch acc =>
       forRange len
         (fun i acc => acc + nth i (nth ch chans []) 0 * nth i (nth ch chans []) 0) acc)
    acc
  = acc + sumsqAll chans.
Proof. intros Hall. exact (sumsqAll_loop len chans Hall [] acc). Qed.

(** On a valid buffer the validator's loop computes the mean square of all
    samples. *)
Lemma measureLUFS_valid (b : AudioBuffer.t) :
  AudioBuffer.valid b ->
  ExportValidator.measureLUFS b = Rmax (- 70) (Rmin 0 (loudnessOf (rmsOf b))).
Proof.
  intros (_ & _ & Hn & Hall).
  unfold ExportValidator.measureLUFS, loudnessOf, rmsOf, AudioBuffer.getChannelData.
  cbv zeta. rewrite <- Hn, (sumsqAll_forRange _ _ 0 Hall), Rplus_0_l. reflexivity.
Qed.

Lemma calculateGain_valid (self : LosslessNormalizer.t) (b : AudioBuffer.t) :
  AudioBuffer.valid b ->
  LosslessNormalizer.calculateGain self b
  = Rmin (JS.pow10 ((LosslessNormalizer.targetLUFS self - loudnessOf (rmsOf b)) / 20)) 2.
Proof.
  intros (_ & _ & Hn & Hall).
  unfold LosslessNormalizer.calculateGain, loudnessOf, rmsOf, AudioBuffer.getChannelData.
  cbv zeta. rewrite <- Hn, (sumsqAll_forRange _ _ 0 Hall), Rplus_0_l. reflexivity.
Qed.

Lemma store_middle (pre rest : list R) (x v : R) :
  AudioBuffer.store (List.length pre) v (pre ++ x :: rest) = pre ++ v :: rest.
Proof. induction pre as [| y pre IH]; cbn; [reflexivity | rewrite IH; reflexivity]. Qed.

Lemma storeChannel_middle (pre rest : list (list R)) (data : list R)
  (f : list R -> list R) :
  AudioBuffer.storeChannel (List.length pre) f (pre ++ data :: rest)
  = pre ++ f data :: rest.
Proof. induction pre as [| y pre IH]; cbn; [reflexivity | rewrite IH; reflexivity]. Qed.

Lemma set_get_middle (F : R -> R) (n l : nat) (sr : Z) (cpre crest : list (list R))
  (dpre rest : list R) (x : R) :
  let b := AudioBuffer.mk n l sr (cpre ++ (dpre ++ x :: rest) :: crest) in
  AudioBuffer.set b (List.length cpre) (List.length dpre)
    (F (AudioBuffer.get b (List.length cpre) (List.length dpre)))
  = AudioBuffer.mk n l sr (cpre ++ (dpre ++ F x :: rest) :: crest).
Proof.
  intros b. unfold b, AudioBuffer.get, AudioBuffer.getChannelData, AudioBuffer.set.
  cbn [AudioBuffer.channels AudioBuffer.numberOfChannels AudioBuffer.length
       AudioBuffer.sampleRate].
  rewrite storeChannel_middle, nth_middle, nth_middle, store_middle. reflexivity.
Qed.

(** A loop [data[i] = F(data[i])] over one channel array maps [F] over
    it. *)
Lemma mapChannel_loop (F : R -> R) (n l : nat) (sr : Z) (cpre crest : list (list R))
  (data : list R) :
  forall dpre : list R,
  fold_left
    (fun b i =>
       AudioBuffer.set b (List.length cpre) i
         (F (AudioBuffer.get b (List.length cpre) i)))
    (seq (List.length dpre) (List.length data))
    (AudioBuffer.mk n l sr (cpre ++ (dpre ++ data) :: crest))
  = AudioBuffer.mk n l sr (cpre ++ (dpre ++ map F data) :: crest).
Proof.
  induction data as [| x rest IH]; intros dpre; cbn [List.length seq fold_left map].
  - reflexivity.
  - rewrite (set_get_middle F n l sr cpre crest dpre rest x).
    replace (dpre ++ F x :: rest) with ((dpre ++ [F x]) ++ rest)
      by (rewrite <- app_assoc; reflexivity).
    replace (S (List.length dpre)) with (List.length (dpre ++ [F x]))
      by (rewrite length_app; cbn; lia).
    rewrite IH, <- app_assoc. reflexivity.
Qed.

Lemma mapChannel_forRange (F : R -> R) (n l : nat) (sr : Z)
  (cpre crest : list (list R)) (data : list R) (len : nat) :
  List.length data = len ->
  forRange len
    (fun i b =>
       AudioBuffer.set b (List.length cpre) i
         (F (AudioBuffer.get b (List.length cpre) i)))
    (AudioBuffer.mk n l sr (cpre ++ data :: crest))
  = AudioBuffer.mk n l sr (cpre ++ map F data :: crest).
Proof. intros <-. exact (mapChannel_loop F n l sr cpre crest data []). Qed.

Lemma mapBuffer_loop (F : R -> R) (n l : nat) (sr : Z) (len : nat)
  (crest : list (list R)) :
  Forall (fun data => List.length data = len) crest ->
  forall cpre : list (list R),
  fold_left
    (fun b ch =>
       forRange len (fun i b => AudioBuffer.set b ch i (F (AudioBuffer.get b ch i))) b)
    (seq (List.length cpre) (List.length crest))
    (AudioBuffer.mk n l sr (cpre ++ crest))
  = AudioBuffer.mk n l sr (cpre ++ map (map F) crest).
Proof.
  intros Hall. induction Hall as [| data rest Hd _ IH]; intros cpre;
    cbn [List.length seq fold_left map].
  - reflexivity.
  - rewrite (mapChannel_forRange F n l sr cpre rest data len Hd).
    replace (cpre ++ map F data :: rest) with ((cpre ++ [map F data]) ++ rest)
      by (rewrite <- app_assoc; reflexivity).
    replace (S (List.length cpre)) with (List.length (cpre ++ [map F data]))
      by (rewrite length_app; cbn; lia).
    rewrite IH, <- app_assoc. reflexivity.
Qed.

(** On a valid buffer [normalize] multiplies every sample by the gain. *)
Lemma normalize_valid (self : LosslessNormalizer.t) (b : AudioBuffer.t) :
  AudioBuffer.valid b ->
  LosslessNormalizer.normalize self b
  = AudioBuffer.mk (AudioBuffer.numberOfChannels b) (AudioBuffer.length b)
      (AudioBuffer.sampleRate b)
      (map (map (fun x => x * LosslessNormalizer.calculateGain self b))
         (AudioBuffer.channels b)).
Proof.
  intros (_ & _ & Hn & Hall). unfold LosslessNormalizer.normalize. cbv zeta.
  set (g := LosslessNormalizer.calculateGain self b).
  rewrite <- Hn at 1. destruct b as [n l sr chans]. cbn [AudioBuffer.channels
    AudioBuffer.numberOfChannels AudioBuffer.length AudioBuffer.sampleRate] in *.
  exact (mapBuffer_loop (fun x => x * g) n l sr l chans Hall []).
Qed.

Lemma sumsq_scale (g : R) (data : list R) :
  sumsq (map (fun x => x * g) data) = g * g * sumsq data.
Proof.
  induction data as [| x rest IH]; cbn [map sumsq fold_right].
  - ring.
  - fold (sumsq (map (fun x => x * g) rest)). fold (sumsq rest). rewrite IH. ring.
Qed.

Lemma sumsqAll_scale (g : R) (chans : list (list R)) :
  sumsqAll (map (map (fun x => x * g)) chans) = g * g * sumsqAll chans.
Proof.
  induction chans as [| data rest IH]; cbn [map sumsqAll fold_right].
  - ring.
  - fold (sumsqAll (map (map (fun x => x * g)) rest)). fold (sumsqAll rest).
    rewrite IH, sumsq_scale. ring.
Qed.

Lemma sumsq_nonneg (data : list R) : 0 <= sumsq data.
Proof.
  induction data as [| x rest IH]; cbn [sumsq fold_right]; [lra |].
  fold (sumsq rest). nra.
Qed.

Lemma sumsqAll_nonneg (chans : list (list R)) : 0 <= sumsqAll chans.
Proof.
  induction chans as [| data rest IH]; cbn [sumsqAll fold_right]; [lra |].
  fold (sumsqAll rest). pose proof (sumsq_nonneg data). lra.
Qed.

Lemma calculateGain_pos (self : LosslessNormalizer.t) (b : AudioBuffer.t) :
  AudioBuffer.valid b -> 0 < LosslessNormalizer.calculateGain self b.
Proof.
  intros Hv. rewrite (calculateGain_valid self b Hv).
  apply Rmin_glb_lt; [apply pow10_pos | lra].
Qed.

Lemma normalize_is_valid (self : LosslessNormalizer.t) (b : AudioBuffer.t) :
  AudioBuffer.valid b -> AudioBuffer.valid (LosslessNormalizer.normalize self b).
Proof.
  intros Hv. apply (valid_shape b); [| exact Hv].
  rewrite (normalize_valid self b Hv). unfold AudioBuffer.shape.
  cbn [AudioBuffer.numberOfChannels AudioBuffer.length AudioBuffer.sampleRate
       AudioBuffer.channels].
  f_equal. rewrite map_map. apply map_ext. intros data. apply length_map.
Qed.

(** Normalizing scales the root mean square by the gain. *)
Lemma rmsOf_normalize (self : LosslessNormalizer.t) (b : AudioBuffer.t) :
  AudioBuffer.valid b ->
  rmsOf (LosslessNormalizer.normalize self b)
  = LosslessNormalizer.calculateGain self b * rmsOf b.
Proof.
  intros Hv. pose proof (calculateGain_pos self b Hv) as Hg.
  rewrite (normalize_valid self b Hv). unfold rmsOf.
  cbn [AudioBuffer.numberOfChannels AudioBuffer.length AudioBuffer.channels].
  set (g := LosslessNormalizer.calculateGain self b) in *.
  rewrite sumsqAll_scale.
  destruct Hv as (Hc & Hl & _ & _).
  assert (HN : 0 < INR (AudioBuffer.length b) * INR (AudioBuffer.numberOfChannels b)).
  { apply Rmult_lt_0_compat; apply lt_0_INR; lia. }
  set (N := INR (AudioBuffer.length b) * INR (AudioBuffer.numberOfChannels b)) in *.
  replace (g * g * sumsqAll (AudioBuffer.channels b) / N)
    with (g * g * (sumsqAll (AudioBuffer.channels b) / N)) by (field; lra).
  rewrite sqrt_mult.
  - rewrite sqrt_square by lra. reflexivity.
  - nra.
  - apply Rmult_le_pos; [apply sumsqAll_nonneg |].
    left. apply Rinv_0_lt_compat, HN.
Qed.

Lemma rmsOf_nonneg (b : AudioBuffer.t) : 0 <= rmsOf b.
Proof. apply sqrt_pos. Qed.

(** The arithmetic of one normalization step on the clamped loudness
    scale: from a loudness within 0.1 of the target the step moves the
    clamped loudness by less than 0.1. *)
Lemma normalize_step_small (target rms : R) :
  0 <= rms ->
  let clampL := fun x => Rmax (- 70) (Rmin 0 x) in
  let gain := Rmin (JS.pow10 ((target - loudnessOf rms) / 20)) 2 in
  Rabs (clampL (loudnessOf rms) - target) <= 0.1 ->
  Rabs (clampL (loudnessOf (gain * rms)) - clampL (loudnessOf rms)) < 0.1.
Proof.
  intros Hrms clampL gain Hnear.
  assert (Hg : 0 < gain).
  { unfold gain. apply Rmin_glb_lt; [apply pow10_pos | lra]. }
  destruct (Rle_lt_or_eq_dec 0 rms Hrms) as [Hpos | Hzero].
  - (* audible buffer *)
    assert (Hgr : 0 < gain * rms) by (apply Rmult_lt_0_compat; assumption).
    set (L := loudnessOf rms) in *.
    assert (HL : L = - 0.691 + 10 * JS.log10 rms).
    { unfold L, loudnessOf. rewrite gt_true by lra. reflexivity. }
    assert (HL' : loudnessOf (gain * rms) = L + 10 * JS.log10 gain).
    { unfold loudnessOf. rewrite gt_true by lra.
      rewrite log10_mult by assumption. rewrite HL. ring. }
    rewrite HL'. set (d := 10 * JS.log10 gain).
    set (x := (target - L) / 20) in *.
    assert (Hd : (x <= 0 /\ d = 10 * x) \/ (0 < x /\ 0 <= d <= 10 * x)).
    { destruct (Rle_lt_dec x 0) as [Hx | Hx].
      - left. split; [exact Hx |].
        assert (Hp : JS.pow10 x <= 1) by (rewrite <- pow10_0; apply pow10_le, Hx).
        unfold d, gain. rewrite Rmin_left by lra. rewrite log10_pow10. reflexivity.
      - right. split; [exact Hx |].
        assert (Hp : 1 < JS.pow10 x) by (rewrite <- pow10_0; apply pow10_lt, Hx).
        assert (H1 : 1 <= gain).
        { unfold gain. apply Rmin_glb; lra. }
        assert (Hle : gain <= JS.pow10 x) by apply Rmin_l.
        unfold d. split.
        + apply (log10_le 1 gain) in H1; [| lra]. rewrite log10_1 in H1. lra.
        + apply (log10_le gain _ Hg) in Hle. rewrite log10_pow10 in Hle. lra. }
    clearbody d L. unfold x in Hd. clear - Hd Hnear. unfold clampL in *.
    unfold Rabs, Rmax, Rmin in *.
    repeat match goal with
           | |- context [Rle_dec ?a ?b] => destruct (Rle_dec a b)
           | |- context [Rcase_abs ?a] => destruct (Rcase_abs a)
           | H : context [Rle_dec ?a ?b] |- _ => destruct (Rle_dec a b)
           | H : context [Rcase_abs ?a] |- _ => destruct (Rcase_abs a)
           end; lra.
  - (* silence *)
    subst rms. rewrite Rmult_0_r.
    replace (clampL (loudnessOf 0) - clampL (loudnessOf 0)) with 0 by ring.
    rewrite Rabs_R0. lra.
Qed.

Lemma measureLUFS_normalize (self : LosslessNormalizer.t) (b : AudioBuffer.t) :
  AudioBuffer.valid b ->
  ExportValidator.measureLUFS (LosslessNormalizer.normalize self b)
  = Rmax (- 70)
      (Rmin 0 (loudnessOf (LosslessNormalizer.calculateGain self b * rmsOf b))).
Proof.
  intros Hv. rewrite (measureLUFS_valid _ (normalize_is_valid self b Hv)).
  rewrite (rmsOf_normalize self b Hv). reflexivity.
Qed.

(** C3, amended.  For a valid buffer whose measured loudness is within
    0.1 dB of the target, normalizing to that target changes the measured
    loudness by less than 0.1 dB. *)
Theorem normalize_near_target_is_stable (target sampleRate : R) (b : AudioBuffer.t) :
  AudioBuffer.valid b ->
  Rabs (ExportValidator.measureLUFS b - target) <= 0.1 ->
  Rabs (ExportValidator.measureLUFS
          (LosslessNormalizer.normalize (LosslessNormalizer.new target sampleRate) b)
        - ExportValidator.measureLUFS b) < 0.1.
Proof.
  intros Hv Hnear.
  rewrite (measureLUFS_normalize _ b Hv), (calculateGain_valid _ b Hv).
  rewrite (measureLUFS_valid b Hv) in *.
  cbn [LosslessNormalizer.new LosslessNormalizer.targetLUFS].
  apply (normalize_step_small target (rmsOf b) (rmsOf_nonneg b)). exact Hnear.
Qed.

Lemma loudnessOf_pow10 (x : R) : loudnessOf (JS.pow10 x) = - 0.691 + 10 * x.
Proof.
  unfold loudnessOf. rewrite gt_true by apply pow10_pos.
  rewrite log10_pow10. reflexivity.
Qed.

Lemma gain_below_unity (x : R) : x <= 0 -> Rmin (JS.pow10 x) 2 = JS.pow10 x.
Proof.
  intros Hx. apply Rmin_left.
  assert (H : JS.pow10 x <= 1) by (rewrite <- pow10_0; apply pow10_le, Hx). lra.
Qed.

Lemma clamp_inside (x : R) : - 70 <= x <= 0 -> Rmax (- 70) (Rmin 0 x) = x.
Proof.
  intros Hx. unfold Rmax, Rmin.
  destruct (Rle_dec 0 x); destruct (Rle_dec (- 70) _); lra.
Qed.

Lemma unit_buffer_valid (x : R) : AudioBuffer.valid (AudioBuffer.mk 1 1 48000 [[x]]).
Proof.
  unfold AudioBuffer.valid. cbn. repeat split; try lia. repeat constructor.
Qed.

Lemma unit_buffer_rms : rmsOf (AudioBuffer.mk 1 1 48000 [[1]]) = JS.pow10 0.
Proof.
  unfold rmsOf. cbn.
  replace ((1 * 1 + 0 + 0) / (1 * 1)) with 1 by field.
  rewrite sqrt_1, pow10_0. reflexivity.
Qed.

Lemma loudnessOf_scale (g r : R) :
  0 < g -> 0 < r -> loudnessOf (g * r) = loudnessOf r + 10 * JS.log10 g.
Proof.
  intros Hg Hr. unfold loudnessOf.
  rewrite !gt_true by (try apply Rmult_lt_0_compat; lra).
  rewrite log10_mult by assumption. ring.
Qed.

Lemma log10_10 : JS.log10 10 = 1.
Proof. unfold JS.log10. field. apply Rgt_not_eq, ln10_pos. Qed.

(** [1/4 < log10 2 < 1/3], from [2^4 > 10 > 2^3]. *)
Lemma log10_2_bounds : / 4 < JS.log10 2 < / 3.
Proof.
  split.
  - assert (H : JS.log10 10 < JS.log10 (2 * 2 * (2 * 2))) by (apply log10_lt; lra).
    rewrite log10_10, !log10_mult in H by lra. lra.
  - assert (H : JS.log10 (2 * 2 * 2) < JS.log10 10) by (apply log10_lt; lra).
    rewrite log10_10, !log10_mult in H by lra. lra.
Qed.

(** The gain is capped at 2 as soon as the target is more than 20/3 dB
    above the current loudness. *)
Lemma gain_capped (x : R) : / 3 <= x -> Rmin (JS.pow10 x) 2 = 2.
Proof.
  intros Hx. apply Rmin_right.
  rewrite <- (pow10_log10 2) at 1 by lra. apply pow10_le.
  pose proof log10_2_bounds. lra.
Qed.

Lemma pow10_minus_2 : JS.pow10 (- 2) = 0.01.
Proof.
  unfold JS.pow10. replace (- 2) with (- INR 2) by (cbn; lra).
  rewrite Rpower_Ropp, Rpower_pow by lra. cbn. lra.
Qed.

Lemma quiet_buffer_rms : rmsOf (AudioBuffer.mk 1 1 48000 [[0.01]]) = JS.pow10 (- 2).
Proof.
  unfold rmsOf. cbn.
  replace ((0.01 * 0.01 + 0 + 0) / (1 * 1)) with (0.01 * 0.01) by field.
  rewrite sqrt_square by lra. symmetry. apply pow10_minus_2.
Qed.

(** C3, as stated, fails: a quiet one-sample buffer (amplitude 0.01,
    loudness -20.691) needs more than the +6 dB the gain is capped at to
    reach the target -9, so each normalization applies the full gain of 2
    and the second one still moves the measured loudness, by [10 * log10 2]
    (about 3 dB). *)
Lemma renormalizing_moves_loudness :
  let b := AudioBuffer.mk 1 1 48000 [[0.01]] in
  let normalizer := LosslessNormalizer.new (- 9) 48000 in
  let once := LosslessNormalizer.normalize normalizer b in
  let twice := LosslessNormalizer.normalize normalizer once in
  ~ (Rabs (ExportValidator.measureLUFS twice - ExportValidator.measureLUFS once) < 0.1).
Proof.
  intros b normalizer once twice.
  pose proof log10_2_bounds as Hlog.
  pose proof (unit_buffer_valid 0.01) as Hv. fold b in Hv.
  pose proof (normalize_is_valid normalizer b Hv) as Hv1. fold once in Hv1.
  pose proof (pow10_pos (- 2)) as Hp.
  assert (Hg1 : LosslessNormalizer.calculateGain normalizer b = 2).
  { rewrite (calculateGain_valid _ b Hv). unfold b. rewrite quiet_buffer_rms.
    rewrite loudnessOf_pow10. cbn [normalizer LosslessNormalizer.new
      LosslessNormalizer.targetLUFS].
    apply gain_capped. lra. }
  assert (Hr1 : rmsOf once = 2 * JS.pow10 (- 2)).
  { unfold once. rewrite (rmsOf_normalize _ b Hv), Hg1. unfold b.
    rewrite quiet_buffer_rms. reflexivity. }
  assert (HL1 : loudnessOf (rmsOf once) = - 20.691 + 10 * JS.log10 2).
  { rewrite Hr1, loudnessOf_scale, loudnessOf_pow10 by lra. lra. }
  assert (Hm1 : ExportValidator.measureLUFS once = - 20.691 + 10 * JS.log10 2).
  { rewrite (measureLUFS_valid once Hv1), HL1. rewrite clamp_inside; lra. }
  assert (Hg2 : LosslessNormalizer.calculateGain normalizer once = 2).
  { rewrite (calculateGain_valid _ once Hv1), HL1.
    cbn [normalizer LosslessNormalizer.new LosslessNormalizer.targetLUFS].
    apply gain_capped. lra. }
  assert (Hm2 : ExportValidator.measureLUFS twice
                = - 20.691 + 10 * JS.log10 2 + 10 * JS.log10 2).
  { unfold twice. rewrite (measureLUFS_normalize _ once Hv1), Hg2.
    rewrite loudnessOf_scale, HL1 by (rewrite ?Hr1; lra).
    rewrite clamp_inside; lra. }
  rewrite Hm1, Hm2. unfold Rabs.
  destruct (Rcase_abs _); lra.
Qed.

(** An attenuating normalization, where the cap plays no part: a
    full-scale one-sample buffer normalized to -20.691 measures -10.691
    afterwards, and -15.691 after a second normalization to the same
    target. *)
Lemma attenuating_twice_moves_loudness :
  let b := AudioBuffer.mk 1 1 48000 [[1]] in
  let normalizer := LosslessNormalizer.new (- 20.691) 48000 in
  let once := LosslessNormalizer.normalize normalizer b in
  let twice := LosslessNormalizer.normalize normalizer once in
  ~ (Rabs (ExportValidator.measureLUFS twice - ExportValidator.measureLUFS once) < 0.1).
Proof.
  intros b normalizer once twice.
  pose proof (unit_buffer_valid 1) as Hv. fold b in Hv.
  pose proof (normalize_is_valid normalizer b Hv) as Hv1. fold once in Hv1.
  assert (Hg1 : LosslessNormalizer.calculateGain normalizer b = JS.pow10 (- 1)).
  { rewrite (calculateGain_valid _ b Hv). unfold b. rewrite unit_buffer_rms.
    rewrite loudnessOf_pow10. cbn [normalizer LosslessNormalizer.new
      LosslessNormalizer.targetLUFS].
    replace ((- 20.691 - (- 0.691 + 10 * 0)) / 20) with (- 1) by lra.
    apply gain_below_unity. lra. }
  assert (Hr1 : rmsOf once = JS.pow10 (- 1)).
  { unfold once. rewrite (rmsOf_normalize _ b Hv), Hg1. unfold b.
    rewrite unit_buffer_rms, pow10_0. ring. }
  assert (Hm1 : ExportValidator.measureLUFS once = - 10.691).
  { rewrite (measureLUFS_valid once Hv1), Hr1, loudnessOf_pow10.
    rewrite clamp_inside; lra. }
  assert (Hg2 : LosslessNormalizer.calculateGain normalizer once = JS.pow10 (- 0.5)).
  { rewrite (calculateGain_valid _ once Hv1), Hr1, loudnessOf_pow10.
    cbn [normalizer LosslessNormalizer.new LosslessNormalizer.targetLUFS].
    replace ((- 20.691 - (- 0.691 + 10 * - 1)) / 20) with (- 0.5) by lra.
    apply gain_below_unity. lra. }
  assert (Hm2 : ExportValidator.measureLUFS twice = - 15.691).
  { unfold twice. rewrite (measureLUFS_normalize _ once Hv1), Hg2, Hr1.
    unfold JS.pow10 at 1 2. rewrite <- Rpower_plus. fold (JS.pow10 (- 0.5 + - 1)).
    rewrite loudnessOf_pow10. rewrite clamp_inside; lra. }
  rewrite Hm1, Hm2. unfold Rabs.
  destruct (Rcase_abs (- 15.691 - - 10.691)); lra.
Qed.

Lemma normalize_near_target_is_stable_witness :
  let b := AudioBuffer.mk 1 1 48000 [[1]] in
  AudioBuffer.valid b /\
  Rabs (ExportValidator.measureLUFS b - - 0.7) <= 0.1 /\
  Rabs (ExportValidator.measureLUFS
          (LosslessNormalizer.normalize (LosslessNormalizer.new (- 0.7) 48000) b)
        - ExportValidator.measureLUFS b) < 0.1.
Proof.
  intros b.
  assert (Hv : AudioBuffer.valid b) by apply unit_buffer_valid.
  assert (Hm : ExportValidator.measureLUFS b = - 0.691).
  { rewrite (measureLUFS_valid b Hv). unfold b.
    rewrite unit_buffer_rms, loudnessOf_pow10. rewrite clamp_inside; lra. }
  assert (Hnear : Rabs (ExportValidator.measureLUFS b - - 0.7) <= 0.1).
  { rewrite Hm. unfold Rabs. destruct (Rcase_abs (- 0.691 - - 0.7)); lra. }
  split; [exact Hv |]. split; [exact Hnear |].
  exact (normalize_near_target_is_stable (- 0.7) 48000 b Hv Hnear).
Defined.

(** * Further properties of the DSP primitives *)

Lemma tanh_range (x : R) : 0 <= x -> 0 <= tanh x < 1.
Proof.
  intros Hx. unfold tanh, sinh, cosh.
  pose proof (exp_pos x) as Hp. pose proof (exp_pos (- x)) as Hn.
  assert (Hle : exp (- x) <= exp x).
  { destruct Hx as [Hx | <-].
    - left. apply exp_increasing. lra.
    - rewrite Ropp_0. lra. }
  assert (Hc : 0 < (exp x + exp (- x)) / 2) by lra.
  split.
  - apply Rmult_le_pos; [lra | left; apply Rinv_0_lt_compat, Hc].
  - apply (Rmult_lt_reg_r ((exp x + exp (- x)) / 2)); [exact Hc |].
    unfold Rdiv at 1. rewrite Rmult_assoc, Rinv_l by lra. lra.
Qed.

Lemma releaseCoeff_range (release sampleRate : R) :
  0 < release * sampleRate -> 0 < exp (- 1 / (release * sampleRate)) < 1.
Proof.
  intros H. split; [apply exp_pos |].
  rewrite <- exp_0. apply exp_increasing.
  unfold Rdiv. assert (0 < / (release * sampleRate)) by (apply Rinv_0_lt_compat, H).
  lra.
Qed.

(** ** Limiter *)

Lemma limiter_process_bound (self : Limiter.t) (sample : R) :
  0 <= Limiter.ceiling self ->
  0 < Limiter.release self * Limiter.sampleRate self ->
  0 <= Limiter.gainReduction self <= 1 ->
  let '(self', out) := Limiter.process self sample in
  Rabs out <= Limiter.ceiling self /\
  0 <= Limiter.gainReduction self' <= 1 /\
  Limiter.ceiling self' = Limiter.ceiling self /\
  Limiter.release self' = Limiter.release self /\
  Limiter.sampleRate self' = Limiter.sampleRate self.
Proof.
  intros Hc Hr Hg. unfold Limiter.process.
  cbn [Limiter.set_gainReduction Limiter.gainReduction Limiter.ceiling
       Limiter.release Limiter.sampleRate].
  pose proof (Rabs_pos sample) as Habs. pose proof tiny_pos as Ht.
  destruct (JS.gt (Rabs sample) (Limiter.ceiling self)) eqn:Hcmp.
  - set (tg := Limiter.ceiling self / (Rabs sample + JS.tiny)).
    assert (Htg : 0 <= tg).
    { unfold tg. apply Rmult_le_pos; [exact Hc |].
      left. apply Rinv_0_lt_compat. lra. }
    assert (Hm : 0 <= Rmin (Limiter.gainReduction self) tg <= 1).
    { unfold Rmin. destruct (Rle_dec _ _); lra. }
    assert (Hle : Rmin (Limiter.gainReduction self) tg <= tg) by apply Rmin_r.
    repeat split; try lra.
    rewrite Rabs_mult, (Rabs_pos_eq (Rmin _ _)) by lra.
    assert (H1 : Rabs sample * tg <= Limiter.ceiling self).
    { unfold tg.
      replace (Rabs sample * (Limiter.ceiling self / (Rabs sample + JS.tiny)))
        with (Limiter.ceiling self * (Rabs sample / (Rabs sample + JS.tiny)))
        by (field; lra).
      rewrite <- (Rmult_1_r (Limiter.ceiling self)) at 2.
      apply Rmult_le_compat_l; [exact Hc |].
      apply (Rmult_le_reg_r (Rabs sample + JS.tiny)); [lra |].
      unfold Rdiv. rewrite Rmult_assoc, Rinv_l by lra. lra. }
    assert (H2 : Rabs sample * Rmin (Limiter.gainReduction self) tg
                 <= Rabs sample * tg)
      by (apply Rmult_le_compat_l; lra).
    lra.
  - assert (Hle : Rabs sample <= Limiter.ceiling self).
    { unfold JS.gt in Hcmp. destruct (Rgt_dec _ _); [discriminate | lra]. }
    destruct (releaseCoeff_range _ _ Hr) as [Hc0 Hc1].
    set (c := exp (- 1 / (Limiter.release self * Limiter.sampleRate self))) in *.
    assert (Hm : 0 <= Rmin 1 (1 + (Limiter.gainReduction self - 1) * c) <= 1).
    { unfold Rmin. destruct (Rle_dec _ _); nra. }
    repeat split; try lra.
    rewrite Rabs_mult, (Rabs_pos_eq (Rmin _ _)) by lra. nra.
Qed.

Lemma limiterRun_cons (self : Limiter.t) (sample : R) (rest : list R) :
  limiterRun self (sample :: rest) =
  (fst (limiterRun (fst (Limiter.process self sample)) rest),
   snd (Limiter.process self sample)
   :: snd (limiterRun (fst (Limiter.process self sample)) rest)).
Proof.
  cbn [limiterRun]. destruct (Limiter.process self sample) as [self1 out].
  cbn [fst snd]. destruct (limiterRun self1 rest). reflexivity.
Qed.

(** X1.  A limiter with a non-negative ceiling and a positive release time
    holds every sample it lets out to its ceiling, from the first sample
    on: no output magnitude is more than one part in a million above the
    ceiling. *)
Theorem limiter_never_exceeds_ceiling (ceiling release sampleRate : R)
  (samples : list R) :
  0 <= ceiling -> 0 < release * sampleRate ->
  Forall (fun out => Rabs out <= ceiling * 1.000001)
    (snd (limiterRun (Limiter.setSampleRate (Limiter.new ceiling release) sampleRate)
            samples)).
Proof.
  intros Hc Hr.
  assert (Hgen : forall self : Limiter.t,
             Limiter.ceiling self = ceiling ->
             0 < Limiter.release self * Limiter.sampleRate self ->
             0 <= Limiter.gainReduction self <= 1 ->
             Forall (fun out => Rabs out <= ceiling * 1.000001)
               (snd (limiterRun self samples))).
  { induction samples as [| sample rest IH]; intros self Hce Hrs Hg.
    - constructor.
    - rewrite limiterRun_cons. cbn [snd].
      assert (Hc' : 0 <= Limiter.ceiling self) by (rewrite Hce; exact Hc).
      pose proof (limiter_process_bound self sample Hc' Hrs Hg) as Hp.
      destruct (Limiter.process self sample) as [self1 out].
      destruct Hp as (Hout & Hg1 & Hc1 & Hr1 & Hs1). cbn [fst snd].
      constructor; [rewrite Hce in Hout; lra |].
      apply IH; [congruence | rewrite Hr1, Hs1; exact Hrs | exact Hg1]. }
  apply Hgen; cbn; [reflexivity | exact Hr | lra].
Qed.

Lemma limiter_never_exceeds_ceiling_witness :
  0 <= 0.95 /\ 0 < 0.05 * 44100 /\
  Forall (fun out => Rabs out <= 0.95 * 1.000001)
    (snd (limiterRun (Limiter.setSampleRate (Limiter.new 0.95 0.05) 44100) [2; 0.5])).
Proof.
  assert (H1 : 0 <= 0.95) by lra.
  assert (H2 : 0 < 0.05 * 44100) by lra.
  split; [exact H1 |]. split; [exact H2 |].
  exact (limiter_never_exceeds_ceiling 0.95 0.05 44100 [2; 0.5] H1 H2).
Defined.

(** X2.  A fresh limiter is transparent on material that stays within its
    ceiling: the output is the input, sample for sample. *)
Theorem limiter_transparent_below_ceiling (ceiling release sampleRate : R)
  (samples : list R) :
  Forall (fun sample => Rabs sample <= ceiling) samples ->
  snd (limiterRun (Limiter.setSampleRate (Limiter.new ceiling release) sampleRate)
         samples)
  = samples.
Proof.
  intros Hall.
  assert (Hgen : forall self : Limiter.t,
             Limiter.ceiling self = ceiling -> Limiter.gainReduction self = 1 ->
             snd (limiterRun self samples) = samples).
  { induction Hall as [| sample rest Hs _ IH]; intros self Hce Hg.
    - reflexivity.
    - rewrite limiterRun_cons. cbn [snd]. unfold Limiter.process.
      rewrite Hce, (gt_false _ _ Hs), Hg. cbn [fst snd].
      replace (Rmin 1 (1 + (1 - 1) * _)) with 1
        by (rewrite Rminus_diag, Rmult_0_l, Rplus_0_r; symmetry; apply Rmin_left; lra).
      f_equal; [ring |].
      apply IH; cbn; [exact Hce | reflexivity]. }
  apply Hgen; reflexivity.
Qed.

Lemma limiter_transparent_below_ceiling_witness :
  Forall (fun sample => Rabs sample <= 0.95) [0.5; - 0.25] /\
  snd (limiterRun (Limiter.setSampleRate (Limiter.new 0.95 0.05) 44100) [0.5; - 0.25])
  = [0.5; - 0.25].
Proof.
  assert (H : Forall (fun sample => Rabs sample <= 0.95) [0.5; - 0.25]).
  { repeat constructor; unfold Rabs; destruct (Rcase_abs _); lra. }
  split; [exact H |].
  exact (limiter_transparent_below_ceiling 0.95 0.05 44100 [0.5; - 0.25] H).
Defined.

(** ** Stages over a stream *)

Lemma runStage_cons {S : Type} (step : S -> R -> S * R) (s : S) (sample : R)
  (rest : list R) :
  runStage step s (sample :: rest) =
  (fst (runStage step (fst (step s sample)) rest),
   snd (step s sample) :: snd (runStage step (fst (step s sample)) rest)).
Proof.
  cbn [runStage]. destruct (step s sample) as [s1 out]. cbn [fst snd].
  destruct (runStage step s1 rest). reflexivity.
Qed.

Lemma runFrames_cons {S : Type} (step : S -> R -> R -> S * Stereo) (s : S) (l r : R)
  (rest : list (R * R)) :
  runFrames step s ((l, r) :: rest) =
  (fst (runFrames step (fst (step s l r)) rest),
   snd (step s l r) :: snd (runFrames step (fst (step s l r)) rest)).
Proof.
  cbn [runFrames]. destruct (step s l r) as [s1 out]. cbn [fst snd].
  destruct (runFrames step s1 rest). reflexivity.
Qed.

(** What every call keeps and gives, a run keeps and gives throughout. *)
Lemma runStage_inv {S : Type} (step : S -> R -> S * R) (I : S -> Prop)
  (P Q : R -> Prop) :
  (forall s x, I s -> P x -> I (fst (step s x)) /\ Q (snd (step s x))) ->
  forall samples s, I s -> Forall P samples ->
  I (fst (runStage step s samples)) /\ Forall Q (snd (runStage step s samples)).
Proof.
  intros Hstep. induction samples as [| sample rest IH]; intros s Hs Hall.
  - split; [exact Hs | constructor].
  - rewrite runStage_cons. cbn [fst snd].
    inversion Hall as [| ? ? Hx Hrest]; subst.
    destruct (Hstep s sample Hs Hx) as [Hs1 Hq].
    destruct (IH _ Hs1 Hrest) as [Hs2 Hqs].
    split; [exact Hs2 | constructor; assumption].
Qed.

Lemma runFrames_inv {S : Type} (step : S -> R -> R -> S * Stereo) (I : S -> Prop)
  (P : R * R -> Prop) (Q : Stereo -> Prop) :
  (forall s l r, I s -> P (l, r) -> I (fst (step s l r)) /\ Q (snd (step s l r))) ->
  forall frames s, I s -> Forall P frames ->
  I (fst (runFrames step s frames)) /\ Forall Q (snd (runFrames step s frames)).
Proof.
  intros Hstep. induction frames as [| [l r] rest IH]; intros s Hs Hall.
  - split; [exact Hs | constructor].
  - rewrite runFrames_cons. cbn [fst snd].
    inversion Hall as [| ? ? Hx Hrest]; subst.
    destruct (Hstep s l r Hs Hx) as [Hs1 Hq].
    destruct (IH _ Hs1 Hrest) as [Hs2 Hqs].
    split; [exact Hs2 | constructor; assumption].
Qed.

(** ** Mid/side width *)

Lemma agreeAt_eq (scale x y : R) : 0 <= scale -> x = y -> agreeAt scale x y.
Proof.
  intros Hs ->. unfold agreeAt. rewrite Rminus_diag, Rabs_R0. lra.
Qed.

(** X3.  The mid/side stage keeps the sum of the two channels and
    multiplies their difference by the width, and with width 1 it returns
    the frame it was given, each to one part in a million of the
    magnitudes it works on; with width 0 it returns the same value on both
    channels. *)
Theorem midSide_keeps_sum_and_scales_difference (self : MidSideProcessor.t) (l r : R) :
  let out := MidSideProcessor.process self l r in
  let scale := (1 + Rabs (MidSideProcessor.width self)) * (Rabs l + Rabs r) in
  agreeAt scale (left out + right out) (l + r) /\
  agreeAt scale (left out - right out) (MidSideProcessor.width self * (l - r)) /\
  (MidSideProcessor.width self = 1 ->
   agreeAt scale (left out) l /\ agreeAt scale (right out) r) /\
  (MidSideProcessor.width self = 0 -> left out = right out).
Proof.
  intros out scale.
  assert (Hs : 0 <= scale).
  { unfold scale. pose proof (Rabs_pos (MidSideProcessor.width self)).
    pose proof (Rabs_pos l). pose proof (Rabs_pos r). apply Rmult_le_pos; lra. }
  unfold out, MidSideProcessor.process. cbn [left right].
  split; [apply agreeAt_eq; [exact Hs | lra] |].
  split; [apply agreeAt_eq; [exact Hs | lra] |].
  split.
  - intros Hw. rewrite Hw. split; apply agreeAt_eq; try exact Hs; lra.
  - intros ->. lra.
Qed.

(** ** Mono bass *)

(** X4.  The mono-bass stage keeps the sum of the two channels, whatever
    its filter state, and takes from their difference the difference of
    the two low-passed samples, each to one part in a million of the
    magnitudes it works on. *)
Theorem monoBass_keeps_channel_sum (self : MonoBassProcessor.t) (l r : R) :
  let '(self', out) := MonoBassProcessor.process self l r in
  let scale :=
    Rabs l + Rabs r + Rabs (MonoBassProcessor.leftLP self')
    + Rabs (MonoBassProcessor.rightLP self') in
  agreeAt scale (left out + right out) (l + r) /\
  agreeAt scale (left out - right out)
    ((l - r) - (MonoBassProcessor.leftLP self' - MonoBassProcessor.rightLP self')).
Proof.
  unfold MonoBassProcessor.process. cbv zeta.
  set (self' := MonoBassProcessor.lowpass self l r).
  cbn [left right].
  assert (Hs : 0 <= Rabs l + Rabs r + Rabs (MonoBassProcessor.leftLP self')
                    + Rabs (MonoBassProcessor.rightLP self')).
  { pose proof (Rabs_pos l). pose proof (Rabs_pos r).
    pose proof (Rabs_pos (MonoBassProcessor.leftLP self')).
    pose proof (Rabs_pos (MonoBassProcessor.rightLP self')). lra. }
  split; apply agreeAt_eq; try exact Hs; lra.
Qed.

Lemma monoBass_alpha_range (cutoff sampleRate : R) :
  0 < cutoff -> 0 < sampleRate ->
  0 < MonoBassProcessor.alpha (MonoBassProcessor.new cutoff sampleRate) < 1.
Proof.
  intros Hc Hs. unfold MonoBassProcessor.new. cbn [MonoBassProcessor.alpha].
  pose proof PI_RGT_0 as Hpi.
  assert (Hrc : 0 < 1 / (cutoff * 2 * PI)).
  { apply Rdiv_lt_0_compat; [lra |]. apply Rmult_lt_0_compat; lra. }
  assert (Hdt : 0 < 1 / sampleRate) by (apply Rdiv_lt_0_compat; lra).
  set (rc := 1 / (cutoff * 2 * PI)) in *. set (dt := 1 / sampleRate) in *.
  split.
  - apply Rdiv_lt_0_compat; lra.
  - apply (Rmult_lt_reg_r (rc + dt)); [lra |].
    unfold Rdiv. rewrite Rmult_assoc, Rinv_l by lra. lra.
Qed.

Lemma Rabs_le_between (x M : R) : Rabs x <= M -> - M <= x <= M.
Proof. unfold Rabs. destruct (Rcase_abs x); lra. Qed.

Lemma lowpass_step_bounded (alpha lp x M : R) :
  0 < alpha < 1 -> Rabs lp <= M -> Rabs x <= M -> Rabs (lp + alpha * (x - lp)) <= M.
Proof.
  intros Ha Hlp Hx. apply Rabs_le. apply Rabs_le_between in Hlp. apply Rabs_le_between in Hx.
  split; nra.
Qed.

(** X5.  A mono-bass stage built for a positive cutoff and sample rate is
    stable: fed frames whose samples stay within [M] in magnitude, its two
    low-pass states stay within [M] and every output sample within [2 M]. *)
Theorem monoBass_bounded_output (cutoff sampleRate M : R) (frames : list (R * R)) :
  0 < cutoff -> 0 < sampleRate ->
  Forall (fun frame => Rabs (fst frame) <= M /\ Rabs (snd frame) <= M) frames ->
  Forall (fun out => Rabs (left out) <= 2 * M /\ Rabs (right out) <= 2 * M)
    (snd (runFrames MonoBassProcessor.process (MonoBassProcessor.new cutoff sampleRate)
            frames)).
Proof.
  intros Hc Hs Hall.
  pose proof (monoBass_alpha_range cutoff sampleRate Hc Hs) as Ha.
  destruct frames as [| frame0 rest0]; [constructor |].
  assert (HM : 0 <= M).
  { inversion Hall as [| ? ? [H _] _]; subst. pose proof (Rabs_pos (fst frame0)). lra. }
  set (a := MonoBassProcessor.alpha (MonoBassProcessor.new cutoff sampleRate)) in *.
  refine (proj2 (runFrames_inv MonoBassProcessor.process
            (fun s => MonoBassProcessor.alpha s = a
                      /\ Rabs (MonoBassProcessor.leftLP s) <= M
                      /\ Rabs (MonoBassProcessor.rightLP s) <= M)
            _ _ _ _ _ _ Hall)).
  - intros s l r (Hsa & Hl & Hr) [Hxl Hxr]. cbn [fst snd] in Hxl, Hxr.
    unfold MonoBassProcessor.process, MonoBassProcessor.lowpass.
    cbn [fst snd left right MonoBassProcessor.alpha MonoBassProcessor.leftLP
         MonoBassProcessor.rightLP].
    rewrite Hsa.
    pose proof (lowpass_step_bounded a _ _ M Ha Hl Hxl) as Hl'.
    pose proof (lowpass_step_bounded a _ _ M Ha Hr Hxr) as Hr'.
    set (lp := MonoBassProcessor.leftLP s + a * (l - MonoBassProcessor.leftLP s)) in *.
    set (rp := MonoBassProcessor.rightLP s + a * (r - MonoBassProcessor.rightLP s)) in *.
    split; [split; [reflexivity | split; assumption] |].
    apply Rabs_le_between in Hl', Hr', Hxl, Hxr.
    split; apply Rabs_le; split; lra.
  - split; [reflexivity |]. cbn. rewrite Rabs_R0. split; exact HM.
Qed.

Lemma monoBass_bounded_output_witness :
  0 < 120 /\ 0 < 44100 /\
  Forall (fun out => Rabs (left out) <= 2 * 1 /\ Rabs (right out) <= 2 * 1)
    (snd (runFrames MonoBassProcessor.process (MonoBassProcessor.new 120 44100)
            [(1, - 1); (0.5, 1)])).
Proof.
  assert (H1 : 0 < 120) by lra.
  assert (H2 : 0 < 44100) by lra.
  assert (H3 : Forall (fun frame => Rabs (fst frame) <= 1 /\ Rabs (snd frame) <= 1)
                 [(1, - 1); (0.5, 1)]).
  { repeat constructor; cbn [fst snd]; unfold Rabs; destruct (Rcase_abs _); lra. }
  split; [exact H1 |]. split; [exact H2 |].
  exact (monoBass_bounded_output 120 44100 1 [(1, - 1); (0.5, 1)] H1 H2 H3).
Defined.

(** ** Mono bass: the low-frequency components of the two channels *)



Lemma channelDistance_nonneg (frames : list (R * R)) : 0 <= channelDistance frames.
Proof.
  induction frames as [| frame rest IH]; cbn [channelDistance fold_right]; [lra |].
  fold (channelDistance rest).
  pose proof (Rle_0_sqr (fst frame - snd frame)) as Hq. unfold Rsqr in Hq. lra.
Qed.

(** The processor built for 120 Hz at 44.1 kHz has a coefficient between
    0.015 and one half. *)
Lemma monoBass_alpha_120 :
  0.015 < MonoBassProcessor.alpha (MonoBassProcessor.new 120 44100) < / 2.
Proof.
  unfold MonoBassProcessor.new. cbn [MonoBassProcessor.alpha].
  pose proof PI_RGT_0 as Hpi. pose proof PI_4 as Hpi4. pose proof PI2_3_2 as Hpi3.
  assert (Hlo : / 960 <= 1 / (120 * 2 * PI)).
  { unfold Rdiv. rewrite Rmult_1_l. apply Rinv_le_contravar; lra. }
  assert (Hhi : 1 / (120 * 2 * PI) <= / 720).
  { unfold Rdiv. rewrite Rmult_1_l. apply Rinv_le_contravar; lra. }
  set (rc := 1 / (120 * 2 * PI)) in *.
  split.
  - apply (Rmult_lt_reg_r (rc + 1 / 44100)); [lra |].
    unfold Rdiv at 2. rewrite Rmult_assoc, Rinv_l by lra. lra.
  - apply (Rmult_lt_reg_r (rc + 1 / 44100)); [lra |].
    unfold Rdiv at 1. rewrite Rmult_assoc, Rinv_l by lra. lra.
Qed.

(** Frame by frame the low-frequency components need not come closer:
    after the frames (1, 0) and (0, 1) those of the two output channels
    are farther apart at the second frame than those of the two input
    channels. *)
Lemma monoBass_frame_distance_can_grow :
  let self := MonoBassProcessor.new 120 44100 in
  let frames := [(1, 0); (0, 1)] in
  let before := nth 1 (lowComponents self frames) (0, 0) in
  let after :=
    nth 1 (lowComponents self
             (framesOf (snd (runFrames MonoBassProcessor.process self frames))))
      (0, 0) in
  Rabs (fst before - snd before) < Rabs (fst after - snd after).
Proof.
  intros self frames before after.
  pose proof monoBass_alpha_120 as Ha. fold self in Ha.
  assert (Hb : fst before - snd before
               = - (MonoBassProcessor.alpha self * MonoBassProcessor.alpha self)).
  { unfold before, frames.
    cbn [lowComponents nth fst snd MonoBassProcessor.lowpass MonoBassProcessor.leftLP
         MonoBassProcessor.rightLP MonoBassProcessor.alpha].
    change (MonoBassProcessor.leftLP self) with 0.
    change (MonoBassProcessor.rightLP self) with 0. ring. }
  assert (Hafter : fst after - snd after
                   = - (2 * (MonoBassProcessor.alpha self * MonoBassProcessor.alpha self)
                        * (1 - MonoBassProcessor.alpha self))).
  { unfold after, frames.
    cbn [runFrames MonoBassProcessor.process framesOf map snd left right lowComponents
         nth fst MonoBassProcessor.lowpass MonoBassProcessor.leftLP
         MonoBassProcessor.rightLP MonoBassProcessor.alpha].
    change (MonoBassProcessor.leftLP self) with 0.
    change (MonoBassProcessor.rightLP self) with 0. lra. }
  rewrite Hb, Hafter, !Rabs_Ropp.
  set (a := MonoBassProcessor.alpha self) in *. clearbody a.
  assert (Haa : 0 < a * a) by (apply Rmult_lt_0_compat; lra).
  rewrite !Rabs_pos_eq.
  - assert (H : a * a * 1 < a * a * (2 * (1 - a)))
      by (apply Rmult_lt_compat_l; lra).
    lra.
  - apply Rmult_le_pos; lra.
  - lra.
Qed.





(** ** Soft clipper: range and symmetry *)

Lemma gt_inv_true (a b : R) : JS.gt a b = true -> a > b.
Proof. unfold JS.gt. destruct (Rgt_dec a b); [trivial | discriminate]. Qed.

Lemma gt_inv_false (a b : R) : JS.gt a b = false -> a <= b.
Proof. unfold JS.gt. destruct (Rgt_dec a b); [discriminate | lra]. Qed.

Lemma lt_inv_true (a b : R) : JS.lt a b = true -> a < b.
Proof. unfold JS.lt. destruct (Rlt_dec a b); [trivial | discriminate]. Qed.

Lemma lt_inv_false (a b : R) : JS.lt a b = false -> b <= a.
Proof. unfold JS.lt. destruct (Rlt_dec a b); [discriminate | lra]. Qed.

Lemma tanh_abs_lt_1 (x : R) : Rabs (tanh x) < 1.
Proof.
  unfold tanh, sinh, cosh.
  pose proof (exp_pos x) as Hp. pose proof (exp_pos (- x)) as Hn.
  assert (Hc : 0 < (exp x + exp (- x)) / 2) by lra.
  assert (Hi : 0 < / ((exp x + exp (- x)) / 2)) by (apply Rinv_0_lt_compat, Hc).
  apply Rabs_def1.
  - apply (Rmult_lt_reg_r ((exp x + exp (- x)) / 2)); [exact Hc |].
    unfold Rdiv at 1. rewrite Rmult_assoc, Rinv_l by lra. lra.
  - apply (Rmult_lt_reg_r ((exp x + exp (- x)) / 2)); [exact Hc |].
    unfold Rdiv at 2. rewrite Rmult_assoc, Rinv_l by lra. lra.
Qed.

(** X6.  With a threshold in [0, 1) the soft clipper's output never
    exceeds full scale, whatever the drive and however large the input. *)
Theorem softClipper_output_within_full_scale (self : SoftClipper.t) (sample : R) :
  0 <= SoftClipper.threshold self < 1 ->
  Rabs (SoftClipper.process self sample) <= 1.
Proof.
  intros [Hlo Hhi]. unfold SoftClipper.process.
  set (driven := sample * SoftClipper.drive self).
  set (th := SoftClipper.threshold self) in *.
  destruct (JS.gt (Rabs driven) th) eqn:Hcmp.
  - apply gt_inv_true in Hcmp.
    assert (He : 0 <= (Rabs driven - th) / (1 - th)).
    { apply Rmult_le_pos; [lra |]. left. apply Rinv_0_lt_compat. lra. }
    pose proof (tanh_range _ He) as [Ht0 Ht1].
    set (t := tanh ((Rabs driven - th) / (1 - th))) in *.
    assert (Hv : 0 <= th + (1 - th) * t < 1) by nra.
    destruct (JS.gt driven 0).
    + rewrite Rmult_1_l, Rabs_pos_eq; lra.
    + replace (- 1 * (th + (1 - th) * t)) with (- (th + (1 - th) * t)) by ring.
      rewrite Rabs_Ropp, Rabs_pos_eq; lra.
  - apply gt_inv_false in Hcmp. lra.
Qed.

Lemma softClipper_output_within_full_scale_witness :
  0 <= SoftClipper.threshold (SoftClipper.new 2 0.6) < 1 /\
  Rabs (SoftClipper.process (SoftClipper.new 2 0.6) 100) <= 1.
Proof.
  assert (H : 0 <= SoftClipper.threshold (SoftClipper.new 2 0.6) < 1) by (cbn; lra).
  split; [exact H |].
  exact (softClipper_output_within_full_scale (SoftClipper.new 2 0.6) 100 H).
Defined.

(** X7.  With a non-negative threshold the soft clipper is an odd
    function of its input: negating the sample negates the output. *)
Theorem softClipper_is_odd (self : SoftClipper.t) (sample : R) :
  0 <= SoftClipper.threshold self ->
  SoftClipper.process self (- sample) = - SoftClipper.process self sample.
Proof.
  intros Hth. unfold SoftClipper.process.
  replace (- sample * SoftClipper.drive self)
    with (- (sample * SoftClipper.drive self)) by ring.
  set (driven := sample * SoftClipper.drive self).
  rewrite Rabs_Ropp.
  destruct (JS.gt (Rabs driven) (SoftClipper.threshold self)) eqn:Hcmp; [| reflexivity].
  apply gt_inv_true in Hcmp.
  assert (Hnz : driven <> 0).
  { intros H0. rewrite H0, Rabs_R0 in Hcmp. lra. }
  destruct (JS.gt (- driven) 0) eqn:Hn; destruct (JS.gt driven 0) eqn:Hp.
  - apply gt_inv_true in Hn, Hp. lra.
  - ring.
  - ring.
  - apply gt_inv_false in Hn, Hp. exfalso. apply Hnz. lra.
Qed.

Lemma softClipper_is_odd_witness :
  0 <= SoftClipper.threshold (SoftClipper.new 1.2 0.8) /\
  SoftClipper.process (SoftClipper.new 1.2 0.8) (- 3)
  = - SoftClipper.process (SoftClipper.new 1.2 0.8) 3.
Proof.
  assert (H : 0 <= SoftClipper.threshold (SoftClipper.new 1.2 0.8)) by (cbn; lra).
  split; [exact H |].
  exact (softClipper_is_odd (SoftClipper.new 1.2 0.8) 3 H).
Defined.

(** ** Dynamic equaliser *)

Lemma pow10_ge_1 (x : R) : 0 <= x -> 1 <= JS.pow10 x.
Proof. intros H. rewrite <- pow10_0. apply pow10_le, H. Qed.

Lemma pow10_le_1 (x : R) : x <= 0 -> JS.pow10 x <= 1.
Proof. intros H. rewrite <- pow10_0. apply pow10_le, H. Qed.

(** X8.  With a positive ratio and a negative [gain], as the De-Harsh, Mud
    Remover, Bass Tamer and Smooth Mids chains set it, the dynamic
    equaliser never attenuates:
    while the envelope is above the threshold the sample is amplified by
    exactly [|gain|] dB, and otherwise it passes unchanged. *)
Theorem dynamicEQ_negative_gain_amplifies (self : DynamicEQ.t) (sample inputLevel : R) :
  0 < DynamicEQ.ratio self -> DynamicEQ.gain self <= 0 ->
  let '(self', out) := DynamicEQ.process self sample inputLevel in
  let dbLevel := 20 * JS.log10 (DynamicEQ.envelope self' + JS.tiny) in
  (dbLevel > DynamicEQ.threshold self ->
   out = sample * JS.pow10 (- DynamicEQ.gain self / 20)) /\
  (dbLevel <= DynamicEQ.threshold self -> out = sample) /\
  Rabs sample <= Rabs out.
Proof.
  intros Hr Hg. unfold DynamicEQ.process.
  cbn [DynamicEQ.set_envelope DynamicEQ.envelope].
  match goal with
  | |- context [JS.gt ?d (DynamicEQ.threshold self)] => set (db := d)
  end.
  pose proof (Rabs_pos sample) as Habs.
  destruct (JS.gt db (DynamicEQ.threshold self)) eqn:Hcmp.
  - apply gt_inv_true in Hcmp.
    assert (Hex : 0 < (db - DynamicEQ.threshold self) / DynamicEQ.ratio self).
    { apply Rdiv_lt_0_compat; lra. }
    rewrite Rmin_right by lra.
    pose proof (pow10_ge_1 (- DynamicEQ.gain self / 20) ltac:(lra)) as Hp.
    split; [reflexivity |]. split; [lra |].
    rewrite Rabs_mult, (Rabs_pos_eq (JS.pow10 _)) by lra. nra.
  - apply gt_inv_false in Hcmp.
    replace (- 0 / 20) with 0 by lra. rewrite pow10_0, Rmult_1_r.
    split; [lra |]. split; [reflexivity | lra].
Qed.

Lemma dynamicEQ_negative_gain_amplifies_witness :
  let self := DynamicEQ.new 3500 2 (- 12) 3 0.003 0.1 (- 6) in
  0 < DynamicEQ.ratio self /\ DynamicEQ.gain self <= 0 /\
  Rabs 0.5 <= Rabs (snd (DynamicEQ.process self 0.5 0.5)).
Proof.
  intros self.
  assert (H1 : 0 < DynamicEQ.ratio self) by (cbn; lra).
  assert (H2 : DynamicEQ.gain self <= 0) by (cbn; lra).
  split; [exact H1 |]. split; [exact H2 |].
  pose proof (dynamicEQ_negative_gain_amplifies self 0.5 0.5 H1 H2) as H.
  destruct (DynamicEQ.process self 0.5 0.5) as [self' out].
  exact (proj2 (proj2 H)).
Defined.

(** X9.  With a positive ratio and a non-negative [gain] the dynamic
    equaliser only attenuates, and by no more than [gain] dB. *)
Theorem dynamicEQ_attenuation_is_capped (self : DynamicEQ.t) (sample inputLevel : R) :
  0 < DynamicEQ.ratio self -> 0 <= DynamicEQ.gain self ->
  let out := snd (DynamicEQ.process self sample inputLevel) in
  Rabs sample * JS.pow10 (- DynamicEQ.gain self / 20) <= Rabs out <= Rabs sample.
Proof.
  intros Hr Hg out. unfold out, DynamicEQ.process. cbn [snd].
  match goal with
  | |- context [JS.gt ?d (DynamicEQ.threshold self)] => set (db := d)
  end.
  pose proof (Rabs_pos sample) as Habs.
  assert (Hgr : forall gr, 0 <= gr <= DynamicEQ.gain self ->
            Rabs sample * JS.pow10 (- DynamicEQ.gain self / 20)
            <= Rabs (sample * JS.pow10 (- gr / 20)) <= Rabs sample).
  { intros gr [H0 H1].
    pose proof (pow10_pos (- gr / 20)) as Hp.
    pose proof (pow10_le_1 (- gr / 20) ltac:(lra)) as Hp1.
    pose proof (pow10_le (- DynamicEQ.gain self / 20) (- gr / 20) ltac:(lra)) as Hp2.
    rewrite Rabs_mult, (Rabs_pos_eq (JS.pow10 _)) by lra. nra. }
  destruct (JS.gt db (DynamicEQ.threshold self)) eqn:Hcmp.
  - apply gt_inv_true in Hcmp.
    assert (Hex : 0 < (db - DynamicEQ.threshold self) / DynamicEQ.ratio self).
    { apply Rdiv_lt_0_compat; lra. }
    apply Hgr. unfold Rmin. destruct (Rle_dec _ _); lra.
  - apply Hgr. lra.
Qed.

Lemma dynamicEQ_attenuation_is_capped_witness :
  let self := DynamicEQ.new 2500 1.8 (- 14) 2.5 0.002 0.06 4 in
  0 < DynamicEQ.ratio self /\ 0 <= DynamicEQ.gain self /\
  Rabs 0.5 * JS.pow10 (- DynamicEQ.gain self / 20)
  <= Rabs (snd (DynamicEQ.process self 0.5 0.5)) <= Rabs 0.5.
Proof.
  intros self.
  assert (H1 : 0 < DynamicEQ.ratio self) by (cbn; lra).
  assert (H2 : 0 <= DynamicEQ.gain self) by (cbn; lra).
  split; [exact H1 |]. split; [exact H2 |].
  exact (dynamicEQ_attenuation_is_capped self 0.5 0.5 H1 H2).
Defined.

(** ** Compressor *)

(** X10.  With a ratio of at least 1 and a non-negative knee the
    compressor's gain reduction is never negative: the output is the input
    times a positive factor of at most the make-up gain, so the polarity of
    the sample is kept and its magnitude grows by no more than
    [makeupGain] dB. *)
Theorem compressor_gain_at_most_makeup (self : AdaptiveCompressor.t) (sample : R) :
  1 <= AdaptiveCompressor.ratio self -> 0 <= AdaptiveCompressor.knee self ->
  exists g : R,
    snd (AdaptiveCompressor.process self sample) = sample * g /\
    0 < g <= JS.pow10 (AdaptiveCompressor.makeupGain self / 20).
Proof.
  intros Hr Hk. unfold AdaptiveCompressor.process. cbn [snd].
  match goal with
  | |- context [JS.gt ?d (AdaptiveCompressor.threshold self
                          - AdaptiveCompressor.knee self / 2)] => set (db := d)
  end.
  eexists. split; [reflexivity |]. split; [apply pow10_pos |].
  apply pow10_le.
  set (th := AdaptiveCompressor.threshold self).
  set (knee := AdaptiveCompressor.knee self) in *.
  set (ratio := AdaptiveCompressor.ratio self) in *.
  assert (Hir : 0 < / ratio <= 1).
  { split; [apply Rinv_0_lt_compat; lra |].
    rewrite <- Rinv_1. apply Rinv_le_contravar; lra. }
  assert (Hgr : 0 <=
    (if JS.gt db (th - knee / 2)
     then if JS.lt db (th + knee / 2)
          then (db - (th - knee / 2)) / knee * ((db - (th - knee / 2)) / ratio)
          else db - th - (db - th) / ratio
     else 0)).
  { destruct (JS.gt db (th - knee / 2)) eqn:H1; [| lra].
    apply gt_inv_true in H1.
    destruct (JS.lt db (th + knee / 2)) eqn:H2.
    - apply lt_inv_true in H2.
      assert (Hkp : 0 < knee) by lra.
      assert (Hik : 0 < / knee) by (apply Rinv_0_lt_compat, Hkp).
      unfold Rdiv. 
      apply Rmult_le_pos; apply Rmult_le_pos; lra.
    - apply lt_inv_false in H2. unfold Rdiv. nra. }
  lra.
Qed.

Lemma compressor_gain_at_most_makeup_witness :
  let self := AdaptiveCompressor.new (- 10) 3 0.003 0.1 2 1 in
  1 <= AdaptiveCompressor.ratio self /\ 0 <= AdaptiveCompressor.knee self /\
  exists g : R,
    snd (AdaptiveCompressor.process self 0.9) = 0.9 * g /\
    0 < g <= JS.pow10 (AdaptiveCompressor.makeupGain self / 20).
Proof.
  intros self.
  assert (H1 : 1 <= AdaptiveCompressor.ratio self) by (cbn; lra).
  assert (H2 : 0 <= AdaptiveCompressor.knee self) by (cbn; lra).
  split; [exact H1 |]. split; [exact H2 |].
  exact (compressor_gain_at_most_makeup self 0.9 H1 H2).
Defined.

(** ** True-peak limiter of the export: what it does not do *)

Lemma exportLimiter_run_cons (self : LosslessTruePeakLimiter.t) (sample : R)
  (rest : list R) :
  LosslessTruePeakLimiter.run self (sample :: rest) =
  (fst (LosslessTruePeakLimiter.run
          (fst (LosslessTruePeakLimiter.process self sample)) rest),
   snd (LosslessTruePeakLimiter.process self sample)
   :: snd (LosslessTruePeakLimiter.run
             (fst (LosslessTruePeakLimiter.process self sample)) rest)).
Proof.
  change (LosslessTruePeakLimiter.run self (sample :: rest))
    with (let '(self1, out) := LosslessTruePeakLimiter.process self sample in
          let '(self2, outs) := LosslessTruePeakLimiter.run self1 rest in
          (self2, out :: outs)).
  destruct (LosslessTruePeakLimiter.process self sample) as [self1 out].
  cbn [fst snd].
  destruct (LosslessTruePeakLimiter.run self1 rest) as [self2 outs].
  reflexivity.
Qed.

(** X11.  The export's limiter has no release: over any run its gain only
    goes down, so one over-ceiling sample attenuates everything after it,
    including the channels the export loop feeds it later. *)
Theorem exportLimiter_gain_never_recovers (samples : list R)
  (self : LosslessTruePeakLimiter.t) :
  LosslessTruePeakLimiter.gainReduction (fst (LosslessTruePeakLimiter.run self samples))
  <= LosslessTruePeakLimiter.gainReduction self /\
  forall sample : R,
    snd (LosslessTruePeakLimiter.process
           (fst (LosslessTruePeakLimiter.run self samples)) sample)
    = sample * LosslessTruePeakLimiter.gainReduction
                 (fst (LosslessTruePeakLimiter.process
                         (fst (LosslessTruePeakLimiter.run self samples)) sample)) /\
    LosslessTruePeakLimiter.gainReduction
      (fst (LosslessTruePeakLimiter.process
              (fst (LosslessTruePeakLimiter.run self samples)) sample))
    <= LosslessTruePeakLimiter.gainReduction self.
Proof.
  assert (Hstep : forall (s : LosslessTruePeakLimiter.t) (x : R),
             LosslessTruePeakLimiter.gainReduction
               (fst (LosslessTruePeakLimiter.process s x))
             <= LosslessTruePeakLimiter.gainReduction s).
  { intros s x. unfold LosslessTruePeakLimiter.process.
    cbn [fst LosslessTruePeakLimiter.gainReduction].
    destruct (JS.gt _ _); [apply Rmin_l | lra]. }
  assert (Hrun : forall s : LosslessTruePeakLimiter.t,
             LosslessTruePeakLimiter.gainReduction
               (fst (LosslessTruePeakLimiter.run s samples))
             <= LosslessTruePeakLimiter.gainReduction s).
  { induction samples as [| x rest IH]; intros s.
    - cbn. lra.
    - rewrite exportLimiter_run_cons. cbn [fst].
      specialize (IH (fst (LosslessTruePeakLimiter.process s x))).
      specialize (Hstep s x). lra. }
  split; [apply Hrun |].
  intros sample. split.
  - unfold LosslessTruePeakLimiter.process. reflexivity.
  - specialize (Hstep (fst (LosslessTruePeakLimiter.run self samples)) sample).
    specialize (Hrun self). lra.
Qed.

(** X12.  A fresh export limiter leaves the material untouched when its
    own peak estimate is within the ceiling at every position. *)
Theorem exportLimiter_transparent_within_ceiling (ceiling sampleRate : R)
  (samples : list R) :
  Forall (fun estimate => 20 * JS.log10 (estimate + JS.tiny) <= ceiling)
    (LosslessTruePeakLimiter.truePeakEstimates 0 samples) ->
  snd (LosslessTruePeakLimiter.run
         (LosslessTruePeakLimiter.new ceiling sampleRate) samples)
  = samples.
Proof.
  unfold LosslessTruePeakLimiter.new.
  enough (Hgen : forall previous : R,
             Forall (fun estimate => 20 * JS.log10 (estimate + JS.tiny) <= ceiling)
               (LosslessTruePeakLimiter.truePeakEstimates previous samples) ->
             snd (LosslessTruePeakLimiter.run
                    (LosslessTruePeakLimiter.mk ceiling sampleRate 1 previous) samples)
             = samples) by apply Hgen.
  induction samples as [| x rest IH]; intros previous Hall.
  - reflexivity.
  - cbn [LosslessTruePeakLimiter.truePeakEstimates] in Hall.
    inversion Hall as [| ? ? Hx Hrest]; subst.
    rewrite exportLimiter_run_cons. cbn [snd].
    unfold LosslessTruePeakLimiter.process at 1 2.
    cbn [LosslessTruePeakLimiter.lastSample LosslessTruePeakLimiter.ceiling
         LosslessTruePeakLimiter.gainReduction LosslessTruePeakLimiter.sampleRate].
    rewrite (gt_false _ _ Hx). cbn [fst snd].
    rewrite Rmult_1_r. f_equal. apply IH, Hrest.
Qed.

Lemma exportLimiter_transparent_within_ceiling_witness :
  Forall (fun estimate => 20 * JS.log10 (estimate + JS.tiny) <= 0)
    (LosslessTruePeakLimiter.truePeakEstimates 0 [0; 0]) /\
  snd (LosslessTruePeakLimiter.run (LosslessTruePeakLimiter.new 0 48000) [0; 0])
  = [0; 0].
Proof.
  assert (H : Forall (fun estimate => 20 * JS.log10 (estimate + JS.tiny) <= 0)
                (LosslessTruePeakLimiter.truePeakEstimates 0 [0; 0])).
  { assert (Hq : 20 * JS.log10 (LosslessTruePeakLimiter.detectTruePeak 0 0 + JS.tiny)
                 <= 0).
    { unfold LosslessTruePeakLimiter.detectTruePeak. rewrite Rabs_R0.
      rewrite Rmax_left by lra. rewrite Rmult_0_l, Rplus_0_l.
      pose proof tiny_pos as Ht.
      assert (JS.log10 JS.tiny <= JS.log10 1).
      { apply log10_le; [exact Ht | unfold JS.tiny; lra]. }
      rewrite log10_1 in H. lra. }
    cbn [LosslessTruePeakLimiter.truePeakEstimates].
    constructor; [exact Hq | constructor; [exact Hq | constructor]]. }
  split; [exact H |].
  exact (exportLimiter_transparent_within_ceiling 0 48000 [0; 0] H).
Defined.

(** ** The limiter of the professional modules *)

Lemma sin_quarter_turns_bounds (i : nat) :
  (1 <= i <= 3)%nat -> 0 <= sin (INR i * PI / INR 4) <= 1.
Proof.
  intros Hi. split; [| apply SIN_bound].
  apply sin_ge_0.
  - pose proof PI_RGT_0. apply Rmult_le_pos; [| left; apply Rinv_0_lt_compat; cbn; lra].
    apply Rmult_le_pos; [apply pos_INR | lra].
  - pose proof PI_RGT_0.
    assert (INR i <= 3).
    { replace 3 with (INR 3) by (cbn; lra). apply le_INR. lia. }
    replace (INR 4) with 4 by (cbn; lra). nra.
Qed.

(** The "oversampled" peak of a limiter built by [new] is the sample's
    magnitude plus ten per cent. *)
Lemma proLimiter_maxPeak (ceiling release sampleRate sample : R) :
  TruePeakLimiter.maxPeak (TruePeakLimiter.new ceiling release sampleRate) sample
  = Rabs sample * 1.1.
Proof.
  unfold TruePeakLimiter.maxPeak, TruePeakLimiter.new.
  cbn [TruePeakLimiter.oversampleFactor Nat.sub seq fold_left].
  pose proof (sin_quarter_turns_bounds 1 ltac:(lia)) as H1.
  pose proof (sin_quarter_turns_bounds 3 ltac:(lia)) as H3.
  replace (INR 2 * PI / INR 4) with (PI / 2) by (cbn; field).
  rewrite sin_PI2.
  set (s1 := sin (INR 1 * PI / INR 4)) in *.
  set (s3 := sin (INR 3 * PI / INR 4)) in *.
  pose proof (Rabs_pos sample) as Ha.
  rewrite !Rabs_mult.
  rewrite (Rabs_pos_eq (1 + s1 * 0.1)), (Rabs_pos_eq (1 + 1 * 0.1)),
    (Rabs_pos_eq (1 + s3 * 0.1)) by lra.
  rewrite (Rmax_right (Rabs sample)) by nra.
  rewrite (Rmax_right (Rabs sample * (1 + s1 * 0.1))) by nra.
  rewrite Rmax_left by nra. lra.
Qed.

Lemma proLimiter_process_bound (self : TruePeakLimiter.t) (sample : R) :
  (forall x, TruePeakLimiter.maxPeak self x = Rabs x * 1.1) ->
  0 < TruePeakLimiter.release self * TruePeakLimiter.sampleRate self ->
  0 <= TruePeakLimiter.gainReduction self <= 1 ->
  let '(self', out) := TruePeakLimiter.process self sample in
  (TruePeakLimiter.ceiling self' = TruePeakLimiter.ceiling self /\
   TruePeakLimiter.release self' = TruePeakLimiter.release self /\
   TruePeakLimiter.sampleRate self' = TruePeakLimiter.sampleRate self /\
   TruePeakLimiter.oversampleFactor self' = TruePeakLimiter.oversampleFactor self /\
   0 <= TruePeakLimiter.gainReduction self' <= 1) /\
  Rabs out * 1.1 < JS.pow10 (TruePeakLimiter.ceiling self / 20).
Proof.
  intros Hmax Hrel Hg. unfold TruePeakLimiter.process. rewrite Hmax.
  cbn [TruePeakLimiter.ceiling TruePeakLimiter.release TruePeakLimiter.sampleRate
       TruePeakLimiter.oversampleFactor TruePeakLimiter.gainReduction].
  set (c := TruePeakLimiter.ceiling self).
  set (g := TruePeakLimiter.gainReduction self) in *.
  set (tp := Rabs sample * 1.1).
  pose proof (Rabs_pos sample) as Habs. pose proof tiny_pos as Ht.
  assert (Hd : 0 < tp + JS.tiny) by (unfold tp; lra).
  assert (HC : 0 < JS.pow10 (c / 20)) by apply pow10_pos.
  destruct (JS.gt (20 * JS.log10 (tp + JS.tiny)) c) eqn:Hcmp.
  - replace ((c - 20 * JS.log10 (tp + JS.tiny)) / 20)
      with (c / 20 - JS.log10 (tp + JS.tiny)) by field.
    rewrite pow10_minus, (pow10_log10 _ Hd).
    set (C := JS.pow10 (c / 20)) in *.
    assert (Htg : 0 < C / (tp + JS.tiny)) by (apply Rdiv_lt_0_compat; assumption).
    assert (Hmin : 0 <= Rmin g (C / (tp + JS.tiny)) <= 1).
    { unfold Rmin. destruct (Rle_dec g _); lra. }
    assert (Hle : Rmin g (C / (tp + JS.tiny)) <= C / (tp + JS.tiny)) by apply Rmin_r.
    split; [repeat split; try reflexivity; lra |].
    rewrite Rabs_mult, (Rabs_pos_eq (Rmin g _)) by lra.
    set (m := Rmin g (C / (tp + JS.tiny))) in *.
    assert (H1 : Rabs sample * m * 1.1 <= tp * (C / (tp + JS.tiny))).
    { replace (Rabs sample * m * 1.1) with (tp * m) by (unfold tp; ring).
      apply Rmult_le_compat_l; [unfold tp; lra | exact Hle]. }
    assert (H2 : tp * (C / (tp + JS.tiny)) < C).
    { replace C with ((tp + JS.tiny) * (C / (tp + JS.tiny))) at 2
        by (field; lra).
      apply Rmult_lt_compat_r; [exact Htg | lra]. }
    lra.
  - apply gt_inv_false in Hcmp.
    assert (HtpC : tp + JS.tiny <= JS.pow10 (c / 20)).
    { apply atMostDB_spec; assumption. }
    destruct (releaseCoeff_range _ _ Hrel) as [Hc0 Hc1].
    set (k := exp (- 1 / (TruePeakLimiter.release self * TruePeakLimiter.sampleRate self)))
      in *.
    assert (Hm : 0 <= Rmin 1 (1 + (g - 1) * k) <= 1).
    { unfold Rmin. destruct (Rle_dec _ _); nra. }
    split; [repeat split; try reflexivity; lra |].
    rewrite Rabs_mult, (Rabs_pos_eq (Rmin _ _)) by lra.
    unfold tp in HtpC. nra.
Qed.

(** X13.  A limiter of the professional modules with a positive release
    time holds its output to the ceiling by its own measure: the
    oversampled peak it would compute for any output sample is not more
    than one part in a million above the ceiling taken as a linear
    level. *)
Theorem proLimiter_output_below_ceiling (ceiling release sampleRate : R)
  (samples : list R) :
  0 < release * sampleRate ->
  let self := TruePeakLimiter.new ceiling release sampleRate in
  Forall (fun out =>
            TruePeakLimiter.maxPeak self out <= JS.pow10 (ceiling / 20) * 1.000001)
    (snd (runStage TruePeakLimiter.process self samples)).
Proof.
  intros Hrel self.
  assert (Hall : Forall (fun _ : R => True) samples).
  { apply Forall_forall. trivial. }
  refine (proj2 (runStage_inv TruePeakLimiter.process
            (fun s => TruePeakLimiter.ceiling s = ceiling
                      /\ TruePeakLimiter.release s = release
                      /\ TruePeakLimiter.sampleRate s = sampleRate
                      /\ TruePeakLimiter.oversampleFactor s = 4%nat
                      /\ 0 <= TruePeakLimiter.gainReduction s <= 1)
            (fun _ => True) _ _ samples self _ Hall)).
  - intros s x (Hc & Hr & Hs & Ho & Hg) _.
    assert (Hmax : forall y, TruePeakLimiter.maxPeak s y = Rabs y * 1.1).
    { intros y. rewrite <- (proLimiter_maxPeak ceiling release sampleRate y).
      unfold TruePeakLimiter.maxPeak. rewrite Ho. reflexivity. }
    pose proof (proLimiter_process_bound s x Hmax ltac:(rewrite Hr, Hs; exact Hrel) Hg)
      as Hp.
    destruct (TruePeakLimiter.process s x) as [s' out]. cbn [fst snd].
    destruct Hp as ((Hc' & Hr' & Hs' & Ho' & Hg') & Hout).
    split; [repeat split; try congruence; lra |].
    unfold self. rewrite proLimiter_maxPeak, <- Hc.
    pose proof (pow10_pos (TruePeakLimiter.ceiling s / 20)). lra.
  - unfold self. cbn. repeat split; try reflexivity; lra.
Qed.

Lemma proLimiter_output_below_ceiling_witness :
  0 < 0.05 * 44100 /\
  Forall (fun out =>
            TruePeakLimiter.maxPeak (TruePeakLimiter.new (- 1) 0.05 44100) out
            <= JS.pow10 (- 1 / 20) * 1.000001)
    (snd (runStage TruePeakLimiter.process (TruePeakLimiter.new (- 1) 0.05 44100)
            [2; 0.1])).
Proof.
  assert (H : 0 < 0.05 * 44100) by lra.
  split; [exact H |].
  exact (proLimiter_output_below_ceiling (- 1) 0.05 44100 [2; 0.1] H).
Defined.

(** ** Stereo enhancer and bass processor of the professional modules *)

(** X14.  The stereo enhancer keeps the sum of the two channels whatever
    its filter holds, changes their difference only by the high-passed
    side signal scaled by [width - 1], and with width 1 returns the frame
    it was given, each to one part in a million of the magnitudes it works
    on. *)
Theorem stereoEnhancer_keeps_channel_sum (self : AdvancedStereoEnhancer.t) (l r : R) :
  let out := snd (AdvancedStereoEnhancer.process self l r) in
  let sideHigh :=
    snd (processFilter (AdvancedStereoEnhancer.highpass self) ((l - r) * 0.5)) in
  let scale :=
    (1 + Rabs (AdvancedStereoEnhancer.width self))
    * (Rabs l + Rabs r + Rabs sideHigh) in
  agreeAt scale (left out + right out) (l + r) /\
  agreeAt scale (left out - right out)
    ((l - r) + 2 * (AdvancedStereoEnhancer.width self - 1) * sideHigh) /\
  (AdvancedStereoEnhancer.width self = 1 ->
   agreeAt scale (left out) l /\ agreeAt scale (right out) r).
Proof.
  intros out sideHigh scale.
  assert (Hs : 0 <= scale).
  { unfold scale. pose proof (Rabs_pos (AdvancedStereoEnhancer.width self)).
    pose proof (Rabs_pos l). pose proof (Rabs_pos r). pose proof (Rabs_pos sideHigh).
    apply Rmult_le_pos; lra. }
  clearbody scale. unfold out, sideHigh, AdvancedStereoEnhancer.process.
  destruct (processFilter (AdvancedStereoEnhancer.highpass self) ((l - r) * 0.5))
    as [hp sh].
  cbn [snd left right].
  split; [apply agreeAt_eq; [exact Hs | lra] |].
  split; [apply agreeAt_eq; [exact Hs | lra] |].
  intros ->. split; apply agreeAt_eq; try exact Hs; lra.
Qed.

(** X15.  The bass processor adds the same harmonics term to both
    channels: it changes the channel sum by at most twice
    [harmonicAmount], and takes from the channel difference the difference
    of the two low-passed samples, each to one part in a million of the
    magnitudes it works on. *)
Theorem bassProcessor_harmonics_are_bounded (self : IntelligentBassProcessor.t) (l r : R) :
  0 < IntelligentBassProcessor.harmonicAmount self ->
  let out := snd (IntelligentBassProcessor.process self l r) in
  let bassL := snd (processFilter (IntelligentBassProcessor.lowpass self) l) in
  let bassR :=
    snd (processFilter (fst (processFilter (IntelligentBassProcessor.lowpass self) l)) r) in
  let scale :=
    Rabs l + Rabs r + Rabs bassL + Rabs bassR
    + IntelligentBassProcessor.harmonicAmount self in
  Rabs (left out + right out - (l + r))
  <= 2 * IntelligentBassProcessor.harmonicAmount self + 0.000001 * scale /\
  agreeAt scale (left out - right out) ((l - r) - (bassL - bassR)).
Proof.
  intros Hh out bassL bassR scale.
  assert (Hs : 0 <= scale).
  { unfold scale. pose proof (Rabs_pos l). pose proof (Rabs_pos r).
    pose proof (Rabs_pos bassL). pose proof (Rabs_pos bassR). lra. }
  clearbody scale.
  unfold out, bassL, bassR, IntelligentBassProcessor.process.
  destruct (processFilter (IntelligentBassProcessor.lowpass self) l) as [lp1 bl].
  cbn [fst snd].
  destruct (processFilter lp1 r) as [lp2 br].
  cbn [snd left right].
  pose proof (tanh_abs_lt_1 ((bl + br) * 0.5 * 1.5)) as Ht.
  set (t := tanh ((bl + br) * 0.5 * 1.5)) in *.
  split; [| apply agreeAt_eq; [exact Hs | lra]].
  replace (l - bl + (bl + br) * 0.5 + t * IntelligentBassProcessor.harmonicAmount self
           + (r - br + (bl + br) * 0.5 + t * IntelligentBassProcessor.harmonicAmount self)
           - (l + r))
    with (2 * IntelligentBassProcessor.harmonicAmount self * t) by lra.
  rewrite Rabs_mult, (Rabs_pos_eq (2 * _)) by lra.
  assert (Hb : 2 * IntelligentBassProcessor.harmonicAmount self * Rabs t
               <= 2 * IntelligentBassProcessor.harmonicAmount self * 1)
    by (apply Rmult_le_compat_l; lra).
  lra.
Qed.

Lemma bassProcessor_harmonics_are_bounded_witness :
  let self := IntelligentBassProcessor.new 120 44100 in
  0 < IntelligentBassProcessor.harmonicAmount self /\
  agreeAt
    (Rabs 1 + Rabs 0.5
     + Rabs (snd (processFilter (IntelligentBassProcessor.lowpass self) 1))
     + Rabs (snd (processFilter
                    (fst (processFilter (IntelligentBassProcessor.lowpass self) 1)) 0.5))
     + IntelligentBassProcessor.harmonicAmount self)
    (left (snd (IntelligentBassProcessor.process self 1 0.5))
     - right (snd (IntelligentBassProcessor.process self 1 0.5)))
    ((1 - 0.5)
     - (snd (processFilter (IntelligentBassProcessor.lowpass self) 1)
        - snd (processFilter
                 (fst (processFilter (IntelligentBassProcessor.lowpass self) 1)) 0.5))).
Proof.
  intros self.
  assert (H : 0 < IntelligentBassProcessor.harmonicAmount self) by (cbn; lra).
  split; [exact H |].
  exact (proj2 (bassProcessor_harmonics_are_bounded self 1 0.5 H)).
Defined.

(** * The chains of the catalog never exceed their limiter's ceiling *)

Lemma nth_store_same (i : nat) (v : R) (data : list R) :
  (i < List.length data)%nat -> nth i (AudioBuffer.store i v data) 0 = v.
Proof.
  revert i. induction data as [| x rest IH]; intros [| j] H; cbn in *; try lia.
  - reflexivity.
  - apply IH. lia.
Qed.

Lemma nth_store_other (i j : nat) (v : R) (data : list R) :
  i <> j -> nth j (AudioBuffer.store i v data) 0 = nth j data 0.
Proof.
  revert i j. induction data as [| x rest IH]; intros [| i] [| j] H; cbn; try reflexivity.
  - contradiction.
  - apply IH. lia.
Qed.

Lemma nth_storeChannel_same (ch : nat) (f : list R -> list R) (chans : list (list R)) :
  (ch < List.length chans)%nat ->
  nth ch (AudioBuffer.storeChannel ch f chans) [] = f (nth ch chans []).
Proof.
  revert ch. induction chans as [| data rest IH]; intros [| k] H; cbn in *; try lia.
  - reflexivity.
  - apply IH. lia.
Qed.

Lemma nth_storeChannel_other (ch k : nat) (f : list R -> list R)
  (chans : list (list R)) :
  ch <> k -> nth k (AudioBuffer.storeChannel ch f chans) [] = nth k chans [].
Proof.
  revert ch k. induction chans as [| data rest IH]; intros [| ch] [| k] H; cbn;
    try reflexivity.
  - contradiction.
  - apply IH. lia.
Qed.

Lemma get_set_same (b : AudioBuffer.t) (ch i : nat) (v : R) :
  (ch < List.length (AudioBuffer.channels b))%nat ->
  (i < List.length (nth ch (AudioBuffer.channels b) []))%nat ->
  AudioBuffer.get (AudioBuffer.set b ch i v) ch i = v.
Proof.
  intros Hch Hi. unfold AudioBuffer.get, AudioBuffer.getChannelData, AudioBuffer.set.
  cbn [AudioBuffer.channels].
  rewrite nth_storeChannel_same by exact Hch. apply nth_store_same, Hi.
Qed.

Lemma get_set_other (b : AudioBuffer.t) (ch i ch' i' : nat) (v : R) :
  ch' <> ch \/ i' <> i ->
  AudioBuffer.get (AudioBuffer.set b ch i v) ch' i' = AudioBuffer.get b ch' i'.
Proof.
  intros H. unfold AudioBuffer.get, AudioBuffer.getChannelData, AudioBuffer.set.
  cbn [AudioBuffer.channels].
  destruct (Nat.eq_dec ch ch') as [<- | Hne].
  - destruct H as [H | H]; [contradiction |].
    destruct (Nat.lt_ge_cases ch (List.length (AudioBuffer.channels b))) as [Hlt | Hge].
    + rewrite nth_storeChannel_same by exact Hlt. apply nth_store_other. lia.
    + rewrite (nth_overflow (AudioBuffer.channels b) []) by exact Hge.
      rewrite (nth_overflow (AudioBuffer.storeChannel _ _ _) []); [reflexivity |].
      rewrite <- (length_map (@List.length R)), storeChannel_lengths, length_map;
        [exact Hge | apply store_length].
  - rewrite nth_storeChannel_other by exact Hne. reflexivity.
Qed.

Lemma shape_bounds (a b : AudioBuffer.t) (ch : nat) :
  AudioBuffer.valid a -> AudioBuffer.shape b = AudioBuffer.shape a ->
  (ch < AudioBuffer.numberOfChannels a)%nat ->
  (ch < List.length (AudioBuffer.channels b))%nat /\
  List.length (nth ch (AudioBuffer.channels b) []) = AudioBuffer.length a.
Proof.
  intros Hv Hs Hch.
  pose proof (valid_shape _ _ Hs Hv) as (_ & _ & Hn & Hall).
  unfold AudioBuffer.shape in Hs. injection Hs as Hc Hl _ _.
  assert (Hlt : (ch < List.length (AudioBuffer.channels b))%nat) by lia.
  split; [exact Hlt |].
  rewrite Forall_forall in Hall. rewrite <- Hl. apply Hall. apply nth_In, Hlt.
Qed.


























(** * The export validator *)

Lemma Rmax_case_le (a b c : R) : a <= c -> b <= c -> Rmax a b <= c.
Proof. intros Ha Hb. unfold Rmax. destruct (Rle_dec a b); assumption. Qed.

(** The peak loop over one channel: started with equal sample-peak and
    true-peak accumulators, it ends with equal accumulators. *)
Lemma measurePeaks_channel (data : list R) (peak : ExportValidator.level) :
  let '(peak', truePeak') :=
    forRange (List.length data)
      (fun i '(peak, truePeak) =>
         let absSample := Rabs (nth i data 0) in
         let peak := ExportValidator.level_max peak absSample in
         if ((0 <? i) && (i <? List.length data - 1))%nat then
           let prev := Rabs (nth (i - 1) data 0) in
           let next := Rabs (nth (i + 1) data 0) in
           let interpPeak := Rmax (Rmax prev absSample) next in
           (peak, ExportValidator.level_max truePeak interpPeak)
         else (peak, ExportValidator.level_max truePeak absSample))
      (peak, peak) in
  truePeak' = peak'.
Proof.
  set (n := List.length data).
  set (Inv := fun (i : nat) (st : ExportValidator.level * ExportValidator.level) =>
         match st with
         | (ExportValidator.MinusInfinity, ExportValidator.MinusInfinity) => i = 0%nat
         | (ExportValidator.Finite p, ExportValidator.Finite t) =>
             p <= t /\
             (forall j : nat, (j < i)%nat -> Rabs (nth j data 0) <= p) /\
             ((i < n)%nat -> t <= Rmax p (Rabs (nth i data 0))) /\
             ((n <= i)%nat -> t <= p)
         | _ => False
         end).
  match goal with
  | |- let '(_, _) := forRange _ ?body _ in _ =>
      assert (HInv : Inv n (forRange n body (peak, peak)))
  end.
  { apply forRange_ind.
    - unfold Inv. destruct peak as [| p]; [reflexivity |].
      split; [lra |]. split; [intros j Hj; lia |].
      split; [intros _; apply Rmax_l | intros _; lra].
    - intros i [pk tp] Hi HI. unfold Inv in HI.
      destruct pk as [| p]; destruct tp as [| t]; try contradiction.
      + subst i. cbn [Nat.ltb Nat.leb andb ExportValidator.level_max]. unfold Inv.
        split; [lra |]. split.
        * intros j Hj. assert (j = 0%nat) by lia. subst j. lra.
        * split; [intros _; apply Rmax_l | intros _; lra].
      + destruct HI as (Hpt & Hseen & Hnext & Hend).
        specialize (Hnext Hi). clear Hend.
        cbn [ExportValidator.level_max].
        set (a := Rabs (nth i data 0)) in *.
        assert (Hseen' : forall j : nat, (j < S i)%nat ->
                  Rabs (nth j data 0) <= Rmax p a).
        { intros j Hj. destruct (Nat.eq_dec j i) as [-> | Hne].
          - apply Rmax_r.
          - eapply Rle_trans; [apply Hseen; lia | apply Rmax_l]. }
        assert (Hta : t <= Rmax p a) by exact Hnext.
        destruct ((0 <? i) && (i <? n - 1))%nat eqn:Hint.
        * apply andb_prop in Hint. destruct Hint as [H0 H1].
          apply Nat.ltb_lt in H0, H1.
          assert (Hprev : Rabs (nth (i - 1) data 0) <= p) by (apply Hseen; lia).
          set (prev := Rabs (nth (i - 1) data 0)) in *.
          set (next := Rabs (nth (i + 1) data 0)).
          unfold Inv. split.
          -- apply Rmax_case_le.
             ++ eapply Rle_trans; [exact Hpt | apply Rmax_l].
             ++ eapply Rle_trans; [| apply Rmax_r].
                eapply Rle_trans; [| apply Rmax_l]. apply Rmax_r.
          -- split; [exact Hseen' |]. split.
             ++ intros _. replace (S i) with (i + 1)%nat by lia. fold next.
                apply Rmax_case_le.
                ** eapply Rle_trans; [exact Hta | apply Rmax_l].
                ** apply Rmax_case_le; [| apply Rmax_r].
                   eapply Rle_trans; [| apply Rmax_l].
                   apply Rmax_case_le; [| apply Rmax_r].
                   eapply Rle_trans; [exact Hprev | apply Rmax_l].
             ++ intros Hn. lia.
        * unfold Inv. split.
          -- apply Rmax_case_le; [| apply Rmax_r].
             eapply Rle_trans; [exact Hpt | apply Rmax_l].
          -- split; [exact Hseen' |].
             assert (Hle : Rmax t a <= Rmax p a).
             { apply Rmax_case_le; [exact Hta | apply Rmax_r]. }
             split; intros _; [| exact Hle].
             eapply Rle_trans; [exact Hle | apply Rmax_l]. }
  match goal with
  | |- let '(_, _) := ?loop in _ => destruct loop as [pk tp]
  end.
  unfold Inv in HInv.
  destruct pk as [| p]; destruct tp as [| t]; try contradiction; [reflexivity |].
  destruct HInv as (Hpt & _ & _ & Hend). specialize (Hend (Nat.le_refl n)).
  f_equal. lra.
Qed.

Lemma measurePeaks_accumulators (audioBuffer : AudioBuffer.t) :
  let '(peak, truePeak) :=
    forRange (AudioBuffer.numberOfChannels audioBuffer)
      (fun ch acc =>
         let data := AudioBuffer.getChannelData audioBuffer ch in
         forRange (List.length data)
           (fun i '(peak, truePeak) =>
              let absSample := Rabs (nth i data 0) in
              let peak := ExportValidator.level_max peak absSample in
              if ((0 <? i) && (i <? List.length data - 1))%nat then
                let prev := Rabs (nth (i - 1) data 0) in
                let next := Rabs (nth (i + 1) data 0) in
                let interpPeak := Rmax (Rmax prev absSample) next in
                (peak, ExportValidator.level_max truePeak interpPeak)
              else (peak, ExportValidator.level_max truePeak absSample))
           acc)
      (ExportValidator.MinusInfinity, ExportValidator.MinusInfinity) in
  truePeak = peak.
Proof.
  match goal with
  | |- let '(_, _) := forRange ?n ?body ?init in _ =>
      assert (H : snd (forRange n body init) = fst (forRange n body init))
  end.
  { apply (forRange_inv (fun st => snd st = fst st)); [reflexivity |].
    intros ch [pk tp] Heq. cbn [fst snd] in Heq. subst tp.
    pose proof (measurePeaks_channel (AudioBuffer.getChannelData audioBuffer ch) pk) as Hc.
    cbv zeta in Hc |- *.
    destruct (forRange _ _ (pk, pk)) as [pk' tp']. cbn [fst snd]. exact Hc. }
  destruct (forRange _ _ _) as [pk tp]. exact H.
Qed.

(** X17.  The "true peak" [measurePeaks] reports is always exactly its
    sample peak: taking the maximum of each sample with its two
    neighbours adds nothing to the maximum over all samples. *)
Theorem measurePeaks_truePeak_is_sample_peak (audioBuffer : AudioBuffer.t) :
  snd (ExportValidator.measurePeaks audioBuffer)
  = fst (ExportValidator.measurePeaks audioBuffer).
Proof.
  unfold ExportValidator.measurePeaks.
  pose proof (measurePeaks_accumulators audioBuffer) as H. cbv zeta in H |- *.
  destruct (forRange _ _ _) as [pk tp]. cbn [fst snd]. rewrite H. reflexivity.
Qed.

(** X18.  The check made before export marks a buffer invalid exactly when
    a ceiling is given and the sample peak in dB exceeds it; a sample-rate
    or loudness mismatch adds a warning and never an error. *)
Theorem validate_invalid_only_above_ceiling (audioBuffer : AudioBuffer.t)
  (targetSpecs : ExportValidator.TargetSpecs) :
  let results := ExportValidator.validate audioBuffer targetSpecs in
  ExportValidator.r_truePeak results = ExportValidator.r_peak results /\
  ExportValidator.r_valid results
  = match ExportValidator.ts_truePeakCeiling targetSpecs with
    | Some ceiling =>
        negb (ExportValidator.level_gt
                (fst (ExportValidator.measurePeaks audioBuffer)) ceiling)
    | None => true
    end /\
  (ExportValidator.r_valid results = true <-> ExportValidator.r_errors results = []).
Proof.
  intros results. unfold results, ExportValidator.validate.
  pose proof (measurePeaks_accumulators audioBuffer) as H.
  unfold ExportValidator.measurePeaks. cbv zeta in H |- *.
  destruct (forRange _ _ _) as [pk tp]. subst tp. cbn [fst snd].
  destruct (ExportValidator.ts_truePeakCeiling targetSpecs) as [c |].
  - destruct (ExportValidator.level_gt (ExportValidator.toDB pk) c);
      cbn [ExportValidator.r_truePeak ExportValidator.r_peak ExportValidator.r_valid
           ExportValidator.r_errors negb];
      split; [reflexivity | split; [reflexivity | split; intros; discriminate]
             | reflexivity | split; [reflexivity | split; reflexivity]].
  - cbn [ExportValidator.r_truePeak ExportValidator.r_peak ExportValidator.r_valid
         ExportValidator.r_errors].
    split; [reflexivity | split; [reflexivity | split; reflexivity]].
Qed.

(** X19.  A report of the header read-back is valid only if the blob holds
    a complete header (at least 36 bytes) whose fields agree with every
    expectation given: the sample rate, the bit depth, and the format tag
    that goes with the bit depth (3 for 32 bits, 1 otherwise).  A channel
    count that differs never invalidates the report. *)
Theorem validateExportedFile_valid_is_sound (blob : DataView.t)
  (expectedSpecs : ExportValidator.ExpectedSpecs) :
  ExportValidator.valid (ExportValidator.validateExportedFile blob expectedSpecs) = true ->
  (36 <= List.length blob)%nat /\
  exists h : ExportValidator.FileHeader,
    ExportValidator.fileHeader (ExportValidator.validateExportedFile blob expectedSpecs)
    = Some h /\
    ExportValidator.readHeader (firstn 100 blob) 12 = Some h /\
    (ExportValidator.es_sampleRate expectedSpecs <> 0%Z ->
     ExportValidator.sampleRate h = ExportValidator.es_sampleRate expectedSpecs) /\
    (ExportValidator.es_bitDepth expectedSpecs <> 0%Z ->
     ExportValidator.bitsPerSample h = ExportValidator.es_bitDepth expectedSpecs) /\
    ExportValidator.audioFormat h
    = (if (ExportValidator.es_bitDepth expectedSpecs =? 32)%Z then 3%Z else 1%Z).
Proof.
  unfold ExportValidator.validateExportedFile.
  destruct (DataView.tagAt (firstn 100 blob) 0 "RIFF"); cbn [negb];
    [| intros H; discriminate H].
  destruct (DataView.tagAt (firstn 100 blob) 8 "WAVE"); cbn [negb];
    [| intros H; discriminate H].
  destruct (DataView.tagAt (firstn 100 blob) 12 "fmt "); cbn [negb];
    [| intros H; discriminate H].
  destruct (ExportValidator.readHeader (firstn 100 blob) 12) as [h |] eqn:Hh;
    [| intros H; discriminate H].
  cbn [ExportValidator.valid ExportValidator.fileHeader].
  intros Hvalid.
  assert (Hlen : (36 <= List.length blob)%nat).
  { unfold ExportValidator.readHeader in Hh.
    destruct (DataView.getUint32 (firstn 100 blob) (12 + 4)); [| discriminate Hh].
    destruct (DataView.getUint16 (firstn 100 blob) (12 + 8)); [| discriminate Hh].
    destruct (DataView.getUint16 (firstn 100 blob) (12 + 10)); [| discriminate Hh].
    destruct (DataView.getUint32 (firstn 100 blob) (12 + 12)); [| discriminate Hh].
    destruct (DataView.getUint32 (firstn 100 blob) (12 + 16)); [| discriminate Hh].
    destruct (DataView.getUint16 (firstn 100 blob) (12 + 20)); [| discriminate Hh].
    destruct (DataView.getUint16 (firstn 100 blob) (12 + 22)) eqn:Hlast;
      [| discriminate Hh].
    unfold DataView.getUint16, DataView.getUint8 in Hlast.
    destruct (nth_error (firstn 100 blob) (12 + 22)); [| discriminate Hlast].
    destruct (nth_error (firstn 100 blob) (12 + 22 + 1)) eqn:Hn; [| discriminate Hlast].
    assert (Hlt : (12 + 22 + 1 < List.length (firstn 100 blob))%nat).
    { apply nth_error_Some. rewrite Hn. discriminate. }
    rewrite length_firstn in Hlt. lia. }
  split; [exact Hlen |].
  exists h. split; [reflexivity |]. split; [reflexivity |].
  match type of Hvalid with
  | match ?e1 ++ ?e2 ++ ?e3 with _ => _ end = true =>
      assert (H1 : e1 = []) by (destruct e1; [reflexivity | discriminate Hvalid]);
      rewrite H1 in Hvalid; cbn [app] in Hvalid;
      assert (H2 : e2 = []) by (destruct e2; [reflexivity | discriminate Hvalid]);
      rewrite H2 in Hvalid; cbn [app] in Hvalid;
      assert (H3 : e3 = []) by (destruct e3; [reflexivity | discriminate Hvalid])
  end.
  clear Hvalid. split; [| split].
  - intros Hne. apply Z.eqb_neq in Hne. rewrite Hne in H1. cbn [negb andb] in H1.
    destruct (ExportValidator.sampleRate h =? ExportValidator.es_sampleRate expectedSpecs)%Z
      eqn:He; [apply Z.eqb_eq, He | discriminate H1].
  - intros Hne. apply Z.eqb_neq in Hne. rewrite Hne in H2. cbn [negb] in H2.
    destruct (ExportValidator.es_bitDepth expectedSpecs =? 32)%Z eqn:H32.
    + apply Z.eqb_eq in H32.
      destruct (ExportValidator.bitsPerSample h =? 32)%Z eqn:He;
        [apply Z.eqb_eq in He; lia | discriminate H2].
    + destruct (ExportValidator.bitsPerSample h
                =? ExportValidator.es_bitDepth expectedSpecs)%Z eqn:He;
        [apply Z.eqb_eq, He | discriminate H2].
  - destruct (ExportValidator.es_bitDepth expectedSpecs =? 32)%Z; cbn [negb andb] in H3.
    + destruct (ExportValidator.audioFormat h =? 3)%Z eqn:He;
        [apply Z.eqb_eq, He | discriminate H3].
    + destruct (ExportValidator.audioFormat h =? 1)%Z eqn:He;
        [apply Z.eqb_eq, He | discriminate H3].
Qed.

Lemma validateExportedFile_valid_is_sound_witness :
  let blob :=
    [82; 73; 70; 70; 36; 0; 0; 0; 87; 65; 86; 69; 102; 109; 116; 32;
     16; 0; 0; 0; 1; 0; 2; 0; 128; 187; 0; 0; 0; 238; 2; 0; 4; 0; 16; 0]%Z in
  let expectedSpecs :=
    {| ExportValidator.es_sampleRate := 48000; ExportValidator.es_bitDepth := 16;
       ExportValidator.es_channels := 2 |} in
  ExportValidator.valid (ExportValidator.validateExportedFile blob expectedSpecs) = true /\
  (36 <= List.length blob)%nat.
Proof.
  intros blob expectedSpecs.
  assert (H : ExportValidator.valid
                (ExportValidator.validateExportedFile blob expectedSpecs) = true)
    by reflexivity.
  split; [exact H |].
  exact (proj1 (validateExportedFile_valid_is_sound blob expectedSpecs H)).
Defined.

(** * Dither *)

Lemma round_within_half (y : R) : Rabs (IZR (JS.round y) - y) <= / 2.
Proof.
  unfold JS.round. destruct (base_Int_part (y + / 2)) as [H1 H2].
  apply Rabs_le. lra.
Qed.

Lemma pow2_pos (x : R) : 0 < JS.pow2 x.
Proof. unfold JS.pow2, Rpower. apply exp_pos. Qed.

(** One call of [applyDither] with random numbers in [0, 1): the error
    carried to the next call stays within half a step, and the output
    within a step and three quarters of the input. *)
Lemma applyDither_bound (self : ProfessionalDither.t) (random : nat -> R) (n : nat)
  (sample : R) :
  (forall k, 0 <= random k < 1) ->
  0 < ProfessionalDither.quantizationStep self ->
  Rabs (ProfessionalDither.lastError self)
  <= ProfessionalDither.quantizationStep self / 2 ->
  let '(self', n', quantized) := ProfessionalDither.applyDither self random n sample in
  ProfessionalDither.quantizationStep self' = ProfessionalDither.quantizationStep self /\
  Rabs (ProfessionalDither.lastError self')
  <= ProfessionalDither.quantizationStep self / 2 /\
  n' = S (S n) /\
  (exists k : Z, quantized = IZR k * ProfessionalDither.quantizationStep self) /\
  Rabs (quantized - sample) <= 1.75 * ProfessionalDither.quantizationStep self.
Proof.
  intros Hrand Hstep Herr. unfold ProfessionalDither.applyDither,
    ProfessionalDither.generateDither.
  set (q := ProfessionalDither.quantizationStep self) in *.
  set (d := (random n - random (S n)) * q).
  assert (Hd : Rabs d <= q).
  { pose proof (Hrand n). pose proof (Hrand (S n)). unfold d. apply Rabs_le. nra. }
  set (ds := if ProfessionalDither.noiseShaping self
             then sample + d - ProfessionalDither.lastError self * 0.5
             else sample + d).
  assert (Hds : Rabs (ds - sample) <= 1.25 * q).
  { apply Rabs_le_between in Hd, Herr. unfold ds.
    destruct (ProfessionalDither.noiseShaping self); apply Rabs_le; lra. }
  pose proof (round_within_half (ds / q)) as Hr.
  assert (Hq : Rabs (IZR (JS.round (ds / q)) * q - ds) <= q / 2).
  { replace (IZR (JS.round (ds / q)) * q - ds)
      with ((IZR (JS.round (ds / q)) - ds / q) * q) by (field; lra).
    rewrite Rabs_mult, (Rabs_pos_eq q) by lra.
    apply Rabs_le_between in Hr. 
    assert (Rabs (IZR (JS.round (ds / q)) - ds / q) <= / 2) by (apply Rabs_le; lra).
    pose proof (Rabs_pos (IZR (JS.round (ds / q)) - ds / q)). nra. }
  cbn [ProfessionalDither.quantizationStep ProfessionalDither.lastError].
  fold q. split; [reflexivity |]. split; [exact Hq |]. split; [reflexivity |].
  split; [eexists; reflexivity |].
  apply Rabs_le_between in Hq, Hds. apply Rabs_le. lra.
Qed.

(** X20.  Dithering a stream with random numbers in [0, 1): every output
    lies on the quantization grid (an integer multiple of the step
    [2^-(bitDepth-1)]) within a step and three quarters of its input, and
    the processor draws exactly two random numbers per sample. *)
Theorem dither_output_on_grid_near_input (bitDepth : Z) (random : nat -> R)
  (samples : list R) :
  (forall k, 0 <= random k < 1) ->
  let self := ProfessionalDither.new bitDepth in
  let run := runStage (ditherStep random) (self, 0%nat) samples in
  Forall2
    (fun sample quantized =>
       (exists k : Z, quantized = IZR k * ProfessionalDither.quantizationStep self) /\
       Rabs (quantized - sample) <= 1.75 * ProfessionalDither.quantizationStep self)
    samples (snd run) /\
  snd (fst run) = (2 * List.length samples)%nat.
Proof.
  intros Hrand self run. unfold run. clear run.
  set (q := ProfessionalDither.quantizationStep self).
  assert (Hq : 0 < q) by (unfold q, self; cbn; apply pow2_pos).
  assert (Hgen : forall (d : ProfessionalDither.t) (n : nat),
             ProfessionalDither.quantizationStep d = q ->
             Rabs (ProfessionalDither.lastError d) <= q / 2 ->
             Forall2
               (fun sample quantized =>
                  (exists k : Z, quantized = IZR k * q) /\
                  Rabs (quantized - sample) <= 1.75 * q)
               samples (snd (runStage (ditherStep random) (d, n) samples)) /\
             snd (fst (runStage (ditherStep random) (d, n) samples))
             = (n + 2 * List.length samples)%nat).
  { induction samples as [| x rest IH]; intros d n Hd He.
    - cbn. split; [constructor | lia].
    - rewrite runStage_cons. cbn [fst snd].
      pose proof (applyDither_bound d random n x Hrand ltac:(rewrite Hd; exact Hq)
                    ltac:(rewrite Hd; exact He)) as Hb.
      destruct (ProfessionalDither.applyDither d random n x) as [[d' n'] quantized]
        eqn:Happ.
      assert (Hstep : ditherStep random (d, n) x = ((d', n'), quantized)).
      { unfold ditherStep. cbn [fst snd]. rewrite Happ. reflexivity. }
      rewrite Hstep. cbn [fst snd]. rewrite Hd in Hb.
      destruct Hb as (Hd' & He' & Hn' & Hk & Hx).
      destruct (IH d' n' Hd' He') as [Hall Hcount].
      split; [constructor; [split; assumption | exact Hall] |].
      rewrite Hcount, Hn'. cbn [List.length]. lia. }
  destruct (Hgen self 0%nat eq_refl) as [Hall Hcount].
  - replace (ProfessionalDither.lastError self) with 0 by reflexivity.
    rewrite Rabs_R0. lra.
  - split; [exact Hall | exact Hcount].
Qed.

Lemma dither_output_on_grid_near_input_witness :
  (forall k : nat, 0 <= (fun _ : nat => / 2) k < 1) /\
  snd (fst (runStage (ditherStep (fun _ => / 2)) (ProfessionalDither.new 16, 0%nat)
              [0.5; - 0.25]))
  = 4%nat.
Proof.
  assert (H : forall k : nat, 0 <= (fun _ : nat => / 2) k < 1) by (intros k; lra).
  split; [exact H |].
  exact (proj2 (dither_output_on_grid_near_input 16 (fun _ => / 2) [0.5; - 0.25] H)).
Defined.

(** * The export's limiter loop and the pre-export check *)

(** A channel-by-channel loop that feeds every sample to one stage and
    writes the result back. *)
Lemma forEachChannel_post {S : Type} (step : S -> R -> S * R) (I : S -> Prop)
  (Q : R -> Prop) (a : AudioBuffer.t) (s : S) :
  AudioBuffer.valid a -> I s ->
  (forall s x, I s -> I (fst (step s x)) /\ Q (snd (step s x))) ->
  let out :=
    snd (forRange (AudioBuffer.numberOfChannels a)
           (fun ch st =>
              forRange (List.length (AudioBuffer.getChannelData a ch))
                (fun i '(s, b) =>
                   let '(s', out) := step s (AudioBuffer.get b ch i) in
                   (s', AudioBuffer.set b ch i out))
                st)
           (s, a)) in
  AudioBuffer.shape out = AudioBuffer.shape a /\
  forall ch i : nat,
    (ch < AudioBuffer.numberOfChannels a)%nat -> (i < AudioBuffer.length a)%nat ->
    Q (AudioBuffer.get out ch i).
Proof.
  intros Hv Hs Hstep out. unfold out. clear out.
  set (P := fun (c : nat) (st : S * AudioBuffer.t) =>
              I (fst st) /\ AudioBuffer.shape (snd st) = AudioBuffer.shape a /\
              forall ch i : nat,
                (ch < c)%nat -> (i < AudioBuffer.length a)%nat ->
                Q (AudioBuffer.get (snd st) ch i)).
  match goal with
  | |- AudioBuffer.shape (snd ?loop) = _ /\ _ =>
      enough (HP : P (AudioBuffer.numberOfChannels a) loop)
  end.
  { destruct HP as (_ & Hshape & HQ). split; [exact Hshape | exact HQ]. }
  apply forRange_ind.
  - split; [exact Hs |]. split; [reflexivity |]. intros ? ? H. lia.
  - intros c st Hc (HI & Hshape & HQ).
    destruct (shape_bounds a a c Hv eq_refl Hc) as [_ Hlen].
    unfold AudioBuffer.getChannelData. rewrite Hlen.
    set (P' := fun (k : nat) (st : S * AudioBuffer.t) =>
                 I (fst st) /\ AudioBuffer.shape (snd st) = AudioBuffer.shape a /\
                 (forall ch i : nat,
                    (ch < c)%nat -> (i < AudioBuffer.length a)%nat ->
                    Q (AudioBuffer.get (snd st) ch i)) /\
                 forall i : nat, (i < k)%nat -> Q (AudioBuffer.get (snd st) c i)).
    match goal with
    | |- P _ ?loop => enough (HP' : P' (AudioBuffer.length a) loop)
    end.
    { destruct HP' as (HI' & Hshape' & HQ' & Hrow).
      split; [exact HI' |]. split; [exact Hshape' |].
      intros ch i Hch Hi.
      destruct (Nat.eq_dec ch c) as [-> | Hne]; [apply Hrow, Hi | apply HQ'; lia]. }
    apply forRange_ind.
    + split; [exact HI |]. split; [exact Hshape |]. split; [exact HQ |].
      intros ? H. lia.
    + intros k [s0 b] Hk (HI0 & Hshape0 & HQ0 & Hrow0). unfold P'. cbn [fst snd] in *.
      destruct (Hstep s0 (AudioBuffer.get b c k) HI0) as [HI1 Hout].
      destruct (step s0 (AudioBuffer.get b c k)) as [s1 o]. cbn [fst snd] in *.
      destruct (shape_bounds a b c Hv Hshape0 Hc) as [Hb1 Hb2].
      split; [exact HI1 |]. split; [rewrite shape_set; exact Hshape0 |]. split.
      * intros ch i Hch Hi. rewrite get_set_other by (left; lia).
        apply HQ0; assumption.
      * intros i Hi. destruct (Nat.eq_dec i k) as [-> | Hne].
        -- rewrite get_set_same; [exact Hout | exact Hb1 | rewrite Hb2; exact Hk].
        -- rewrite get_set_other by (right; exact Hne). apply Hrow0. lia.
Qed.

Lemma limitTruePeak_post (ceiling : R) (workingBuffer : AudioBuffer.t) :
  AudioBuffer.valid workingBuffer ->
  let out := TrapMasterProEngine.limitTruePeak ceiling workingBuffer in
  AudioBuffer.shape out = AudioBuffer.shape workingBuffer /\
  forall ch i : nat,
    (ch < AudioBuffer.numberOfChannels workingBuffer)%nat ->
    (i < AudioBuffer.length workingBuffer)%nat ->
    Rabs (AudioBuffer.get out ch i) * 1.01 < JS.pow10 (ceiling / 20).
Proof.
  intros Hv. unfold TrapMasterProEngine.limitTruePeak.
  apply (forEachChannel_post LosslessTruePeakLimiter.process
           (fun s => 0 <= LosslessTruePeakLimiter.gainReduction s <= 1
                     /\ LosslessTruePeakLimiter.ceiling s = ceiling)
           (fun x => Rabs x * 1.01 < JS.pow10 (ceiling / 20))).
  - exact Hv.
  - cbn. split; [lra | reflexivity].
  - intros s x [Hg Hc].
    pose proof (truePeakLimiter_process_bound s x Hg) as Hp.
    destruct (LosslessTruePeakLimiter.process s x) as [s' o]. cbn [fst snd].
    destruct Hp as (Hg' & Hc' & Ho). rewrite Hc in *. auto.
Qed.

(** The sample-peak accumulator of [measurePeaks] never exceeds a bound
    on the magnitudes of the samples. *)
Lemma measurePeaks_peak_bound (audioBuffer : AudioBuffer.t) (M : R) :
  (forall ch i : nat,
     (ch < AudioBuffer.numberOfChannels audioBuffer)%nat ->
     (i < List.length (AudioBuffer.getChannelData audioBuffer ch))%nat ->
     Rabs (AudioBuffer.get audioBuffer ch i) <= M) ->
  forall c : R, M <= JS.pow10 (c / 20) ->
  ExportValidator.level_gt (fst (ExportValidator.measurePeaks audioBuffer)) c = false.
Proof.
  intros Hall c HM. unfold ExportValidator.measurePeaks.
  set (B := fun st : ExportValidator.level * ExportValidator.level =>
              match fst st with
              | ExportValidator.MinusInfinity => True
              | ExportValidator.Finite p => p <= M
              end).
  match goal with
  | |- ExportValidator.level_gt (fst (let '(_, _) := ?loop in _)) c = false =>
      assert (HB : B loop)
  end.
  { apply forRange_ind; [exact Logic.I |].
    intros ch acc Hch Hacc. apply forRange_ind; [exact Hacc |].
    intros i [pk tp] Hi Hpk. unfold B in *. cbn [fst] in *.
    specialize (Hall ch i Hch Hi). unfold AudioBuffer.get in Hall.
    destruct ((0 <? i) && (i <? _))%nat; cbn [fst];
      destruct pk as [| p]; cbn [ExportValidator.level_max];
      try exact Hall; apply Rmax_case_le; assumption. }
  destruct (forRange _ _ _) as [pk tp]. unfold B in HB. cbn [fst] in *.
  destruct pk as [| p]; [reflexivity |]. cbn [ExportValidator.toDB].
  destruct (JS.gt p 0) eqn:Hp; [| reflexivity].
  apply gt_inv_true in Hp. cbn [ExportValidator.level_gt]. apply gt_false.
  apply atMostDB_spec; [lra |]. unfold atMostDB. lra.
Qed.

(** X21.  What the export's limiter loop leaves passes the pre-export
    check for the same ceiling: every sample of the limited buffer is
    within the ceiling taken as a linear level, the buffer keeps its
    shape, and [validate] reports it valid whatever else the
    specification asks for. *)
Theorem limited_buffer_passes_validation (ceiling : R) (workingBuffer : AudioBuffer.t)
  (targetSpecs : ExportValidator.TargetSpecs) :
  AudioBuffer.valid workingBuffer ->
  ExportValidator.ts_truePeakCeiling targetSpecs = Some ceiling ->
  let limited := TrapMasterProEngine.limitTruePeak ceiling workingBuffer in
  AudioBuffer.shape limited = AudioBuffer.shape workingBuffer /\
  (forall ch i : nat,
     (ch < AudioBuffer.numberOfChannels workingBuffer)%nat ->
     (i < AudioBuffer.length workingBuffer)%nat ->
     Rabs (AudioBuffer.get limited ch i) <= JS.pow10 (ceiling / 20)) /\
  ExportValidator.r_valid (ExportValidator.validate limited targetSpecs) = true /\
  ExportValidator.r_errors (ExportValidator.validate limited targetSpecs) = [].
Proof.
  intros Hv Hspec limited.
  destruct (limitTruePeak_post ceiling workingBuffer Hv) as [Hshape Hbound].
  fold limited in Hshape, Hbound.
  split; [exact Hshape |]. split.
  { intros ch i Hch Hi. specialize (Hbound ch i Hch Hi).
    pose proof (Rabs_pos (AudioBuffer.get limited ch i)). lra. }
  assert (Hgt : ExportValidator.level_gt
                  (fst (ExportValidator.measurePeaks limited)) ceiling = false).
  { apply (measurePeaks_peak_bound limited (JS.pow10 (ceiling / 20))); [| lra].
    intros ch i Hch Hi.
    pose proof Hshape as Hs. unfold AudioBuffer.shape in Hs. injection Hs as Hn _ _ _.
    rewrite Hn in Hch.
    destruct (shape_bounds workingBuffer limited ch Hv Hshape Hch) as [_ Hlen].
    unfold AudioBuffer.getChannelData in Hi. rewrite Hlen in Hi.
    specialize (Hbound ch i Hch Hi).
    pose proof (Rabs_pos (AudioBuffer.get limited ch i)). lra. }
  pose proof (measurePeaks_accumulators limited) as Heq.
  unfold ExportValidator.validate. rewrite Hspec.
  unfold ExportValidator.measurePeaks in Hgt |- *. cbv zeta in Heq, Hgt |- *.
  destruct (forRange _ _ _) as [pk tp]. subst tp. cbn [fst] in Hgt.
  rewrite Hgt. cbn. split; reflexivity.
Qed.

Lemma limited_buffer_passes_validation_witness :
  let workingBuffer := AudioBuffer.mk 1 2 48000 [[3; - 0.25]] in
  let targetSpecs :=
    {| ExportValidator.ts_sampleRate := Some 48000%Z;
       ExportValidator.ts_bitDepth := Some 24%Z;
       ExportValidator.ts_targetLUFS := Some (- 9);
       ExportValidator.ts_truePeakCeiling := Some (- 0.5) |} in
  AudioBuffer.valid workingBuffer /\
  ExportValidator.ts_truePeakCeiling targetSpecs = Some (- 0.5) /\
  ExportValidator.r_valid
    (ExportValidator.validate
       (TrapMasterProEngine.limitTruePeak (- 0.5) workingBuffer) targetSpecs) = true.
Proof.
  intros workingBuffer targetSpecs.
  assert (H1 : AudioBuffer.valid workingBuffer).
  { unfold AudioBuffer.valid. cbn. repeat split; try lia. repeat constructor. }
  assert (H2 : ExportValidator.ts_truePeakCeiling targetSpecs = Some (- 0.5))
    by reflexivity.
  split; [exact H1 |]. split; [exact H2 |].
  exact (proj1 (proj2 (proj2
           (limited_buffer_passes_validation (- 0.5) workingBuffer targetSpecs H1 H2)))).
Defined.

(** * Buffers written through a second reference *)

(** Two buffers of one shape that agree at every position are the same
    buffer value. *)
Lemma buffer_ext (a b : AudioBuffer.t) :
  AudioBuffer.valid a -> AudioBuffer.shape b = AudioBuffer.shape a ->
  (forall ch i : nat,
     (ch < AudioBuffer.numberOfChannels a)%nat -> (i < AudioBuffer.length a)%nat ->
     AudioBuffer.get b ch i = AudioBuffer.get a ch i) ->
  b = a.
Proof.
  intros Hv Hshape Hget.
  pose proof Hshape as Hs. unfold AudioBuffer.shape in Hs. injection Hs as Hn Hl Hr _.
  assert (Hch : AudioBuffer.channels b = AudioBuffer.channels a).
  { pose proof Hv as (_ & _ & Hna & _).
    apply (nth_ext _ _ [] []).
    - destruct (shape_bounds a b 0 Hv Hshape) as [_ _]; [destruct Hv; lia |].
      pose proof (valid_shape _ _ Hshape Hv) as (_ & _ & Hnb & _). lia.
    - intros ch Hlt.
      assert (Hc : (ch < AudioBuffer.numberOfChannels a)%nat).
      { pose proof (valid_shape _ _ Hshape Hv) as (_ & _ & Hnb & _). lia. }
      destruct (shape_bounds a b ch Hv Hshape Hc) as [_ Hlb].
      destruct (shape_bounds a a ch Hv eq_refl Hc) as [_ Hla].
      apply (nth_ext _ _ 0 0); [lia |].
      intros i Hi. apply (Hget ch i Hc). lia. }
  destruct a, b. cbn in *. subst. reflexivity.
Qed.

(** The loop that writes to one buffer a function of the samples of
    another: only the written buffer changes, it keeps its shape, and it
    ends up holding the function of the other's samples. *)
Lemma heapMap_loop (G : R -> R) (h : Heap.t) (src dst : Heap.ref) :
  src <> dst -> (dst < List.length h)%nat ->
  AudioBuffer.valid (Heap.deref h src) ->
  AudioBuffer.shape (Heap.deref h dst) = AudioBuffer.shape (Heap.deref h src) ->
  let h' :=
    forRange (AudioBuffer.numberOfChannels (Heap.deref h src))
      (fun ch h0 =>
         forRange (List.length (AudioBuffer.getChannelData (Heap.deref h0 src) ch))
           (fun i h1 =>
              Heap.assign h1 dst
                (AudioBuffer.set (Heap.deref h1 dst) ch i
                   (G (AudioBuffer.get (Heap.deref h1 src) ch i))))
           h0)
      h in
  List.length h' = List.length h /\
  (forall r, r <> dst -> Heap.deref h' r = Heap.deref h r) /\
  AudioBuffer.shape (Heap.deref h' dst) = AudioBuffer.shape (Heap.deref h src) /\
  forall ch i : nat,
    (ch < AudioBuffer.numberOfChannels (Heap.deref h src))%nat ->
    (i < AudioBuffer.length (Heap.deref h src))%nat ->
    AudioBuffer.get (Heap.deref h' dst) ch i = G (AudioBuffer.get (Heap.deref h src) ch i).
Proof.
  intros Hne Hdst Hv Hshape h'. unfold h'. clear h'.
  set (a := Heap.deref h src) in *.
  set (P := fun (c : nat) (h0 : Heap.t) =>
              List.length h0 = List.length h /\
              (forall r, r <> dst -> Heap.deref h0 r = Heap.deref h r) /\
              AudioBuffer.shape (Heap.deref h0 dst) = AudioBuffer.shape a /\
              forall ch i : nat,
                (ch < c)%nat -> (i < AudioBuffer.length a)%nat ->
                AudioBuffer.get (Heap.deref h0 dst) ch i = G (AudioBuffer.get a ch i)).
  match goal with
  | |- List.length ?loop = _ /\ _ => enough (HP : P (AudioBuffer.numberOfChannels a) loop)
  end.
  { exact HP. }
  apply forRange_ind.
  - split; [reflexivity |]. split; [reflexivity |]. split; [exact Hshape |].
    intros ? ? H. lia.
  - intros c h0 Hc (Hlen & Hframe & Hsh & Hdone).
    rewrite (Hframe src Hne). fold a.
    destruct (shape_bounds a a c Hv eq_refl Hc) as [_ Hla].
    unfold AudioBuffer.getChannelData at 1. rewrite Hla.
    set (P' := fun (k : nat) (h1 : Heap.t) =>
                 List.length h1 = List.length h /\
                 (forall r, r <> dst -> Heap.deref h1 r = Heap.deref h r) /\
                 AudioBuffer.shape (Heap.deref h1 dst) = AudioBuffer.shape a /\
                 (forall ch i : nat,
                    (ch < c)%nat -> (i < AudioBuffer.length a)%nat ->
                    AudioBuffer.get (Heap.deref h1 dst) ch i = G (AudioBuffer.get a ch i)) /\
                 forall i : nat, (i < k)%nat ->
                   AudioBuffer.get (Heap.deref h1 dst) c i = G (AudioBuffer.get a c i)).
    match goal with
    | |- P _ ?loop => enough (HP' : P' (AudioBuffer.length a) loop)
    end.
    { destruct HP' as (Hlen' & Hframe' & Hsh' & Hdone' & Hrow).
      split; [exact Hlen' |]. split; [exact Hframe' |]. split; [exact Hsh' |].
      intros ch i Hch Hi.
      destruct (Nat.eq_dec ch c) as [-> | Hnc]; [apply Hrow, Hi | apply Hdone'; lia]. }
    apply forRange_ind.
    + split; [exact Hlen |]. split; [exact Hframe |]. split; [exact Hsh |].
      split; [exact Hdone |]. intros ? H. lia.
    + intros k h1 Hk (Hlen1 & Hframe1 & Hsh1 & Hdone1 & Hrow1). unfold P'.
      destruct (shape_bounds a (Heap.deref h1 dst) c Hv Hsh1 Hc) as [Hb1 Hb2].
      rewrite (Hframe1 src Hne). fold a.
      split; [rewrite assign_length; exact Hlen1 |]. split.
      * intros r Hr. rewrite deref_assign_other by exact Hr. apply Hframe1, Hr.
      * rewrite deref_assign_same by lia. split; [rewrite shape_set; exact Hsh1 |]. split.
        -- intros ch i Hch Hi. rewrite get_set_other by (left; lia).
           apply Hdone1; assumption.
        -- intros i Hi. destruct (Nat.eq_dec i k) as [-> | Hnk].
           ++ apply get_set_same; [exact Hb1 | rewrite Hb2; exact Hk].
           ++ rewrite get_set_other by (right; exact Hnk). apply Hrow1. lia.
Qed.

Lemma valid_in_heap (h : Heap.t) (r : Heap.ref) :
  AudioBuffer.valid (Heap.deref h r) -> (r < List.length h)%nat.
Proof.
  intros (Hc & _). destruct (Nat.lt_ge_cases r (List.length h)) as [Hlt | Hge];
    [exact Hlt |].
  unfold Heap.deref in Hc. rewrite nth_overflow in Hc by exact Hge. cbn in Hc. lia.
Qed.

(** X22.  [matchLoudness] on a valid buffer allocates one new buffer and
    returns it: every buffer that existed keeps its content, and the new
    one has the shape of the input and holds its samples times
    [10^((targetLUFS - sourceLUFS) / 20)], each to one part in a million
    of that product (and of [10^-30], for the smallest), as long as the
    product is within single-precision range. *)
Theorem matchLoudness_scales_into_fresh_buffer (h : Heap.t) (buffer : Heap.ref)
  (targetLUFS sourceLUFS : R) :
  AudioBuffer.valid (Heap.deref h buffer) ->
  let call := matchLoudness h buffer targetLUFS sourceLUFS in
  let matched := Heap.deref (fst call) (List.length h) in
  snd call = Ok (List.length h) /\
  List.length (fst call) = Datatypes.S (List.length h) /\
  (forall r, (r < List.length h)%nat -> Heap.deref (fst call) r = Heap.deref h r) /\
  AudioBuffer.shape matched = AudioBuffer.shape (Heap.deref h buffer) /\
  forall ch i : nat,
    (ch < AudioBuffer.numberOfChannels (Heap.deref h buffer))%nat ->
    (i < AudioBuffer.length (Heap.deref h buffer))%nat ->
    let scaled :=
      AudioBuffer.get (Heap.deref h buffer) ch i
      * JS.pow10 ((targetLUFS - sourceLUFS) / 20) in
    Rabs scaled <= 1e38 ->
    agreeAt (Rabs scaled + 1e-30) (AudioBuffer.get matched ch i) scaled.
Proof.
  intros Hv call matched. unfold matched, call, matchLoudness. clear matched call.
  destruct (shape_createBuffer _ Hv) as (fresh & Hfresh & Hshape).
  rewrite Hfresh. unfold Heap.alloc.
  pose proof (valid_in_heap _ _ Hv) as Hin.
  assert (Hold : Heap.deref (h ++ [fresh]) buffer = Heap.deref h buffer)
    by (apply deref_alloc_old, Hin).
  assert (Hlen : (List.length h < List.length (h ++ [fresh]))%nat)
    by (rewrite length_app; cbn; lia).
  pose proof (heapMap_loop (fun x => x * JS.pow10 ((targetLUFS - sourceLUFS) / 20))
                (h ++ [fresh]) buffer (List.length h) ltac:(lia) Hlen
                ltac:(rewrite Hold; exact Hv)
                ltac:(rewrite Hold, deref_alloc_new; exact Hshape)) as Hloop.
  cbv zeta in Hloop. destruct Hloop as (Hl & Hframe & Hsh & Hget).
  cbn [fst snd]. rewrite Hold in Hl, Hframe, Hsh, Hget |- *.
  split; [reflexivity |]. split.
  - rewrite Hl, length_app. cbn. lia.
  - split.
    + intros r Hr. rewrite Hframe by lia. apply deref_alloc_old, Hr.
    + split; [exact Hsh |].
      intros ch i Hch Hi. cbv zeta. intros _.
      apply agreeAt_eq; [| apply Hget; assumption].
      match goal with |- 0 <= Rabs ?x + _ => pose proof (Rabs_pos x) end.
      lra.
Qed.

Lemma matchLoudness_scales_into_fresh_buffer_witness :
  let h := [AudioBuffer.mk 1 2 48000 [[0.5; - 0.25]]] in
  AudioBuffer.valid (Heap.deref h 0%nat) /\
  snd (matchLoudness h 0%nat (- 9) (- 14)) = Ok 1%nat.
Proof.
  intros h.
  assert (H : AudioBuffer.valid (Heap.deref h 0%nat)).
  { unfold AudioBuffer.valid. cbn. repeat split; try lia. repeat constructor. }
  split; [exact H |].
  exact (proj1 (matchLoudness_scales_into_fresh_buffer h 0%nat (- 9) (- 14) H)).
Defined.

(** The copy loop of [process] leaves in the working buffer the value of
    the input buffer. *)
Lemma copyChannels_copies (h : Heap.t) (audioBuffer processedBuffer : Heap.ref) :
  audioBuffer <> processedBuffer -> (processedBuffer < List.length h)%nat ->
  AudioBuffer.valid (Heap.deref h audioBuffer) ->
  AudioBuffer.shape (Heap.deref h processedBuffer)
  = AudioBuffer.shape (Heap.deref h audioBuffer) ->
  Heap.deref (PresetEngine.copyChannels h audioBuffer processedBuffer) processedBuffer
  = Heap.deref h audioBuffer.
Proof.
  intros Hne Hp Hv Hshape. unfold PresetEngine.copyChannels.
  pose proof (heapMap_loop (fun x => x) h audioBuffer processedBuffer Hne Hp Hv Hshape)
    as Hloop.
  cbv zeta in Hloop. destruct Hloop as (_ & _ & Hsh & Hget).
  apply buffer_ext; assumption.
Qed.

(** X23.  With the measurements set, [process] on a catalog name and a
    valid buffer returns a new buffer whose value is the chain of that
    name run on the value of the input: the copy made first is exact. *)
Theorem process_runs_chain_on_input (self : PresetEngine.t) (analysis : AnalysisData)
  (h : Heap.t) (audioBuffer : Heap.ref) (presetName : string)
  (p : PresetEngine.preset) :
  AudioBuffer.valid (Heap.deref h audioBuffer) ->
  PresetEngine.getPreset self presetName = PresetEngine.Own p ->
  let call :=
    PresetEngine.process (PresetEngine.setAnalysis self analysis) h audioBuffer
      presetName in
  snd call = Ok (List.length h) /\
  Heap.deref (fst call) (List.length h)
  = PresetEngine.run p (Heap.deref h audioBuffer) analysis.
Proof.
  intros Hv Hp call. unfold call, PresetEngine.process. clear call.
  change (PresetEngine.getPreset (PresetEngine.setAnalysis self analysis) presetName)
    with (PresetEngine.getPreset self presetName).
  rewrite Hp.
  destruct (shape_createBuffer _ Hv) as (fresh & Hfresh & Hshape).
  rewrite Hfresh. unfold Heap.alloc, PresetEngine.presetProcess.
  cbn [PresetEngine.setAnalysis PresetEngine.analysisData fst snd].
  pose proof (valid_in_heap _ _ Hv) as Hin.
  assert (Hold : Heap.deref (h ++ [fresh]) audioBuffer = Heap.deref h audioBuffer)
    by (apply deref_alloc_old, Hin).
  assert (Hlen : (List.length h < List.length (h ++ [fresh]))%nat)
    by (rewrite length_app; cbn; lia).
  rewrite (copyChannels_copies (h ++ [fresh]) audioBuffer (List.length h))
    by first [lia | rewrite Hold; exact Hv
                | rewrite Hold, deref_alloc_new; exact Hshape].
  split; [reflexivity |].
  rewrite deref_assign_same.
  - rewrite Hold. reflexivity.
  - destruct (copyChannels_frame (h ++ [fresh]) audioBuffer (List.length h) Hlen)
      as (Hl & _). lia.
Qed.

Lemma process_runs_chain_on_input_witness :
  let h := [AudioBuffer.mk 1 2 48000 [[0.5; - 0.25]]] in
  let analysis :=
    {| dynamicRange := Some 10; harshness := Some 0.2; mud := None;
       bassStability := None; vocalDominance := None; spectralBalance := None |} in
  let self := PresetEngine.new 48000 in
  let p := PresetEngine.DynamicClear (DynamicClearPreset.new 48000) in
  AudioBuffer.valid (Heap.deref h 0%nat) /\
  PresetEngine.getPreset self "Dynamic & Clear" = PresetEngine.Own p /\
  snd (PresetEngine.process (PresetEngine.setAnalysis self analysis) h 0%nat
         "Dynamic & Clear")
  = Ok 1%nat.
Proof.
  intros h analysis self p.
  assert (H1 : AudioBuffer.valid (Heap.deref h 0%nat)).
  { unfold AudioBuffer.valid. cbn. repeat split; try lia. repeat constructor. }
  assert (H2 : PresetEngine.getPreset self "Dynamic & Clear" = PresetEngine.Own p)
    by reflexivity.
  split; [exact H1 |]. split; [exact H2 |].
  exact (proj1 (process_runs_chain_on_input self analysis h 0%nat "Dynamic & Clear" p
                  H1 H2)).
Defined.

(** X24.  Before any measurements are set ([analysisData] is [null]),
    [process] fails for every catalog name with the [TypeError] of reading
    a property of [null], after it has allocated and filled the working
    buffer: the heap has grown by one buffer and the caller gets no
    reference to it. *)
Theorem process_without_analysis_fails (sampleRate : R) (h : Heap.t)
  (audioBuffer : Heap.ref) (presetName : string) :
  In presetName PresetEngine.getPresetNames ->
  AudioBuffer.valid (Heap.deref h audioBuffer) ->
  let call := PresetEngine.process (PresetEngine.new sampleRate) h audioBuffer presetName in
  snd call = Err (TypeError "Cannot read properties of null") /\
  List.length (fst call) = Datatypes.S (List.length h) /\
  Heap.deref (fst call) (List.length h) = Heap.deref h audioBuffer.
Proof.
  intros Hname Hv call. unfold call, PresetEngine.process. clear call.
  destruct (getPreset_catalog (PresetEngine.new sampleRate) presetName Hname) as (p & Hp).
  rewrite Hp.
  destruct (shape_createBuffer _ Hv) as (fresh & Hfresh & Hshape).
  rewrite Hfresh. unfold Heap.alloc, PresetEngine.presetProcess.
  cbn [PresetEngine.new PresetEngine.analysisData fst snd].
  pose proof (valid_in_heap _ _ Hv) as Hin.
  assert (Hold : Heap.deref (h ++ [fresh]) audioBuffer = Heap.deref h audioBuffer)
    by (apply deref_alloc_old, Hin).
  assert (Hlen : (List.length h < List.length (h ++ [fresh]))%nat)
    by (rewrite length_app; cbn; lia).
  split; [reflexivity |]. split.
  - destruct (copyChannels_frame (h ++ [fresh]) audioBuffer (List.length h) Hlen)
      as (Hl & _). rewrite Hl, length_app. cbn. lia.
  - rewrite (copyChannels_copies (h ++ [fresh]) audioBuffer (List.length h))
      by first [lia | rewrite Hold; exact Hv
                | rewrite Hold, deref_alloc_new; exact Hshape].
    exact Hold.
Qed.

Lemma process_without_analysis_fails_witness :
  let h := [AudioBuffer.mk 1 2 48000 [[0.5; - 0.25]]] in
  In "Neo Soul"%string PresetEngine.getPresetNames /\
  AudioBuffer.valid (Heap.deref h 0%nat) /\
  snd (PresetEngine.process (PresetEngine.new 48000) h 0%nat "Neo Soul")
  = Err (TypeError "Cannot read properties of null").
Proof.
  intros h.
  assert (H1 : In "Neo Soul"%string PresetEngine.getPresetNames).
  { unfold PresetEngine.getPresetNames. do 6 right. left. reflexivity. }
  assert (H2 : AudioBuffer.valid (Heap.deref h 0%nat)).
  { unfold AudioBuffer.valid. cbn. repeat split; try lia. repeat constructor. }
  split; [exact H1 |]. split; [exact H2 |].
  exact (proj1 (process_without_analysis_fails 48000 h 0%nat "Neo Soul" H1 H2)).
Defined.

(** X25.  [getPresetIntent] answers with the intent text for each of the
    sixteen catalog names and with the empty string for a name that is
    neither in the catalog nor inherited from [Object.prototype]; for an
    inherited name such as [constructor] it throws a [TypeError], the
    lookup having found a truthy value without a [getIntent] method. *)
Theorem getPresetIntent_cases (presetEngine : PresetEngine.t) (presetName : string) :
  (In presetName PresetEngine.getPresetNames ->
   exists p, In (presetName, p) (PresetEngine.presets (PresetEngine.sampleRate presetEngine))
             /\ getPresetIntent presetEngine presetName = Ok (getIntent p)
             /\ getIntent p <> EmptyString) /\
  (~ In presetName PresetEngine.getPresetNames ->
   ~ In presetName PresetEngine.objectPrototype ->
   getPresetIntent presetEngine presetName = Ok EmptyString) /\
  (In presetName PresetEngine.objectPrototype ->
   getPresetIntent presetEngine presetName
   = Err (TypeError "preset.getIntent is not a function")).
Proof.
  split; [| split].
  - unfold PresetEngine.getPresetNames. intros H.
    repeat (destruct H as [<- | H];
            [eexists; split; [| split; [reflexivity | discriminate]];
             unfold PresetEngine.presets; cbn [In]; tauto |]).
    destruct H.
  - intros Hcat Hproto. unfold getPresetIntent, PresetEngine.getPreset,
      PresetEngine.getProperty.
    rewrite (ownProperty_names _ _ Hcat).
    assert (He : existsb (String.eqb presetName) PresetEngine.objectPrototype = false).
    { apply Bool.not_true_is_false. intros He. apply existsb_exists in He.
      destruct He as (x & Hx & Heq). apply String.eqb_eq in Heq. subst x.
      exact (Hproto Hx). }
    rewrite He. reflexivity.
  - unfold PresetEngine.objectPrototype. intros H.
    repeat (destruct H as [<- | H]; [reflexivity |]).
    destruct H.
Qed.

(** * Sample-rate converter *)

(** A loop that writes, channel by channel, a value that depends on the
    position only. *)
Lemma fill_post (F : nat -> nat -> R) (a : AudioBuffer.t) :
  AudioBuffer.valid a ->
  let out :=
    forRange (AudioBuffer.numberOfChannels a)
      (fun ch out =>
         forRange (AudioBuffer.length a)
           (fun i out => AudioBuffer.set out ch i (F ch i)) out)
      a in
  AudioBuffer.shape out = AudioBuffer.shape a /\
  forall ch i : nat,
    (ch < AudioBuffer.numberOfChannels a)%nat -> (i < AudioBuffer.length a)%nat ->
    AudioBuffer.get out ch i = F ch i.
Proof.
  intros Hv out. unfold out. clear out.
  set (P := fun (c : nat) (b : AudioBuffer.t) =>
              AudioBuffer.shape b = AudioBuffer.shape a /\
              forall ch i : nat,
                (ch < c)%nat -> (i < AudioBuffer.length a)%nat ->
                AudioBuffer.get b ch i = F ch i).
  match goal with
  | |- AudioBuffer.shape ?loop = _ /\ _ =>
      enough (HP : P (AudioBuffer.numberOfChannels a) loop) by exact HP
  end.
  apply forRange_ind.
  - split; [reflexivity |]. intros ? ? H. lia.
  - intros c b Hc (Hshape & Hdone).
    set (P' := fun (k : nat) (b : AudioBuffer.t) =>
                 AudioBuffer.shape b = AudioBuffer.shape a /\
                 (forall ch i : nat,
                    (ch < c)%nat -> (i < AudioBuffer.length a)%nat ->
                    AudioBuffer.get b ch i = F ch i) /\
                 forall i : nat, (i < k)%nat -> AudioBuffer.get b c i = F c i).
    match goal with
    | |- P _ ?loop => enough (HP' : P' (AudioBuffer.length a) loop)
    end.
    { destruct HP' as (Hshape' & Hdone' & Hrow). split; [exact Hshape' |].
      intros ch i Hch Hi.
      destruct (Nat.eq_dec ch c) as [-> | Hne]; [apply Hrow, Hi | apply Hdone'; lia]. }
    apply forRange_ind.
    + split; [exact Hshape |]. split; [exact Hdone |]. intros ? H. lia.
    + intros k b1 Hk (Hshape1 & Hdone1 & Hrow1). unfold P'.
      destruct (shape_bounds a b1 c Hv Hshape1 Hc) as [Hb1 Hb2].
      split; [rewrite shape_set; exact Hshape1 |]. split.
      * intros ch i Hch Hi. rewrite get_set_other by (left; lia).
        apply Hdone1; assumption.
      * intros i Hi. destruct (Nat.eq_dec i k) as [-> | Hnk].
        -- apply get_set_same; [exact Hb1 | rewrite Hb2; exact Hk].
        -- rewrite get_set_other by (right; exact Hnk). apply Hrow1. lia.
Qed.

Lemma createBuffer_valid (nch len : nat) (sr : Z) :
  (1 <= nch)%nat -> (1 <= len)%nat ->
  AudioBuffer.createBuffer nch len sr
  = Ok (AudioBuffer.mk nch len sr (repeat (repeat 0 len) nch)) /\
  AudioBuffer.valid (AudioBuffer.mk nch len sr (repeat (repeat 0 len) nch)).
Proof.
  intros Hn Hl. unfold AudioBuffer.createBuffer.
  destruct nch as [| n]; [lia |]. destruct len as [| l]; [lia |]. cbn [Nat.eqb orb].
  split; [reflexivity |].
  unfold AudioBuffer.valid. cbn [AudioBuffer.numberOfChannels AudioBuffer.length
                                 AudioBuffer.channels].
  split; [lia |]. split; [lia |]. split; [apply repeat_length |].
  apply Forall_forall. intros data Hin. apply repeat_spec in Hin. subst data.
  apply repeat_length.
Qed.

(** X26.  Converting a valid buffer between two different rates, with
    [length * ratio] clear of the integers: below 1 the allocation of the
    output fails; above 1 the result is a valid buffer with the input's
    channel count, [floor(length * ratio)] frames and the output rate.
    The value written at an output index depends on the index only
    through [floor(i / ratio)]: the fractional position is computed and
    not used, so two indices whose positions [i / ratio] lie between the
    same two integers, clear of both, get the same value. *)
Theorem convert_ignores_fractional_position (self : LosslessSampleRateConverter.t)
  (audioBuffer : AudioBuffer.t) :
  LosslessSampleRateConverter.inputRate self
  <> LosslessSampleRateConverter.outputRate self ->
  AudioBuffer.valid audioBuffer ->
  let scaled :=
    INR (AudioBuffer.length audioBuffer) * LosslessSampleRateConverter.ratio self in
  clearOfIntegers scaled ->
  (scaled < 1 ->
   LosslessSampleRateConverter.convert self audioBuffer
   = Err (NotSupportedError "createBuffer")) /\
  (1 < scaled ->
   exists out : AudioBuffer.t,
     LosslessSampleRateConverter.convert self audioBuffer = Ok out /\
     AudioBuffer.valid out /\
     AudioBuffer.numberOfChannels out = AudioBuffer.numberOfChannels audioBuffer /\
     AudioBuffer.length out = Z.to_nat (JS.floor scaled) /\
     AudioBuffer.sampleRate out = LosslessSampleRateConverter.outputRate self /\
     forall ch i i' : nat,
       (ch < AudioBuffer.numberOfChannels audioBuffer)%nat ->
       (i < AudioBuffer.length out)%nat -> (i' < AudioBuffer.length out)%nat ->
       clearOfIntegers (INR i / LosslessSampleRateConverter.ratio self) ->
       clearOfIntegers (INR i' / LosslessSampleRateConverter.ratio self) ->
       JS.floor (INR i / LosslessSampleRateConverter.ratio self)
       = JS.floor (INR i' / LosslessSampleRateConverter.ratio self) ->
       AudioBuffer.get out ch i = AudioBuffer.get out ch i').
Proof.
  intros Hrates Hv scaled Hclear.
  set (outputLength := Z.to_nat (JS.floor scaled)).
  unfold LosslessSampleRateConverter.convert.
  apply Z.eqb_neq in Hrates. rewrite Hrates. fold scaled. fold outputLength.
  pose proof Hv as (Hn & _).
  destruct (base_Int_part scaled) as [Hfl Hfu]. fold (JS.floor scaled) in Hfl, Hfu.
  split.
  - intros Hlt.
    assert (H0 : outputLength = 0%nat).
    { unfold outputLength.
      assert (Hz : (JS.floor scaled < 1)%Z) by (apply lt_IZR; lra).
      destruct (JS.floor scaled); try reflexivity; lia. }
    rewrite H0. unfold AudioBuffer.createBuffer.
    rewrite Nat.eqb_refl, Bool.orb_true_r. reflexivity.
  - intros Hgt.
    assert (Hne : (1 <= outputLength)%nat).
    { unfold outputLength.
      assert (Hz : (0 < JS.floor scaled)%Z) by (apply lt_IZR; lra). lia. }
    destruct (createBuffer_valid (AudioBuffer.numberOfChannels audioBuffer) outputLength
                (LosslessSampleRateConverter.outputRate self) Hn Hne)
      as [Hcreate Hvalid].
    rewrite Hcreate. cbn [bind].
    set (fresh := AudioBuffer.mk (AudioBuffer.numberOfChannels audioBuffer) outputLength
                    (LosslessSampleRateConverter.outputRate self)
                    (repeat (repeat 0 outputLength)
                       (AudioBuffer.numberOfChannels audioBuffer))) in *.
    set (F := fun (ch i : nat) =>
                forRange (LosslessSampleRateConverter.sincFilterLength self)
                  (fun j sum =>
                     let sampleIndex :=
                       (JS.floor (INR i / LosslessSampleRateConverter.ratio self)
                        + Z.of_nat j
                        - Z.of_nat (Nat.div
                                      (LosslessSampleRateConverter.sincFilterLength self) 2))%Z in
                     if ((0 <=? sampleIndex)
                         && (sampleIndex <? Z.of_nat (AudioBuffer.length audioBuffer)))%Z
                     then sum + nth (Z.to_nat sampleIndex)
                                  (AudioBuffer.getChannelData audioBuffer ch) 0
                                * nth j (LosslessSampleRateConverter.sincFilter self) 0
                     else sum)
                  0).
    pose proof (fill_post F fresh Hvalid) as Hfill. cbv zeta in Hfill.
    destruct Hfill as [Hshape Hget].
    change (AudioBuffer.numberOfChannels fresh)
      with (AudioBuffer.numberOfChannels audioBuffer) in Hshape, Hget.
    change (AudioBuffer.length fresh) with outputLength in Hshape, Hget.
    match type of Hshape with
    | AudioBuffer.shape ?loop = _ => exists loop
    end.
    split; [reflexivity |].
    split; [exact (valid_shape _ _ Hshape Hvalid) |].
    pose proof Hshape as Hs. unfold AudioBuffer.shape in Hs.
    injection Hs as Hnc Hlen Hsr _.
    split; [exact Hnc |]. split; [exact Hlen |]. split; [exact Hsr |].
    intros ch i i' Hch Hi Hi' _ _ Hfloor. rewrite Hlen in Hi, Hi'.
    rewrite (Hget ch i Hch Hi), (Hget ch i' Hch Hi'). unfold F. rewrite Hfloor.
    reflexivity.
Qed.

Lemma convert_ignores_fractional_position_witness :
  let self := LosslessSampleRateConverter.new 44100 96000 in
  let audioBuffer := AudioBuffer.mk 1 2 44100 [[0.5; - 0.25]] in
  LosslessSampleRateConverter.inputRate self
  <> LosslessSampleRateConverter.outputRate self /\
  AudioBuffer.valid audioBuffer /\
  clearOfIntegers
    (INR (AudioBuffer.length audioBuffer) * LosslessSampleRateConverter.ratio self) /\
  exists out : AudioBuffer.t,
    LosslessSampleRateConverter.convert self audioBuffer = Ok out /\
    AudioBuffer.length out = 4%nat /\
    AudioBuffer.get out 0 1 = AudioBuffer.get out 0 2.
Proof.
  intros self audioBuffer.
  assert (H1 : LosslessSampleRateConverter.inputRate self
               <> LosslessSampleRateConverter.outputRate self) by (cbn; lia).
  assert (H2 : AudioBuffer.valid audioBuffer).
  { unfold AudioBuffer.valid. cbn. repeat split; try lia. repeat constructor. }
  assert (Hratio : LosslessSampleRateConverter.ratio self = 96000 / 44100)
    by reflexivity.
  assert (Hlen : INR (AudioBuffer.length audioBuffer) = 2) by (cbn; lra).
  assert (Hf4 : JS.floor (INR (AudioBuffer.length audioBuffer)
                          * LosslessSampleRateConverter.ratio self) = 4%Z).
  { rewrite Hlen, Hratio. unfold JS.floor. symmetry. apply Int_part_spec. lra. }
  assert (Hf1 : JS.floor (INR 1 / LosslessSampleRateConverter.ratio self) = 0%Z).
  { rewrite Hratio. unfold JS.floor. symmetry. apply Int_part_spec. cbn [INR]. lra. }
  assert (Hf2 : JS.floor (INR 2 / LosslessSampleRateConverter.ratio self) = 0%Z).
  { rewrite Hratio. unfold JS.floor. symmetry. apply Int_part_spec. cbn [INR]. lra. }
  assert (H3 : clearOfIntegers
                 (INR (AudioBuffer.length audioBuffer)
                  * LosslessSampleRateConverter.ratio self)).
  { unfold clearOfIntegers. rewrite Hf4. rewrite Hlen, Hratio. lra. }
  assert (Hc1 : clearOfIntegers (INR 1 / LosslessSampleRateConverter.ratio self)).
  { unfold clearOfIntegers. rewrite Hf1. rewrite Hratio. cbn [INR]. lra. }
  assert (Hc2 : clearOfIntegers (INR 2 / LosslessSampleRateConverter.ratio self)).
  { unfold clearOfIntegers. rewrite Hf2. rewrite Hratio. cbn [INR]. lra. }
  assert (Hgt : 1 < INR (AudioBuffer.length audioBuffer)
                    * LosslessSampleRateConverter.ratio self)
    by (rewrite Hlen, Hratio; lra).
  split; [exact H1 |]. split; [exact H2 |]. split; [exact H3 |].
  destruct (proj2 (convert_ignores_fractional_position self audioBuffer H1 H2 H3) Hgt)
    as (out & Hout & _ & _ & Hl & _ & Hsame).
  rewrite Hf4 in Hl.
  exists out. split; [exact Hout |]. split; [exact Hl |].
  apply Hsame; [cbn; lia | rewrite Hl; lia | rewrite Hl; lia | exact Hc1 | exact Hc2 |].
  rewrite Hf1, Hf2. reflexivity.
Defined.

(** * Analysis: dynamic range *)

Lemma Rabs_sqr (x : R) : Rabs x * Rabs x = x * x.
Proof. unfold Rabs. destruct (Rcase_abs x); ring. Qed.

(** What the loop of [calculateDynamicRange] accumulates: the peak is
    non-negative, its square is part of the sum of squares, and the sum is
    at most the count times the square of the peak. *)
Lemma dynamicRange_accumulators (samples : list R) :
  let '(sumSquared, peak) :=
    forRange (List.length samples)
      (fun i '(sumSquared, peak) =>
         let abs := Rabs (nth i samples 0) in
         (sumSquared + nth i samples 0 * nth i samples 0, Rmax peak abs))
      (0, 0) in
  0 <= peak /\ peak * peak <= sumSquared
  /\ sumSquared <= INR (List.length samples) * (peak * peak)
  /\ ((forall x, In x samples -> x = 0) -> peak = 0).
Proof.
  set (P := fun (i : nat) (st : R * R) =>
              0 <= snd st /\ snd st * snd st <= fst st
              /\ fst st <= INR i * (snd st * snd st)
              /\ ((forall x, In x samples -> x = 0) -> snd st = 0)).
  match goal with
  | |- let '(_, _) := ?loop in _ => assert (HP : P (List.length samples) loop)
  end.
  { apply forRange_ind.
    - unfold P. cbn. repeat split; try lra. 
    - intros i [s p] Hi (Hp & Hlo & Hhi & Hz). unfold P in *. cbn [fst snd] in *.
      rewrite S_INR.
      pose proof (Rabs_sqr (nth i samples 0)) as Hsq.
      pose proof (Rabs_pos (nth i samples 0)) as Ha.
      set (x := nth i samples 0) in *. set (a := Rabs x) in *.
      assert (Hi0 : 0 <= INR i) by apply pos_INR.
      split; [| split; [| split]].
      + unfold Rmax. destruct (Rle_dec p a); lra.
      + unfold Rmax. destruct (Rle_dec p a); nra.
      + unfold Rmax. destruct (Rle_dec p a) as [Hpa | Hpa].
        * assert (Hpp : p * p <= a * a) by nra.
          assert (Hip : INR i * (p * p) <= INR i * (a * a))
            by (apply Rmult_le_compat_l; assumption).
          lra.
        * assert (Hpp : a * a <= p * p) by nra. lra.
      + intros Hall. rewrite (Hz Hall).
        assert (Hx : x = 0) by (apply Hall, nth_In, Hi).
        unfold a. rewrite Hx, Rabs_R0. apply Rmax_left. lra. }
  destruct (forRange _ _ _) as [s p]. exact HP.
Qed.

(** X27.  [calculateDynamicRange] reports no dynamic range below zero
    beyond rounding: for silence both figures are exactly zero, and
    otherwise, the peak being at least the RMS level, the crest factor is
    not below 0.9999 and the dynamic range not below -0.001 dB. *)
Theorem dynamicRange_is_never_negative (samples : list R) :
  let '(dynamicRange, crestFactor) := AudioAnalysis.calculateDynamicRange samples in
  - 0.001 <= dynamicRange /\ (crestFactor = 0 \/ 0.9999 <= crestFactor) /\
  ((forall x, In x samples -> x = 0) -> dynamicRange = 0 /\ crestFactor = 0).
Proof.
  unfold AudioAnalysis.calculateDynamicRange.
  pose proof (dynamicRange_accumulators samples) as Hacc. cbv zeta in Hacc |- *.
  destruct (forRange _ _ _) as [s p].
  destruct Hacc as (Hp & Hlo & Hhi & Hz).
  destruct (JS.gt p 0) eqn:Hgt.
  - apply gt_inv_true in Hgt.
    assert (Hs : 0 < s) by nra.
    assert (Hn : 0 < INR (List.length samples)).
    { destruct (List.length samples) as [| n]; [cbn in Hhi; lra | apply lt_0_INR; lia]. }
    assert (Hq : 0 < s / INR (List.length samples)) by (apply Rdiv_lt_0_compat; lra).
    assert (Hle : s / INR (List.length samples) <= p * p).
    { apply (Rmult_le_reg_r (INR (List.length samples))); [exact Hn |].
      unfold Rdiv. rewrite Rmult_assoc, Rinv_l by lra. lra. }
    assert (Hr0 : 0 < sqrt (s / INR (List.length samples))) by (apply sqrt_lt_R0, Hq).
    assert (Hrp : sqrt (s / INR (List.length samples)) <= p).
    { rewrite <- (sqrt_square p) by lra. apply sqrt_le_1; lra. }
    set (rms := sqrt (s / INR (List.length samples))) in *.
    assert (Hcrest : 1 <= p / rms).
    { apply (Rmult_le_reg_r rms); [exact Hr0 |].
      unfold Rdiv. rewrite Rmult_assoc, Rinv_l by lra. lra. }
    split.
    + assert (JS.log10 1 <= JS.log10 (p / rms)) by (apply log10_le; lra).
      rewrite log10_1 in H. lra.
    + split; [right; lra |].
      intros Hall. specialize (Hz Hall). lra.
  - split; [lra |]. split; [left; reflexivity |]. intros _. split; reflexivity.
Qed.

(** * Pitch corrector: the first hop *)

(** Until the buffer index reaches the first hop boundary no pitch is
    detected, the smoothed deviation and the correction stay zero, and the
    sample passes through. *)
Lemma processSample_before_first_hop (self : AdvancedPitchCorrector.t) (sample : R) :
  0 <= AdvancedPitchCorrector.threshold self ->
  AdvancedPitchCorrector.pitchBufferSize self = 2048%nat ->
  AdvancedPitchCorrector.hopSize self = 256%nat ->
  (AdvancedPitchCorrector.bufferIndex self < 255)%nat ->
  AdvancedPitchCorrector.smoothedPitch self = 0 ->
  AdvancedPitchCorrector.smoothCorrection self = 0 ->
  let '(self', out) := AdvancedPitchCorrector.processSample self sample in
  out = sample /\
  AdvancedPitchCorrector.threshold self' = AdvancedPitchCorrector.threshold self /\
  AdvancedPitchCorrector.pitchBufferSize self' = 2048%nat /\
  AdvancedPitchCorrector.hopSize self' = 256%nat /\
  AdvancedPitchCorrector.bufferIndex self'
  = Datatypes.S (AdvancedPitchCorrector.bufferIndex self) /\
  AdvancedPitchCorrector.smoothedPitch self' = 0 /\
  AdvancedPitchCorrector.smoothCorrection self' = 0.
Proof.
  intros Hth Hsize Hhop Hidx Hsm Hco. unfold AdvancedPitchCorrector.processSample.
  rewrite Hsize, Hhop.
  assert (Hm1 : Nat.modulo (AdvancedPitchCorrector.bufferIndex self + 1) 2048
                = (AdvancedPitchCorrector.bufferIndex self + 1)%nat)
    by (apply Nat.mod_small; lia).
  rewrite Hm1.
  assert (Hm2 : Nat.modulo (AdvancedPitchCorrector.bufferIndex self + 1) 256
                = (AdvancedPitchCorrector.bufferIndex self + 1)%nat)
    by (apply Nat.mod_small; lia).
  rewrite Hm2.
  assert (Hz : ((AdvancedPitchCorrector.bufferIndex self + 1) =? 0)%nat = false)
    by (apply Nat.eqb_neq; lia).
  rewrite Hz, Hsm, Hco, Rabs_R0, (gt_false 0 _ Hth).
  replace (0 * 0.95) with 0 by lra.
  rewrite Rabs_R0, (gt_false 0 1) by lra.
  cbn [AdvancedPitchCorrector.threshold AdvancedPitchCorrector.pitchBufferSize
       AdvancedPitchCorrector.hopSize AdvancedPitchCorrector.bufferIndex
       AdvancedPitchCorrector.smoothedPitch AdvancedPitchCorrector.smoothCorrection].
  repeat split; try reflexivity. lia.
Qed.

(** X28.  A pitch corrector with a non-negative threshold returns the
    first 255 samples it is given unchanged: its first pitch detection
    runs when the 256th sample arrives, and until then nothing is
    corrected. *)
Theorem pitchCorrector_first_hop_is_untouched (threshold retuneSpeed sampleRate : R)
  (samples : list R) :
  0 <= threshold -> (List.length samples <= 255)%nat ->
  snd (runStage AdvancedPitchCorrector.processSample
         (AdvancedPitchCorrector.new threshold retuneSpeed sampleRate) samples)
  = samples.
Proof.
  intros Hth Hlen.
  assert (Hgen : forall self : AdvancedPitchCorrector.t,
             AdvancedPitchCorrector.threshold self = threshold ->
             AdvancedPitchCorrector.pitchBufferSize self = 2048%nat ->
             AdvancedPitchCorrector.hopSize self = 256%nat ->
             (AdvancedPitchCorrector.bufferIndex self + List.length samples <= 255)%nat ->
             AdvancedPitchCorrector.smoothedPitch self = 0 ->
             AdvancedPitchCorrector.smoothCorrection self = 0 ->
             snd (runStage AdvancedPitchCorrector.processSample self samples) = samples).
  { clear Hlen. induction samples as [| x rest IH]; intros self Ht Hs Hh Hi Hsm Hco.
    - reflexivity.
    - rewrite runStage_cons. cbn [snd]. cbn [List.length] in Hi.
      pose proof (processSample_before_first_hop self x ltac:(rewrite Ht; exact Hth)
                    Hs Hh ltac:(lia) Hsm Hco) as Hp.
      destruct (AdvancedPitchCorrector.processSample self x) as [self' out].
      cbn [fst snd].
      destruct Hp as (Hout & Ht' & Hs' & Hh' & Hi' & Hsm' & Hco').
      rewrite Hout. f_equal.
      apply IH; try assumption; [congruence | lia]. }
  apply Hgen; try reflexivity. cbn. lia.
Qed.

Lemma pitchCorrector_first_hop_is_untouched_witness :
  0 <= 25 /\ (List.length ([0.5; - 0.25; 0.125]%R) <= 255)%nat /\
  snd (runStage AdvancedPitchCorrector.processSample
         (AdvancedPitchCorrector.new 25 0.2 48000) [0.5; - 0.25; 0.125])
  = [0.5; - 0.25; 0.125].
Proof.
  assert (H1 : 0 <= 25) by lra.
  assert (H2 : (List.length ([0.5; - 0.25; 0.125]%R) <= 255)%nat) by (cbn; lia).
  split; [exact H1 |]. split; [exact H2 |].
  exact (pitchCorrector_first_hop_is_untouched 25 0.2 48000 [0.5; - 0.25; 0.125] H1 H2).
Defined.

(** * The encoder at the three bit depths *)

Lemma storeByte_length (offset : nat) (v : Z) (view : DataView.t) :
  List.length (DataView.storeByte offset v view) = List.length view.
Proof.
  revert offset. induction view as [| x rest IH]; intros [| j]; cbn; auto.
Qed.

Lemma setUint8_length (view : DataView.t) (offset : nat) (v : Z) :
  List.length (DataView.setUint8 view offset v) = List.length view.
Proof. apply storeByte_length. Qed.

Lemma setUint16_length (view : DataView.t) (offset : nat) (v : Z) :
  List.length (DataView.setUint16 view offset v) = List.length view.
Proof. unfold DataView.setUint16. rewrite !storeByte_length. reflexivity. Qed.

Lemma setUint32_length (view : DataView.t) (offset : nat) (v : Z) :
  List.length (DataView.setUint32 view offset v) = List.length view.
Proof. unfold DataView.setUint32. rewrite !storeByte_length. reflexivity. Qed.

Lemma writeString_length (s : string) (view : DataView.t) (offset : nat) :
  List.length (DataView.writeString view offset s) = List.length view.
Proof.
  revert view offset. induction s as [| c rest IH]; intros view offset; cbn.
  - reflexivity.
  - rewrite IH. apply setUint8_length.
Qed.

(** The encoder never resizes the buffer it allocated. *)
Lemma encodeWAV_length (float32_bits : R -> Z) (random : nat -> R)
  (workingBuffer : AudioBuffer.t) (bitDepth : Z) (dither : bool) :
  List.length
    (TrapMasterProEngine.view
       (TrapMasterProEngine.encodeWAV float32_bits random workingBuffer bitDepth dither))
  = ((if (bitDepth =? 32)%Z then 58 else if (bitDepth =? 24)%Z then 50 else 44)
     + AudioBuffer.length workingBuffer
       * (AudioBuffer.numberOfChannels workingBuffer
          * (if (bitDepth =? 32)%Z then 4 else if (bitDepth =? 24)%Z then 3 else 2)))%nat.
Proof.
  unfold TrapMasterProEngine.encodeWAV.
  destruct (bitDepth =? 32)%Z; [| destruct (bitDepth =? 24)%Z];
    match goal with
    | |- List.length (TrapMasterProEngine.view _) = ?n =>
        set (P := fun w : TrapMasterProEngine.Writer =>
                    List.length (TrapMasterProEngine.view w) = n);
        refine (writeSamples_inv P _ _ _ _ _);
          [unfold P; cbn [TrapMasterProEngine.view];
           repeat first [rewrite setUint32_length | rewrite setUint16_length
                        | rewrite writeString_length];
           unfold DataView.create; rewrite repeat_length; reflexivity |]
    end.
  - intros w sample Hw. unfold P, TrapMasterProEngine.advance, DataView.setFloat32.
    cbn [TrapMasterProEngine.view]. rewrite setUint32_length. exact Hw.
  - intros w sample Hw.
    pose proof (ditherIfEnabled_view random w sample) as [Hdv _].
    destruct (TrapMasterProEngine.ditherIfEnabled random w sample) as [w' s'].
    cbn [fst] in Hdv. unfold P, TrapMasterProEngine.advance.
    cbn [TrapMasterProEngine.view]. rewrite !setUint8_length, Hdv. exact Hw.
  - intros w sample Hw.
    pose proof (ditherIfEnabled_view random w sample) as [Hdv _].
    destruct (TrapMasterProEngine.ditherIfEnabled random w sample) as [w' s'].
    cbn [fst] in Hdv. unfold P, TrapMasterProEngine.advance, DataView.setInt16.
    cbn [TrapMasterProEngine.view]. rewrite setUint16_length, Hdv. exact Hw.
Qed.

Lemma validate_pcm16_header (s0 s1 s2 s3 c0 c1 r0 r1 r2 r3 b0 b1 b2 b3 a0 a1 : Z)
  (rest : list Z) (sr ch : Z) :
  (r0 + 256 * r1 + 65536 * (r2 + 256 * r3))%Z = sr ->
  let report :=
    ExportValidator.validateExportedFile
      (82 :: 73 :: 70 :: 70 :: s0 :: s1 :: s2 :: s3 :: 87 :: 65 :: 86 :: 69
       :: 102 :: 109 :: 116 :: 32 :: 16 :: 0 :: 0 :: 0 :: 1 :: 0 :: c0 :: c1
       :: r0 :: r1 :: r2 :: r3 :: b0 :: b1 :: b2 :: b3 :: a0 :: a1 :: 16 :: 0
       :: rest)%Z
      {| ExportValidator.es_sampleRate := sr; ExportValidator.es_bitDepth := 16;
         ExportValidator.es_channels := ch |} in
  ExportValidator.valid report = true /\
  exists h, ExportValidator.fileHeader report = Some h /\
            ExportValidator.sampleRate h = sr /\
            ExportValidator.bitsPerSample h = 16%Z.
Proof.
  intros Hsr report. unfold report, ExportValidator.validateExportedFile.
  match goal with
  | |- context [DataView.tagAt ?v 0 "RIFF"] =>
      replace (DataView.tagAt v 0 "RIFF") with true by reflexivity;
      replace (DataView.tagAt v 8 "WAVE") with true by reflexivity;
      replace (DataView.tagAt v 12 "fmt ") with true by reflexivity
  end.
  cbn -[Z.add Z.mul Z.eqb].
  rewrite Hsr, Z.eqb_refl. cbn [negb]. rewrite Bool.andb_false_r.
  split; [reflexivity |].
  eexists. split; [reflexivity |]. split; reflexivity.
Qed.

Lemma validate_float32_header (s0 s1 s2 s3 c0 c1 r0 r1 r2 r3 b0 b1 b2 b3 a0 a1 : Z)
  (rest : list Z) (sr ch : Z) :
  (r0 + 256 * r1 + 65536 * (r2 + 256 * r3))%Z = sr ->
  let report :=
    ExportValidator.validateExportedFile
      (82 :: 73 :: 70 :: 70 :: s0 :: s1 :: s2 :: s3 :: 87 :: 65 :: 86 :: 69
       :: 102 :: 109 :: 116 :: 32 :: 18 :: 0 :: 0 :: 0 :: 3 :: 0 :: c0 :: c1
       :: r0 :: r1 :: r2 :: r3 :: b0 :: b1 :: b2 :: b3 :: a0 :: a1 :: 32 :: 0
       :: rest)%Z
      {| ExportValidator.es_sampleRate := sr; ExportValidator.es_bitDepth := 32;
         ExportValidator.es_channels := ch |} in
  ExportValidator.valid report = true /\
  exists h, ExportValidator.fileHeader report = Some h /\
            ExportValidator.sampleRate h = sr /\
            ExportValidator.bitsPerSample h = 32%Z.
Proof.
  intros Hsr report. unfold report, ExportValidator.validateExportedFile.
  match goal with
  | |- context [DataView.tagAt ?v 0 "RIFF"] =>
      replace (DataView.tagAt v 0 "RIFF") with true by reflexivity;
      replace (DataView.tagAt v 8 "WAVE") with true by reflexivity;
      replace (DataView.tagAt v 12 "fmt ") with true by reflexivity
  end.
  cbn -[Z.add Z.mul Z.eqb].
  rewrite Hsr, Z.eqb_refl. cbn [negb]. rewrite Bool.andb_false_r.
  split; [reflexivity |].
  eexists. split; [reflexivity |]. split; reflexivity.
Qed.

Lemma writeString4_firstn (k offset : nat) (s : string) (view : DataView.t) :
  (k <= offset)%nat ->
  firstn k (DataView.writeString view offset s) = firstn k view.
Proof.
  revert view offset. induction s as [| c rest IH]; intros view offset Hk; cbn.
  - reflexivity.
  - rewrite IH by lia. apply setUint8_firstn, Hk.
Qed.

(** The header the 16-bit path writes survives the sample loop. *)
Lemma encodeWAV_16_header (float32_bits : R -> Z) (random : nat -> R)
  (workingBuffer : AudioBuffer.t) (dither : bool) :
  let sr := (AudioBuffer.sampleRate workingBuffer mod 4294967296)%Z in
  exists s0 s1 s2 s3 c0 c1 b0 b1 b2 b3 a0 a1 rest,
    TrapMasterProEngine.view
      (TrapMasterProEngine.encodeWAV float32_bits random workingBuffer 16 dither)
    = (82 :: 73 :: 70 :: 70 :: s0 :: s1 :: s2 :: s3 :: 87 :: 65 :: 86 :: 69
       :: 102 :: 109 :: 116 :: 32 :: 16 :: 0 :: 0 :: 0 :: 1 :: 0 :: c0 :: c1
       :: sr mod 256 :: (sr / 256) mod 256 :: (sr / 65536) mod 256 :: sr / 16777216
       :: b0 :: b1 :: b2 :: b3 :: a0 :: a1 :: 16 :: 0 :: rest)%Z.
Proof.
  intros sr. unfold TrapMasterProEngine.encodeWAV. cbn [Z.eqb Pos.eqb].
  match goal with
  | |- context [TrapMasterProEngine.writeSamples _ ?w0 ?write] =>
      set (W0 := w0); set (wr := write)
  end.
  assert (Hw : firstn 36 (TrapMasterProEngine.view
                            (TrapMasterProEngine.writeSamples workingBuffer W0 wr))
               = firstn 36 (TrapMasterProEngine.view W0)).
  { set (P := fun X : TrapMasterProEngine.Writer =>
                firstn 36 (TrapMasterProEngine.view X)
                = firstn 36 (TrapMasterProEngine.view W0)
                /\ (44 <= TrapMasterProEngine.offset X)%nat).
    refine (proj1 (writeSamples_inv P _ _ _ _ _)); [split; [reflexivity | cbn; lia] |].
    intros w1 sample [Hv Ho]. unfold wr.
    pose proof (ditherIfEnabled_view random w1 sample) as [Hdv Hdo].
    destruct (TrapMasterProEngine.ditherIfEnabled random w1 sample) as [w' s'].
    cbn [fst] in *. unfold P, TrapMasterProEngine.advance, DataView.setInt16.
    cbn [TrapMasterProEngine.view TrapMasterProEngine.offset].
    rewrite setUint16_firstn by lia. rewrite Hdv, Hdo. split; [exact Hv | lia]. }
  rewrite <- (firstn_skipn 36 (TrapMasterProEngine.view
                                 (TrapMasterProEngine.writeSamples workingBuffer W0 wr))).
  rewrite Hw. unfold W0. cbn [TrapMasterProEngine.view].
  rewrite setUint32_firstn by lia. rewrite writeString4_firstn by lia.
  unfold DataView.create. cbn [Nat.add repeat].
  unfold DataView.writeString, DataView.setUint32, DataView.setUint16, DataView.setUint8.
  cbn [DataView.storeByte Nat.add firstn app].
  repeat eexists.
Qed.

(** The header the 32-bit path writes survives the sample loop. *)
Lemma encodeWAV_32_header (float32_bits : R -> Z) (random : nat -> R)
  (workingBuffer : AudioBuffer.t) (dither : bool) :
  let sr := (AudioBuffer.sampleRate workingBuffer mod 4294967296)%Z in
  exists s0 s1 s2 s3 c0 c1 b0 b1 b2 b3 a0 a1 rest,
    TrapMasterProEngine.view
      (TrapMasterProEngine.encodeWAV float32_bits random workingBuffer 32 dither)
    = (82 :: 73 :: 70 :: 70 :: s0 :: s1 :: s2 :: s3 :: 87 :: 65 :: 86 :: 69
       :: 102 :: 109 :: 116 :: 32 :: 18 :: 0 :: 0 :: 0 :: 3 :: 0 :: c0 :: c1
       :: sr mod 256 :: (sr / 256) mod 256 :: (sr / 65536) mod 256 :: sr / 16777216
       :: b0 :: b1 :: b2 :: b3 :: a0 :: a1 :: 32 :: 0 :: rest)%Z.
Proof.
  intros sr. unfold TrapMasterProEngine.encodeWAV. cbn [Z.eqb Pos.eqb].
  match goal with
  | |- context [TrapMasterProEngine.writeSamples _ ?w0 ?write] =>
      set (W0 := w0); set (wr := write)
  end.
  assert (Hw : firstn 36 (TrapMasterProEngine.view
                            (TrapMasterProEngine.writeSamples workingBuffer W0 wr))
               = firstn 36 (TrapMasterProEngine.view W0)).
  { set (P := fun X : TrapMasterProEngine.Writer =>
                firstn 36 (TrapMasterProEngine.view X)
                = firstn 36 (TrapMasterProEngine.view W0)
                /\ (46 <= TrapMasterProEngine.offset X)%nat).
    refine (proj1 (writeSamples_inv P _ _ _ _ _)); [split; [reflexivity | cbn; lia] |].
    intros w1 sample [Hv Ho]. unfold wr, P, TrapMasterProEngine.advance,
      DataView.setFloat32.
    cbn [TrapMasterProEngine.view TrapMasterProEngine.offset].
    rewrite setUint32_firstn by lia. split; [exact Hv | lia]. }
  rewrite <- (firstn_skipn 36 (TrapMasterProEngine.view
                                 (TrapMasterProEngine.writeSamples workingBuffer W0 wr))).
  rewrite Hw. unfold W0. cbn [TrapMasterProEngine.view].
  rewrite setUint32_firstn by lia. rewrite writeString4_firstn by lia.
  rewrite setUint16_firstn by lia.
  unfold DataView.create. cbn [Nat.add repeat].
  unfold DataView.writeString, DataView.setUint32, DataView.setUint16, DataView.setUint8.
  cbn [DataView.storeByte Nat.add firstn app].
  repeat eexists.
Qed.

(** X29.  At each of the three bit depths the encoder fills exactly the
    buffer it allocated (header size plus data size, the header size being
    44, 50 or 58 bytes), and the header it writes, read back by the
    validator against the working buffer's own rate, depth and channel
    count, gives a valid report that carries that rate and depth. *)
Theorem encoded_header_reads_back_valid (float32_bits : R -> Z) (random : nat -> R)
  (workingBuffer : AudioBuffer.t) (bitDepth : Z) (dither : bool) :
  bitDepth = 16%Z \/ bitDepth = 24%Z \/ bitDepth = 32%Z ->
  (0 <= AudioBuffer.sampleRate workingBuffer < 4294967296)%Z ->
  let w := TrapMasterProEngine.encodeWAV float32_bits random workingBuffer bitDepth
             dither in
  let report :=
    ExportValidator.validateExportedFile (TrapMasterProEngine.view w)
      {| ExportValidator.es_sampleRate := AudioBuffer.sampleRate workingBuffer;
         ExportValidator.es_bitDepth := bitDepth;
         ExportValidator.es_channels :=
           Z.of_nat (AudioBuffer.numberOfChannels workingBuffer) |} in
  List.length (TrapMasterProEngine.view w)
  = ((if (bitDepth =? 32)%Z then 58 else if (bitDepth =? 24)%Z then 50 else 44)
     + AudioBuffer.length workingBuffer
       * (AudioBuffer.numberOfChannels workingBuffer
          * (if (bitDepth =? 32)%Z then 4 else if (bitDepth =? 24)%Z then 3 else 2)))%nat
  /\ ExportValidator.valid report = true
  /\ exists h, ExportValidator.fileHeader report = Some h /\
               ExportValidator.sampleRate h = AudioBuffer.sampleRate workingBuffer /\
               ExportValidator.bitsPerSample h = bitDepth.
Proof.
  intros Hdepth Hsr w report. split; [apply encodeWAV_length |].
  unfold report, w. destruct Hdepth as [-> | [-> | ->]].
  - destruct (encodeWAV_16_header float32_bits random workingBuffer dither)
      as (s0 & s1 & s2 & s3 & c0 & c1 & b0 & b1 & b2 & b3 & a0 & a1 & rest & Hview).
    rewrite Hview. apply validate_pcm16_header. apply (uint32_roundtrip _ Hsr).
  - apply encodeWAV_24_validates, Hsr.
  - destruct (encodeWAV_32_header float32_bits random workingBuffer dither)
      as (s0 & s1 & s2 & s3 & c0 & c1 & b0 & b1 & b2 & b3 & a0 & a1 & rest & Hview).
    rewrite Hview. apply validate_float32_header. apply (uint32_roundtrip _ Hsr).
Qed.

Lemma encoded_header_reads_back_valid_witness :
  let workingBuffer := AudioBuffer.mk 1 2 48000 [[0.5; - 0.25]] in
  (16 = 16 \/ 16 = 24 \/ 16 = 32)%Z /\
  (0 <= AudioBuffer.sampleRate workingBuffer < 4294967296)%Z /\
  List.length
    (TrapMasterProEngine.view
       (TrapMasterProEngine.encodeWAV (fun _ => 0%Z) (fun _ => 0) workingBuffer 16 true))
  = 48%nat.
Proof.
  intros workingBuffer.
  assert (H1 : (16 = 16 \/ 16 = 24 \/ 16 = 32)%Z) by (left; reflexivity).
  assert (H2 : (0 <= AudioBuffer.sampleRate workingBuffer < 4294967296)%Z)
    by (cbn; lia).
  split; [exact H1 |]. split; [exact H2 |].
  exact (proj1 (encoded_header_reads_back_valid (fun _ => 0%Z) (fun _ => 0)
                  workingBuffer 16 true H1 H2)).
Defined.

(** * Where the encoder stops writing *)

Lemma storeByte_skipn (k offset : nat) (v : Z) (view : DataView.t) :
  (offset < k)%nat ->
  skipn k (DataView.storeByte offset v view) = skipn k view.
Proof.
  revert k offset. induction view as [| x rest IH]; intros k offset Hk.
  - destruct offset; reflexivity.
  - destruct k as [| k]; [lia |]. destruct offset as [| j]; cbn.
    + reflexivity.
    + apply IH. lia.
Qed.

Lemma setUint8_skipn (k offset : nat) (v : Z) (view : DataView.t) :
  (offset + 1 <= k)%nat ->
  skipn k (DataView.setUint8 view offset v) = skipn k view.
Proof. intros H. apply storeByte_skipn. lia. Qed.

Lemma setUint16_skipn (k offset : nat) (v : Z) (view : DataView.t) :
  (offset + 2 <= k)%nat ->
  skipn k (DataView.setUint16 view offset v) = skipn k view.
Proof.
  intros H. unfold DataView.setUint16. rewrite !storeByte_skipn by lia. reflexivity.
Qed.

Lemma setUint32_skipn (k offset : nat) (v : Z) (view : DataView.t) :
  (offset + 4 <= k)%nat ->
  skipn k (DataView.setUint32 view offset v) = skipn k view.
Proof.
  intros H. unfold DataView.setUint32. rewrite !storeByte_skipn by lia. reflexivity.
Qed.

Lemma writeString_skipn (s : string) (k offset : nat) (view : DataView.t) :
  (offset + String.length s <= k)%nat ->
  skipn k (DataView.writeString view offset s) = skipn k view.
Proof.
  revert view offset. induction s as [| c rest IH]; intros view offset Hk; cbn in *.
  - reflexivity.
  - rewrite IH by lia. apply setUint8_skipn. lia.
Qed.

Lemma skipn_repeat_zero (k n : nat) :
  skipn k (repeat 0%Z (k + n)) = repeat 0%Z n.
Proof. induction k as [| k IH]; cbn; [reflexivity | exact IH]. Qed.

(** A sample loop whose [write] puts [bytes] bytes at the write offset and
    advances by as many ends at the start offset plus the data size, and
    has touched nothing from there on. *)
Lemma writeSamples_tail (workingBuffer : AudioBuffer.t)
  (write : TrapMasterProEngine.Writer -> R -> TrapMasterProEngine.Writer)
  (w0 : TrapMasterProEngine.Writer) (bytes : nat) :
  (forall w sample,
     TrapMasterProEngine.offset (write w sample)
     = (TrapMasterProEngine.offset w + bytes)%nat /\
     forall E : nat,
       (TrapMasterProEngine.offset w + bytes <= E)%nat ->
       skipn E (TrapMasterProEngine.view (write w sample))
       = skipn E (TrapMasterProEngine.view w)) ->
  let E := (TrapMasterProEngine.offset w0
            + AudioBuffer.length workingBuffer
              * (AudioBuffer.numberOfChannels workingBuffer * bytes))%nat in
  TrapMasterProEngine.offset (TrapMasterProEngine.writeSamples workingBuffer w0 write) = E
  /\ skipn E (TrapMasterProEngine.view
                (TrapMasterProEngine.writeSamples workingBuffer w0 write))
     = skipn E (TrapMasterProEngine.view w0).
Proof.
  intros Hwrite E. unfold TrapMasterProEngine.writeSamples.
  set (len := AudioBuffer.length workingBuffer) in *.
  set (nch := AudioBuffer.numberOfChannels workingBuffer) in *.
  set (P := fun (count : nat) (w : TrapMasterProEngine.Writer) =>
              TrapMasterProEngine.offset w
              = (TrapMasterProEngine.offset w0 + count * bytes)%nat /\
              skipn E (TrapMasterProEngine.view w)
              = skipn E (TrapMasterProEngine.view w0)).
  assert (HE : E = (TrapMasterProEngine.offset w0 + len * nch * bytes)%nat).
  { unfold E. rewrite Nat.mul_assoc. reflexivity. }
  assert (Hall : P (len * nch)%nat
                   (forRange len
                      (fun i w =>
                         forRange nch
                           (fun ch w =>
                              write w (TrapMasterProEngine.clamp
                                         (AudioBuffer.get workingBuffer ch i)))
                           w)
                      w0)).
  { apply (forRange_ind (fun i w => P (i * nch)%nat w)).
    - unfold P. split; [lia | reflexivity].
    - intros i w Hi Hw.
      replace (Datatypes.S i * nch)%nat with (i * nch + nch)%nat by lia.
      apply (forRange_ind (fun ch w => P (i * nch + ch)%nat w)).
      + rewrite Nat.add_0_r. exact Hw.
      + intros ch w1 Hch [Ho Hs]. unfold P.
        destruct (Hwrite w1 (TrapMasterProEngine.clamp
                               (AudioBuffer.get workingBuffer ch i))) as [Ho' Hs'].
        split; [rewrite Ho', Ho; lia |].
        rewrite Hs'; [exact Hs |].
        rewrite Ho, HE.
        assert (Hcount : (i * nch + ch + 1 <= len * nch)%nat).
        { assert ((i + 1) * nch <= len * nch)%nat
            by (apply Nat.mul_le_mono_r; lia). lia. }
        assert (((i * nch + ch + 1) * bytes <= len * nch * bytes)%nat)
          by (apply Nat.mul_le_mono_r; exact Hcount).
        lia. }
  destruct Hall as [Ho Hs]. split; [rewrite Ho, HE; reflexivity | exact Hs].
Qed.

(** X30.  The sample loop of the encoder ends at byte 44 (16 bits) or 46
    (24 and 32 bits) plus the data size, while the buffer was allocated
    with 44, 50 or 58 header bytes: a 16-bit file ends with its last
    sample, a 24-bit file with 4 and a 32-bit file with 12 bytes after the
    last sample, which are never written and stay zero. *)
Theorem encoder_leaves_trailing_zero_bytes (float32_bits : R -> Z) (random : nat -> R)
  (workingBuffer : AudioBuffer.t) (bitDepth : Z) (dither : bool) :
  let w := TrapMasterProEngine.encodeWAV float32_bits random workingBuffer bitDepth
             dither in
  let dataSize :=
    (AudioBuffer.length workingBuffer
     * (AudioBuffer.numberOfChannels workingBuffer
        * (if (bitDepth =? 32)%Z then 4 else if (bitDepth =? 24)%Z then 3 else 2)))%nat in
  TrapMasterProEngine.offset w
  = ((if (bitDepth =? 32)%Z then 46 else if (bitDepth =? 24)%Z then 46 else 44)
     + dataSize)%nat /\
  skipn (TrapMasterProEngine.offset w) (TrapMasterProEngine.view w)
  = repeat 0%Z (if (bitDepth =? 32)%Z then 12 else if (bitDepth =? 24)%Z then 4 else 0).
Proof.
  intros w dataSize. unfold w, dataSize, TrapMasterProEngine.encodeWAV. clear w dataSize.
  destruct (bitDepth =? 32)%Z; [| destruct (bitDepth =? 24)%Z].
  - match goal with
    | |- context [TrapMasterProEngine.writeSamples _ ?w0 ?write] =>
        destruct (writeSamples_tail workingBuffer write w0 4) as [Ho Hs]
    end.
    { intros w1 sample. unfold TrapMasterProEngine.advance, DataView.setFloat32.
      cbn [TrapMasterProEngine.view TrapMasterProEngine.offset].
      split; [reflexivity |]. intros E HE. apply setUint32_skipn, HE. }
    cbn [TrapMasterProEngine.offset TrapMasterProEngine.view] in Ho, Hs.
    rewrite Ho. split; [reflexivity |]. rewrite Hs.
    repeat first [rewrite setUint32_skipn by (cbn; lia)
                 | rewrite setUint16_skipn by (cbn; lia)
                 | rewrite writeString_skipn by (cbn; lia)].
    unfold DataView.create.
    replace (58 + AudioBuffer.length workingBuffer
                  * (AudioBuffer.numberOfChannels workingBuffer * 4))%nat
      with (46 + AudioBuffer.length workingBuffer
                 * (AudioBuffer.numberOfChannels workingBuffer * 4) + 12)%nat by lia.
    apply skipn_repeat_zero.
  - match goal with
    | |- context [TrapMasterProEngine.writeSamples _ ?w0 ?write] =>
        destruct (writeSamples_tail workingBuffer write w0 3) as [Ho Hs]
    end.
    { intros w1 sample.
      pose proof (ditherIfEnabled_view random w1 sample) as [Hdv Hdo].
      destruct (TrapMasterProEngine.ditherIfEnabled random w1 sample) as [w' s'].
      cbn [fst] in Hdv, Hdo. unfold TrapMasterProEngine.advance.
      cbn [TrapMasterProEngine.view TrapMasterProEngine.offset].
      rewrite Hdo, Hdv. split; [reflexivity |]. intros E HE.
      rewrite !setUint8_skipn by lia. reflexivity. }
    cbn [TrapMasterProEngine.offset TrapMasterProEngine.view] in Ho, Hs.
    rewrite Ho. split; [reflexivity |]. rewrite Hs.
    repeat first [rewrite setUint32_skipn by (cbn; lia)
                 | rewrite setUint16_skipn by (cbn; lia)
                 | rewrite writeString_skipn by (cbn; lia)].
    unfold DataView.create.
    replace (50 + AudioBuffer.length workingBuffer
                  * (AudioBuffer.numberOfChannels workingBuffer * 3))%nat
      with (46 + AudioBuffer.length workingBuffer
                 * (AudioBuffer.numberOfChannels workingBuffer * 3) + 4)%nat by lia.
    apply skipn_repeat_zero.
  - match goal with
    | |- context [TrapMasterProEngine.writeSamples _ ?w0 ?write] =>
        destruct (writeSamples_tail workingBuffer write w0 2) as [Ho Hs]
    end.
    { intros w1 sample.
      pose proof (ditherIfEnabled_view random w1 sample) as [Hdv Hdo].
      destruct (TrapMasterProEngine.ditherIfEnabled random w1 sample) as [w' s'].
      cbn [fst] in Hdv, Hdo. unfold TrapMasterProEngine.advance, DataView.setInt16.
      cbn [TrapMasterProEngine.view TrapMasterProEngine.offset].
      rewrite Hdo, Hdv. split; [reflexivity |]. intros E HE.
      rewrite setUint16_skipn by lia. reflexivity. }
    cbn [TrapMasterProEngine.offset TrapMasterProEngine.view] in Ho, Hs.
    rewrite Ho. split; [reflexivity |]. rewrite Hs.
    repeat first [rewrite setUint32_skipn by (cbn; lia)
                 | rewrite setUint16_skipn by (cbn; lia)
                 | rewrite writeString_skipn by (cbn; lia)].
    unfold DataView.create.
    replace (44 + AudioBuffer.length workingBuffer
                  * (AudioBuffer.numberOfChannels workingBuffer * 2))%nat
      with (44 + AudioBuffer.length workingBuffer
                 * (AudioBuffer.numberOfChannels workingBuffer * 2) + 0)%nat at 2 by lia.
    apply skipn_repeat_zero.
Qed.
